(** * Null-space mesh smoothing (LosTopos3D/meshsmoother.cpp)

    A shallow embedding of the vertex-relocation pass of the surface
    tracker and the properties of it that the specification states.

    Scalars.  The source computes in [double]; the embedding computes in the
    real numbers, so every statement below is a statement of exact
    arithmetic.  Rounding, NaN and signed zeros are outside the model.  A
    quotient by zero, inf or NaN in the source, is a number in the reals; a
    theorem whose conclusion is about the value of a quotient assumes or
    proves that the divisor is not zero.

    Vectors.  Reading a [std::vector] outside its bounds is undefined in the
    source; the embedding's lookup [l !!! i] is total and reads the default
    of the element type there, and its update [<[i:=x]> l] leaves the list
    as it is.  Inside the bounds both are exact.

    Collaborators.  The mesh container's queries, the collision engine and
    the eigen-solver are not part of meshsmoother.cpp; they enter as the
    fields of the records [SurfaceQueries], [CollisionPipeline] and
    [EigenBackend], over which every definition is parametrised.

    Assertions are taken as compiled in: a failed [assert] ends the call
    with a [Fault].  [compute_max_timestep_quadratic_solve], which no active
    path of the pass calls, is embedded without its diagnostic output. *)

From Stdlib Require Import Reals Lra Bool ZArith.
From stdpp Require Import base list.

#[local] Open Scope R_scope.

(** ** Scalars and comparisons *)

Definition Rltb (x y : R) : bool := if Rlt_dec x y then true else false.
Definition Rleb (x y : R) : bool := if Rle_dec x y then true else false.
Definition Reqb (x y : R) : bool := if Req_dec_T x y then true else false.
(** [x > y] and [x >= y] of the source. *)
Definition Rgtb (x y : R) : bool := Rltb y x.
Definition Rgeb (x y : R) : bool := Rleb y x.

#[global] Instance R_inhabited : Inhabited R := populate 0.

(** ** vec.h: fixed-size vectors *)

Record Vec3d : Type := mkVec3d { vx : R; vy : R; vz : R }.

(** [Vec3st], [Vec2st]: vertex indices of a triangle and of an edge;
    [Vec2i]: the two region labels of a triangle; [Vec3c]: one flag per
    axis. *)
Definition Vec3st : Type := (nat * nat * nat)%type.
Definition Vec2st : Type := (nat * nat)%type.
Definition Vec2i : Type := (Z * Z)%type.
Definition Vec3c : Type := (bool * bool * bool)%type.

Definition tri0 (t : Vec3st) : nat := t.1.1.
Definition tri1 (t : Vec3st) : nat := t.1.2.
Definition tri2 (t : Vec3st) : nat := t.2.

Module Vec.

Definition zero : Vec3d := mkVec3d 0 0 0.

(** [a[i]] for [i] in 0..2. *)
Definition get (a : Vec3d) (i : nat) : R :=
  match i with
  | O => vx a
  | S O => vy a
  | _ => vz a
  end.

(** [a[i] = x]. *)
Definition set (a : Vec3d) (i : nat) (x : R) : Vec3d :=
  match i with
  | O => mkVec3d x (vy a) (vz a)
  | S O => mkVec3d (vx a) x (vz a)
  | _ => mkVec3d (vx a) (vy a) x
  end.

Definition add (a b : Vec3d) : Vec3d :=
  mkVec3d (vx a + vx b) (vy a + vy b) (vz a + vz b).
Definition sub (a b : Vec3d) : Vec3d :=
  mkVec3d (vx a - vx b) (vy a - vy b) (vz a - vz b).
(** [s * a] and [a * s]. *)
Definition scale (s : R) (a : Vec3d) : Vec3d :=
  mkVec3d (s * vx a) (s * vy a) (s * vz a).
(** [a / s]. *)
Definition div (a : Vec3d) (s : R) : Vec3d :=
  mkVec3d (vx a / s) (vy a / s) (vz a / s).

Definition dot (a b : Vec3d) : R := vx a * vx b + vy a * vy b + vz a * vz b.
Definition cross (a b : Vec3d) : Vec3d :=
  mkVec3d (vy a * vz b - vz a * vy b)
          (vz a * vx b - vx a * vz b)
          (vx a * vy b - vy a * vx b).
Definition mag2 (a : Vec3d) : R := dot a a.
Definition mag (a : Vec3d) : R := sqrt (mag2 a).
(** [normalize(a)] divides [a] by its magnitude in place; [normalized(a)]
    returns the quotient. *)
Definition normalized (a : Vec3d) : Vec3d := div a (mag a).

End Vec.

#[global] Instance Vec3d_inhabited : Inhabited Vec3d := populate Vec.zero.

Declare Scope vec_scope.
Delimit Scope vec_scope with vec.
Bind Scope vec_scope with Vec3d.
Infix "+" := Vec.add : vec_scope.
Infix "-" := Vec.sub : vec_scope.
Infix "*" := Vec.scale : vec_scope.
Infix "/" := Vec.div : vec_scope.

(** ** mat.h: 3x3 matrices, stored by rows *)

Record Mat33d : Type := mkMat33d { row0 : Vec3d; row1 : Vec3d; row2 : Vec3d }.

Module Mat.

Definition zero : Mat33d := mkMat33d Vec.zero Vec.zero Vec.zero.

(** [A(r,c)]. *)
Definition get (A : Mat33d) (r c : nat) : R :=
  match r with
  | O => Vec.get (row0 A) c
  | S O => Vec.get (row1 A) c
  | _ => Vec.get (row2 A) c
  end.

(** The matrix whose entry [(r,c)] is [f r c]. *)
Definition build (f : nat -> nat -> R) : Mat33d :=
  mkMat33d (mkVec3d (f 0 0) (f 0 1) (f 0 2))%nat
           (mkVec3d (f 1 0) (f 1 1) (f 1 2))%nat
           (mkVec3d (f 2 0) (f 2 1) (f 2 2))%nat.

(** [A * t]. *)
Definition mulv (A : Mat33d) (t : Vec3d) : Vec3d :=
  mkVec3d (Vec.dot (row0 A) t) (Vec.dot (row1 A) t) (Vec.dot (row2 A) t).

End Mat.

(** ** The mesh container and the surface *)

Record NonDestructiveTriMesh : Type := mkMesh {
  m_tris : list Vec3st;
  m_edges : list Vec2st;
  m_triangle_labels : list Vec2i;
  m_vertex_to_triangle_map : list (list nat);
  m_vertex_to_edge_map : list (list nat);
  m_edge_to_triangle_map : list (list nat)
}.

Record SurfTrack : Type := mkSurf {
  m_mesh : NonDestructiveTriMesh;
  pm_positions : list Vec3d;
  pm_newpositions : list Vec3d;
  m_aggressive_mode : bool;
  m_collision_safety : bool;
  m_max_edge_length : R;
  m_improve_collision_epsilon : R;
  m_min_angle_cosine : R;
  m_max_angle_cosine : R
}.

Definition num_triangles (mesh : NonDestructiveTriMesh) : nat :=
  length (m_tris mesh).
Definition get_triangle (mesh : NonDestructiveTriMesh) (t : nat) : Vec3st :=
  m_tris mesh !!! t.
Definition get_triangle_label (mesh : NonDestructiveTriMesh) (t : nat) : Vec2i :=
  m_triangle_labels mesh !!! t.

Definition get_num_vertices (surf : SurfTrack) : nat :=
  length (pm_positions surf).
Definition get_position (surf : SurfTrack) (v : nat) : Vec3d :=
  pm_positions surf !!! v.
Definition get_newposition (surf : SurfTrack) (v : nat) : Vec3d :=
  pm_newpositions surf !!! v.

Definition set_position (surf : SurfTrack) (v : nat) (x : Vec3d) : SurfTrack :=
  mkSurf (m_mesh surf) (<[v := x]> (pm_positions surf)) (pm_newpositions surf)
         (m_aggressive_mode surf) (m_collision_safety surf)
         (m_max_edge_length surf) (m_improve_collision_epsilon surf)
         (m_min_angle_cosine surf) (m_max_angle_cosine surf).

Definition set_newposition (surf : SurfTrack) (v : nat) (x : Vec3d) : SurfTrack :=
  mkSurf (m_mesh surf) (pm_positions surf) (<[v := x]> (pm_newpositions surf))
         (m_aggressive_mode surf) (m_collision_safety surf)
         (m_max_edge_length surf) (m_improve_collision_epsilon surf)
         (m_min_angle_cosine surf) (m_max_angle_cosine surf).

(** The per-triangle caches that one pass owns: [triangle_areas],
    [triangle_normals], [triangle_centroids]. *)
Record Caches : Type := mkCaches {
  triangle_areas : list R;
  triangle_normals : list Vec3d;
  triangle_centroids : list Vec3d
}.

(** ** Collaborators *)

(** Queries of the surface and its mesh that meshsmoother.cpp calls and
    does not define. *)
Record SurfaceQueries : Type := mkQueries {
  vertex_is_deleted : NonDestructiveTriMesh -> nat -> bool;
  triangle_angle_cosines : Vec3d -> Vec3d -> Vec3d -> R * R * R;
  get_triangle_area : SurfTrack -> nat -> R;
  get_triangle_normal : SurfTrack -> nat -> Vec3d;
  get_triangle_normal_by_region : SurfTrack -> nat -> Z -> Vec3d;
  get_largest_dihedral : SurfTrack -> nat -> list Vec3d -> R;
  edge_is_feature : SurfTrack -> nat -> list Vec3d -> bool;
  vertex_is_solid_3 : SurfTrack -> nat -> Vec3c;
  vertex_is_all_solid : SurfTrack -> nat -> bool;
  (** what a [Vec3d] declared without an initialiser holds *)
  uninitialised : Vec3d
}.

(** A collision candidate [(a, b, kind)]: kind 1 pairs edge [a] with edge
    [b], any other kind pairs triangle [a] with vertex [b]. *)
Definition CollisionCandidateSet : Type := list Vec3st.

Record CollisionPipeline : Type := mkPipeline {
  add_triangle_candidates :
    SurfTrack -> nat -> CollisionCandidateSet -> CollisionCandidateSet;
  add_point_candidates :
    SurfTrack -> nat -> CollisionCandidateSet -> CollisionCandidateSet;
  add_edge_candidates :
    SurfTrack -> nat -> CollisionCandidateSet -> CollisionCandidateSet;
  any_collision : SurfTrack -> CollisionCandidateSet -> bool;
  (** the [distance] output of the two proximity queries *)
  check_edge_edge_proximity : Vec3d -> Vec3d -> Vec3d -> Vec3d -> R;
  check_point_triangle_proximity : Vec3d -> Vec3d -> Vec3d -> Vec3d -> R
}.

(** [Eigen::SelfAdjointEigenSolver<Matrix3d>] after [compute]. *)
Record EigenSolver : Type := mkEigen {
  es_success : bool;
  eigenvalues : Vec3d;
  eigenvectors_col : nat -> Vec3d
}.

Record EigenBackend : Type := mkBackend {
  es_compute : Mat33d -> EigenSolver;
  G_EIGENVALUE_RANK_RATIO : R
}.

(** ** Failures *)

(** The source stops at a failed [assert]; writing past a local array is
    undefined. *)
Inductive fault : Type :=
| AssertionFailed
| OutOfBounds.

Inductive result (A : Type) : Type :=
| Ok (a : A)
| Fault (f : fault).
Arguments Ok {A} a.
Arguments Fault {A} f.

#[global] Instance result_ret : MRet result := fun _ a => Ok a.
#[global] Instance result_bind : MBind result := fun _ _ k r =>
  match r with
  | Ok a => k a
  | Fault f => Fault f
  end.

Fixpoint foldM {A S : Type} (f : S -> A -> result S) (l : list A) (s : S)
  : result S :=
  match l with
  | [] => Ok s
  | a :: l' => s' ← f s a; foldM f l' s'
  end.

Definition is_nil {A : Type} (l : list A) : bool :=
  match l with
  | [] => true
  | _ :: _ => false
  end.

(** [std::set<int>::insert]: the set is kept in ascending order without
    repeats, which is the order its iterator visits. *)
Fixpoint set_insert (x : Z) (s : list Z) : list Z :=
  match s with
  | [] => [x]
  | y :: s' =>
      if (x <? y)%Z then x :: s
      else if (x =? y)%Z then s
      else y :: set_insert x s'
  end.

(** What one call of [null_space_smooth_vertex] leaves behind: the surface,
    the caches and the displacement slot it was handed. *)
Record Outcome : Type := mkOutcome {
  out_surf : SurfTrack;
  out_caches : Caches;
  out_displacement : Vec3d
}.

Section MeshSmoother.

Context (Q : SurfaceQueries) (CP : CollisionPipeline) (EB : EigenBackend).
(** The smoother's own setting. *)
Variable m_sharp_fold_regularization_threshold : R.

(** ** Quality test (null_space_smooth_vertex, lines 233-270) *)

Definition min_cos : R := cos (160 * PI / 180).
Definition max_cos : R := cos (20 * PI / 180).

Definition any_bad_angles_cos (lo hi : R) (cos_angles : R * R * R) : bool :=
  let '(c0, c1, c2) := cos_angles in
  Rltb c0 lo || Rgtb c0 hi ||
  Rltb c1 lo || Rgtb c1 hi ||
  Rltb c2 lo || Rgtb c2 hi.

Definition triangle_has_bad_angle (surf : SurfTrack) (lo hi : R) (i : nat)
  : bool :=
  let tri := m_tris (m_mesh surf) !!! i in
  let v0 := get_position surf (tri0 tri) in
  let v1 := get_position surf (tri1 tri) in
  let v2 := get_position surf (tri2 tri) in
  any_bad_angles_cos lo hi (triangle_angle_cosines Q v0 v1 v2).

Definition worth_smoothing (surf : SurfTrack) (incident_triangles : list nat)
  : bool :=
  List.existsb (triangle_has_bad_angle surf min_cos max_cos) incident_triangles.

(** The three interior-angle cosines of triangle [i] lie within
    [[lo, hi]]. *)
Definition angle_cosines_within (surf : SurfTrack) (lo hi : R) (i : nat)
  : Prop :=
  let tri := m_tris (m_mesh surf) !!! i in
  let cs := triangle_angle_cosines Q (get_position surf (tri0 tri))
              (get_position surf (tri1 tri)) (get_position surf (tri2 tri)) in
  (lo <= cs.1.1 <= hi) /\ (lo <= cs.1.2 <= hi) /\ (lo <= cs.2 <= hi).

(** Lines 221-229: some incident edge has exactly one incident triangle. *)
Definition has_boundary_edge (mesh : NonDestructiveTriMesh) (v : nat) : bool :=
  List.existsb
    (fun e => Nat.eqb (length (m_edge_to_triangle_map mesh !!! e)) 1)
    (m_vertex_to_edge_map mesh !!! v).

(** ** Feature classification *)

(** Modelled from the spec: [SurfTrack::vertex_feature_edge_count] is not in
    meshsmoother.cpp; the spec has it "count incident edges classified
    feature".  [feature_edges] lists those edges in the order of the
    vertex's edge map. *)
Definition feature_edges (surf : SurfTrack) (v : nat) (normals : list Vec3d)
  : list nat :=
  List.filter (fun e => edge_is_feature Q surf e normals)
              (m_vertex_to_edge_map (m_mesh surf) !!! v).

Definition vertex_feature_edge_count (surf : SurfTrack) (v : nat)
    (normals : list Vec3d) : Z :=
  Z.of_nat (length (feature_edges surf v normals)).

(** ** Shared pieces of the three synthesizers *)

Definition gather_normals (triangles : list nat) (c : Caches) : list Vec3d :=
  map (fun t => triangle_normals c !!! t) triangles.
Definition gather_weights (triangles : list nat) (c : Caches) : list R :=
  map (fun t => triangle_areas c !!! t) triangles.

(** One round of the nine [A(r,c) += N[i][r] * W[i] * N[i][c]]. *)
Definition add_weighted_outer (A : Mat33d) (n : Vec3d) (w : R) : Mat33d :=
  Mat.build (fun r c => Mat.get A r c + Vec.get n r * w * Vec.get n c).

Definition medial_quadric (N : list Vec3d) (W : list R) : Mat33d :=
  fold_left (fun A nw => add_weighted_outer A nw.1 nw.2) (zip N W) Mat.zero.

(** [null_space_projection(row,col) += T[i][row] * T[i][col]]. *)
Definition null_space_projection (T : list Vec3d) : Mat33d :=
  Mat.build (fun row col =>
    fold_left (fun acc t => acc + Vec.get t row * Vec.get t col) T 0).

(** The loop every synthesizer runs: the area-weighted sum [t] of the
    centroid offsets, and [sum_areas]. *)
Definition weighted_centroid_offsets (surf : SurfTrack) (v : nat)
    (triangles : list nat) (c : Caches) : Vec3d * R :=
  fold_left
    (fun acc tri =>
       let area := triangle_areas c !!! tri in
       let sum_areas := acc.2 + area in
       let off := (triangle_centroids c !!! tri - get_position surf v)%vec in
       ((acc.1 + area * off)%vec, sum_areas))
    triangles (Vec.zero, 0).

Definition eig_max_of (ev : Vec3d) : R := Rmax (vx ev) (Rmax (vy ev) (vz ev)).
Definition eig_min_of (ev : Vec3d) : R := Rmin (vx ev) (Rmin (vy ev) (vz ev)).
Definition eig_mid_of (ev : Vec3d) : R :=
  Rmax (Rmin (vx ev) (vy ev)) (Rmin (Rmax (vx ev) (vy ev)) (vz ev)).

(** The solver after [es.compute(A_Eigen, ComputeEigenvectors)] on the
    quadric of a triangle set. *)
Definition quadric_eigen (triangles : list nat) (c : Caches) : EigenSolver :=
  es_compute EB (medial_quadric (gather_normals triangles c)
                                (gather_weights triangles c)).

(** ** get_smoothing_displacement (lines 428-506) *)

Definition null_space_basis (es : EigenSolver) : list Vec3d :=
  let max_eig := eig_max_of (eigenvalues es) in
  flat_map
    (fun i =>
       if Rltb (Vec.get (eigenvalues es) i) (G_EIGENVALUE_RANK_RATIO EB * max_eig)
       then [eigenvectors_col es i] else [])
    [0; 1; 2]%nat.

Definition get_smoothing_displacement (surf : SurfTrack) (v : nat)
    (triangles : list nat) (c : Caches) : Vec3d :=
  let es := quadric_eigen triangles c in
  let T2 := null_space_basis es in
  let P := null_space_projection T2 in
  let '(t, sum_areas) := weighted_centroid_offsets surf v triangles c in
  (Mat.mulv P t / sum_areas)%vec.

(** ** get_smoothing_displacement_naive (lines 727-758) *)

Definition get_smoothing_displacement_naive (surf : SurfTrack) (v : nat)
    (triangles : list nat) (c : Caches) : Vec3d :=
  let '(t, sum_areas) := weighted_centroid_offsets surf v triangles c in
  (t / sum_areas)%vec.

(** ** get_smoothing_displacement_dihedral (lines 510-723) *)

Definition eig_min_vec (es : EigenSolver) : Vec3d :=
  let ev := eigenvalues es in
  if Reqb (eig_min_of ev) (vx ev) then eigenvectors_col es 0
  else if Reqb (eig_min_of ev) (vy ev) then eigenvectors_col es 1
  else eigenvectors_col es 2.

Definition Jiao_b (N : list Vec3d) (W : list R) : Vec3d :=
  fold_left (fun b nw => (b + nw.2 * nw.1)%vec) (zip N W) Vec.zero.

Definition Jiao_d (es : EigenSolver) (b : Vec3d) : Vec3d :=
  let eig_max := eig_max_of (eigenvalues es) in
  fold_left
    (fun d i =>
       let lam := Vec.get (eigenvalues es) i in
       if Rgtb lam (G_EIGENVALUE_RANK_RATIO EB * eig_max)
       then
         let eigenvector := eigenvectors_col es i in
         (d + (Vec.dot b eigenvector * eigenvector) / lam)%vec
       else d)
    [0; 1; 2]%nat Vec.zero.

(** The [normal] of the flat branch. *)
Definition jiao_normal (es : EigenSolver) (N : list Vec3d) (W : list R)
  : Vec3d :=
  Vec.normalized (Jiao_d es (Jiao_b N W)).

Definition flat_displacement (surf : SurfTrack) (v : nat)
    (triangles : list nat) (c : Caches) (es : EigenSolver) : Vec3d :=
  let normal := jiao_normal es (gather_normals triangles c)
                               (gather_weights triangles c) in
  let '(t, sum_areas) := weighted_centroid_offsets surf v triangles c in
  let t := (t / sum_areas)%vec in
  (t - Vec.dot normal t * normal)%vec.

(** Line 656: Jiao's test that the ridge direction is well-conditioned. *)
Definition ridge_well_conditioned (es : EigenSolver) : bool :=
  let ev := eigenvalues es in
  Rleb (eig_min_of ev / eig_mid_of ev) 0.7 &&
  Rgeb (eig_mid_of ev / eig_max_of ev) 0.00765.

Definition edge_vector (surf : SurfTrack) (edge : nat) : Vec3d :=
  let e := m_edges (m_mesh surf) !!! edge in
  (get_position surf e.1 - get_position surf e.2)%vec.

Definition edge_midpoint (surf : SurfTrack) (edge : nat) : Vec3d :=
  let e := m_edges (m_mesh surf) !!! edge in
  (0.5 * (get_position surf e.1 + get_position surf e.2))%vec.

(** Lines 647-690: the basis [T] of the ridge branch. *)
Definition ridge_basis (surf : SurfTrack) (v : nat) (c : Caches)
    (es : EigenSolver) (feature_edge_count : Z) : result (list Vec3d) :=
  if ridge_well_conditioned es then Ok [eig_min_vec es]
  else if (feature_edge_count =? 1)%Z then
    Ok (map (fun edge => Vec.normalized (edge_vector surf edge))
            (feature_edges surf v (triangle_normals c)))
  else if (feature_edge_count =? 2)%Z then
    let edge_midpoints :=
      map (edge_midpoint surf) (feature_edges surf v (triangle_normals c)) in
    Ok [Vec.normalized (edge_midpoints !!! 0%nat - edge_midpoints !!! 1%nat)%vec]
  else Fault AssertionFailed.

Definition ridge_displacement (surf : SurfTrack) (v : nat)
    (triangles : list nat) (c : Caches) (T : list Vec3d) : Vec3d :=
  let P := null_space_projection T in
  let '(t, sum_areas) := weighted_centroid_offsets surf v triangles c in
  (Mat.mulv P t / sum_areas)%vec.

Definition get_smoothing_displacement_dihedral (surf : SurfTrack) (v : nat)
    (triangles : list nat) (c : Caches) : result Vec3d :=
  let feature_edge_count :=
    vertex_feature_edge_count surf v (triangle_normals c) in
  if (feature_edge_count >=? 3)%Z then Ok Vec.zero
  else
    let es := quadric_eigen triangles c in
    if negb (es_success es) then Fault AssertionFailed
    else if (feature_edge_count =? 0)%Z then
      Ok (flat_displacement surf v triangles c es)
    else
      T ← ridge_basis surf v c es feature_edge_count;
      Ok (ridge_displacement surf v triangles c T).

(** ** Folded features (null_space_smooth_vertex, lines 278-361) *)

Definition regularize_folded_feature (surf : SurfTrack) (v : nat) (c : Caches)
  : bool :=
  List.existsb
    (fun edge_id =>
       Rltb (PI - get_largest_dihedral Q surf edge_id (triangle_normals c))
            m_sharp_fold_regularization_threshold)
    (m_vertex_to_edge_map (m_mesh surf) !!! v).

Definition incident_regions (surf : SurfTrack) (v : nat) : list Z :=
  fold_left
    (fun regions tri =>
       let region_pair := get_triangle_label (m_mesh surf) tri in
       set_insert region_pair.2 (set_insert region_pair.1 regions))
    (m_vertex_to_triangle_map (m_mesh surf) !!! v) [].

Definition label_has_region (label : Vec2i) (region : Z) : bool :=
  (label.1 =? region)%Z || (label.2 =? region)%Z.

(** Lines 319-332: [normal_pair], filled from the triangles of [edge] that
    border [region]; the array has two slots. *)
Definition region_normal_pair (surf : SurfTrack) (edge : nat) (region : Z)
  : result (Vec3d * Vec3d) :=
  let normals :=
    map (fun tri => get_triangle_normal_by_region Q surf tri region)
        (List.filter
           (fun tri => label_has_region (get_triangle_label (m_mesh surf) tri) region)
           (m_edge_to_triangle_map (m_mesh surf) !!! edge)) in
  match normals with
  | [] => Ok (uninitialised Q, uninitialised Q)
  | [n0] => Ok (n0, uninitialised Q)
  | [n0; n1] => Ok (n0, n1)
  | _ => Fault OutOfBounds
  end.

(** Lines 305-341: [(sharpest_region, sharp_angle)]. *)
Definition find_sharpest_region (surf : SurfTrack) (v : nat) : result (Z * R) :=
  let regions := incident_regions surf v in
  foldM
    (fun best edge =>
       if Nat.ltb 3 (length (m_edge_to_triangle_map (m_mesh surf) !!! edge))
       then Ok best
       else
         foldM
           (fun (best : Z * R) region =>
              normal_pair ← region_normal_pair surf edge region;
              let dihedral_angle := acos (Vec.dot normal_pair.1 normal_pair.2) in
              if Rgtb dihedral_angle best.2
              then Ok (region, dihedral_angle)
              else Ok best)
           regions best)
    (m_vertex_to_edge_map (m_mesh surf) !!! v)
    ((-1)%Z, 0).

(** ** Policy selection (lines 272-365) *)

Definition select_displacement (surf : SurfTrack) (v : nat) (c : Caches)
  : result Vec3d :=
  let incident_triangles := m_vertex_to_triangle_map (m_mesh surf) !!! v in
  if m_aggressive_mode surf then
    Ok (get_smoothing_displacement_naive surf v incident_triangles c)
  else if regularize_folded_feature surf v c then
    sharpest ← find_sharpest_region surf v;
    let sharpest_region := sharpest.1 in
    let sharp_angle := sharpest.2 in
    if negb (sharpest_region =? -1)%Z &&
       Rltb (PI - sharp_angle) m_sharp_fold_regularization_threshold
    then
      let tri_set :=
        List.filter
          (fun t => label_has_region (get_triangle_label (m_mesh surf) t)
                                     sharpest_region)
          incident_triangles in
      if is_nil tri_set then Fault AssertionFailed
      else Ok (get_smoothing_displacement surf v tri_set c)
    else get_smoothing_displacement_dihedral surf v incident_triangles c
  else get_smoothing_displacement_dihedral surf v incident_triangles c.

(** ** Solidity mask (lines 368-371) *)

Definition solidity_mask (solid : Vec3c) (displacement : Vec3d) : Vec3d :=
  let '(s0, s1, s2) := solid in
  let displacement := if s0 then Vec.set displacement 0 0 else displacement in
  let displacement := if s1 then Vec.set displacement 1 1 else displacement in
  let displacement := if s2 then Vec.set displacement 2 2 else displacement in
  displacement.

(** ** smooth_vertex_pseudo_motion_introduces_collision (lines 767-847) *)

Definition gather_candidates (surf : SurfTrack) (vertex : nat)
  : CollisionCandidateSet :=
  let moving_triangles := m_vertex_to_triangle_map (m_mesh surf) !!! vertex in
  let moving_edges := m_vertex_to_edge_map (m_mesh surf) !!! vertex in
  let cands :=
    fold_left (fun cs t => add_triangle_candidates CP surf t cs)
              moving_triangles [] in
  let cands := add_point_candidates CP surf vertex cands in
  fold_left (fun cs e => add_edge_candidates CP surf e cs) moving_edges cands.

(** The [distance] the proximity query gives a candidate at the staged
    positions. *)
Definition candidate_distance (surf : SurfTrack) (candidate : Vec3st) : R :=
  if Nat.eqb (tri2 candidate) 1 then
    let e0 := m_edges (m_mesh surf) !!! tri0 candidate in
    let e1 := m_edges (m_mesh surf) !!! tri1 candidate in
    check_edge_edge_proximity CP
      (get_newposition surf e0.1) (get_newposition surf e0.2)
      (get_newposition surf e1.1) (get_newposition surf e1.2)
  else
    let tri := get_triangle (m_mesh surf) (tri0 candidate) in
    let v := tri1 candidate in
    check_point_triangle_proximity CP
      (get_newposition surf v) (get_newposition surf (tri0 tri))
      (get_newposition surf (tri1 tri)) (get_newposition surf (tri2 tri)).

(** Whether the proximity loop measures a candidate at all: neither
    element is a degenerate placeholder and the two share no vertex. *)
Definition candidate_is_measured (surf : SurfTrack) (candidate : Vec3st)
  : bool :=
  if Nat.eqb (tri2 candidate) 1 then
    let e0 := m_edges (m_mesh surf) !!! tri0 candidate in
    let e1 := m_edges (m_mesh surf) !!! tri1 candidate in
    if Nat.eqb e0.1 e0.2 then false
    else if Nat.eqb e1.1 e1.2 then false
    else negb (Nat.eqb e0.1 e1.1) && negb (Nat.eqb e0.1 e1.2) &&
         negb (Nat.eqb e0.2 e1.1) && negb (Nat.eqb e0.2 e1.2)
  else
    let tri := get_triangle (m_mesh surf) (tri0 candidate) in
    let v := tri1 candidate in
    if Nat.eqb (tri0 tri) (tri1 tri) then false
    else negb (Nat.eqb (tri0 tri) v) && negb (Nat.eqb (tri1 tri) v) &&
         negb (Nat.eqb (tri2 tri) v).

(** One round of the loop of lines 805-844: [true] when it returns. *)
Definition candidate_too_close (surf : SurfTrack) (candidate : Vec3st) : bool :=
  if candidate_is_measured surf candidate
  then Rltb (candidate_distance surf candidate)
            (m_improve_collision_epsilon surf)
  else false.

Definition smooth_vertex_pseudo_motion_introduces_collision
    (surf : SurfTrack) (vertex : nat) : result bool :=
  if negb (m_collision_safety surf) then Fault AssertionFailed
  else
    let collision_candidates := gather_candidates surf vertex in
    if any_collision CP surf collision_candidates then Ok true
    else Ok (List.existsb (candidate_too_close surf) collision_candidates).

(** ** null_space_smooth_vertex (lines 205-423) *)

Definition triangle_centroid (surf : SurfTrack) (tri : Vec3st) : Vec3d :=
  ((get_position surf (tri0 tri) + get_position surf (tri1 tri)
    + get_position surf (tri2 tri)) / 3)%vec.

(** Lines 406-421, one triangle. *)
Definition refresh_triangle (surf : SurfTrack) (c : Caches) (t : nat) : Caches :=
  let tri := get_triangle (m_mesh surf) t in
  if Nat.eqb (tri0 tri) (tri1 tri) then
    mkCaches (<[t := 0]> (triangle_areas c))
             (<[t := Vec.zero]> (triangle_normals c))
             (<[t := Vec.zero]> (triangle_centroids c))
  else
    mkCaches (<[t := get_triangle_area Q surf t]> (triangle_areas c))
             (<[t := get_triangle_normal Q surf t]> (triangle_normals c))
             (<[t := triangle_centroid surf tri]> (triangle_centroids c)).

Definition refresh_caches (surf : SurfTrack) (incident_triangles : list nat)
    (c : Caches) : Caches :=
  fold_left (refresh_triangle surf) incident_triangles c.

(** Lines 382-383: the tentative new position. *)
Definition stage_move (surf : SurfTrack) (v : nat) (displacement : Vec3d)
  : SurfTrack :=
  set_newposition surf v (get_position surf v + displacement)%vec.

(** Lines 381-421: stage the move, ask the collision guard, commit or
    revert. *)
Definition guard_and_commit (surf : SurfTrack) (v : nat) (c : Caches)
    (displacement : Vec3d) : result Outcome :=
  let incident_triangles := m_vertex_to_triangle_map (m_mesh surf) !!! v in
  let newpos := (get_position surf v + displacement)%vec in
  let surf := stage_move surf v displacement in
  collision ←
    (if m_collision_safety surf
     then smooth_vertex_pseudo_motion_introduces_collision surf v
     else Ok false : result bool);
  if collision : bool then
    Ok (mkOutcome (set_newposition surf v (get_position surf v)) c Vec.zero)
  else
    let surf := set_position surf v newpos in
    Ok (mkOutcome surf (refresh_caches surf incident_triangles c) displacement).

(** Lines 367-377: the mask, then the magnitude cap. *)
Definition exceeds_cap (surf : SurfTrack) (displacement : Vec3d) : bool :=
  Rgtb (Vec.mag displacement) (2 * m_max_edge_length surf).

(** Lines 211-270 as one test: the vertex is not deleted, has incident
    triangles, has no boundary edge, and some incident triangle has a bad
    angle. *)
Definition eligible (surf : SurfTrack) (v : nat) : bool :=
  negb (vertex_is_deleted Q (m_mesh surf) v) &&
  negb (is_nil (m_vertex_to_triangle_map (m_mesh surf) !!! v)) &&
  negb (has_boundary_edge (m_mesh surf) v) &&
  worth_smoothing surf (m_vertex_to_triangle_map (m_mesh surf) !!! v).

Definition null_space_smooth_vertex (v : nat) (c : Caches)
    (displacement : Vec3d) (surf : SurfTrack) : result Outcome :=
  if vertex_is_deleted Q (m_mesh surf) v then Ok (mkOutcome surf c displacement)
  else
    let mesh := m_mesh surf in
    if is_nil (m_vertex_to_triangle_map mesh !!! v)
    then Ok (mkOutcome surf c Vec.zero)
    else if has_boundary_edge mesh v then Ok (mkOutcome surf c Vec.zero)
    else
      let incident_triangles := m_vertex_to_triangle_map mesh !!! v in
      if negb (worth_smoothing surf incident_triangles)
      then Ok (mkOutcome surf c Vec.zero)
      else
        displacement ← select_displacement surf v c;
        let displacement := solidity_mask (vertex_is_solid_3 Q surf v) displacement in
        if exceeds_cap surf displacement then Ok (mkOutcome surf c Vec.zero)
        else guard_and_commit surf v c displacement.

(** ** null_space_smoothing_pass (lines 858-1033) *)

(** Lines 872-887: the caches of one triangle. *)
Definition initial_cache_entry (surf : SurfTrack) (i : nat)
  : R * Vec3d * Vec3d :=
  let tri := get_triangle (m_mesh surf) i in
  if Nat.eqb (tri0 tri) (tri1 tri) then (0, Vec.zero, Vec.zero)
  else (get_triangle_area Q surf i, get_triangle_normal Q surf i,
        triangle_centroid surf tri).

Definition build_caches (surf : SurfTrack) : Caches :=
  fold_left
    (fun c i =>
       let '(area, normal, centroid) := initial_cache_entry surf i in
       mkCaches (triangle_areas c ++ [area])
                (triangle_normals c ++ [normal])
                (triangle_centroids c ++ [centroid]))
    (seq 0 (num_triangles (m_mesh surf)))
    (mkCaches [] [] []).

Record PassState : Type := mkPassState {
  ps_surf : SurfTrack;
  ps_caches : Caches;
  ps_displacements : list Vec3d;
  ps_max_displacement : R
}.

(** The two statements both sweeps run for a vertex they smooth. *)
Definition smooth_and_record (s : PassState) (v : nat) : result PassState :=
  o ← null_space_smooth_vertex v (ps_caches s) (ps_displacements s !!! v)
                               (ps_surf s);
  Ok (mkPassState (out_surf o) (out_caches o)
                  (<[v := out_displacement o]> (ps_displacements s))
                  (Rmax (ps_max_displacement s) (Vec.mag (out_displacement o)))).

(** Lines 896-903. *)
Definition standard_sweep (s : PassState) : result PassState :=
  foldM
    (fun (s : PassState) (i : nat) =>
       if negb (vertex_is_all_solid Q (ps_surf s) i)
       then smooth_and_record s i
       else Ok s)
    (seq 0 (get_num_vertices (ps_surf s))) s.

(** Lines 908-939; the second component is [smoothed_already]. *)
Definition aggressive_sweep (s : PassState) : result (PassState * list bool) :=
  foldM
    (fun (st : PassState * list bool) i =>
       let surf := ps_surf st.1 in
       let tri := m_tris (m_mesh surf) !!! i in
       if triangle_has_bad_angle surf (m_min_angle_cosine surf)
                                 (m_max_angle_cosine surf) i
       then
         foldM
           (fun (st : PassState * list bool) v =>
              if negb (vertex_is_all_solid Q (ps_surf st.1) v) &&
                 negb (st.2 !!! v)
              then
                s' ← smooth_and_record st.1 v;
                Ok (s', <[v := true]> st.2)
              else Ok st)
           [tri0 tri; tri1 tri; tri2 tri] st
       else Ok st)
    (seq 0 (num_triangles (m_mesh (ps_surf s))))
    (s, replicate (get_num_vertices (ps_surf s)) false).

(** The pass returns [true]; the embedding returns with it the state the
    sweep ended in.  The completion callback observes the surface and is
    not modelled. *)
Definition null_space_smoothing_pass (dt : R) (surf : SurfTrack)
  : result (bool * PassState) :=
  let s0 := mkPassState surf (build_caches surf)
                        (replicate (get_num_vertices surf) Vec.zero)
                        (/ 10 ^ 30) in
  s ← (if negb (m_aggressive_mode surf) then standard_sweep s0
       else st ← aggressive_sweep s0; Ok st.1);
  Ok (true, s).

(** A triangle list without the triangles that [tri[0] == tri[1]] marks as
    placeholders. *)
Definition live_triangles (surf : SurfTrack) (triangles : list nat)
  : list nat :=
  List.filter
    (fun t => negb (Nat.eqb (tri0 (get_triangle (m_mesh surf) t))
                            (tri1 (get_triangle (m_mesh surf) t))))
    triangles.

End MeshSmoother.

(** ** compute_max_timestep_quadratic_solve (lines 36-195)

    The largest scale [beta <= 1] of the displacements that inverts no
    triangle normal.  The function prints diagnostics ([verbose], and the
    report of lines 175-191); printing and the unused [min_area] are not
    modelled. *)

Section QuadraticSolve.

(** [triangle_normal] of the geometry utilities, which meshsmoother.cpp
    calls and does not define. *)
Variable triangle_normal : Vec3d -> Vec3d -> Vec3d -> Vec3d.

(** Lines 61-66: [(a, b, c)]. *)
Definition inversion_coefficients (x1 x2 x3 u1 u2 u3 : Vec3d) : R * R * R :=
  let c0 := Vec.cross (x2 - x1) (x3 - x1) in
  let c1 := (Vec.cross (x2 - x1) (u3 - u1)
             - Vec.cross (x3 - x1) (u2 - u1))%vec in
  let c2 := Vec.cross (u2 - u1) (u3 - u1) in
  (Vec.dot c0 c2, Vec.dot c0 c1, Vec.dot c0 c0).

(** Lines 68-153: [beta] from the coefficients; [alignment] is the dot
    product of the normals before and after the full displacement, which
    the assertion of line 129 tests. *)
Definition solve_beta (a b c alignment : R) : result R :=
  if Reqb (Rabs a) 0 then
    if Rgtb (Rabs b) (/ 10 ^ 14) && Rgeb ((- c) / b) 0
    then Ok ((- c) / b)
    else Ok 1
  else
    let descriminant := b * b - 4 * a * c in
    if Rltb descriminant 0 then Ok 1
    else
      let q := if Rgtb b 0
               then -0.5 * (b + sqrt descriminant)
               else -0.5 * (b - sqrt descriminant) in
      let beta_1 := q / a in
      let beta_2 := c / q in
      if Rltb beta_1 0 then
        if Rltb beta_2 0 then
          if Rgtb alignment 0 then Ok 1 else Fault AssertionFailed
        else Ok beta_2
      else if Rltb beta_2 0 then Ok beta_1
      else if Rltb beta_1 beta_2 then Ok beta_1
      else Ok beta_2.

(** Lines 52-153: [beta] of the triangle with vertices [x1 x2 x3] and
    displacements [u1 u2 u3]. *)
Definition triangle_beta (x1 x2 x3 u1 u2 u3 : Vec3d) : result R :=
  let '(a, b, c) := inversion_coefficients x1 x2 x3 u1 u2 u3 in
  solve_beta a b c
    (Vec.dot (triangle_normal x1 x2 x3)
             (triangle_normal (x1 + u1) (x2 + u2) (x3 + u3))%vec).

(** One round of the loop: [max_beta] after triangle [tri]. *)
Definition timestep_step (positions displacements : list Vec3d)
    (max_beta : R) (tri : Vec3st) : result R :=
  if Nat.eqb (tri0 tri) (tri1 tri) then Ok max_beta
  else
    beta ← triangle_beta
              (positions !!! tri0 tri) (positions !!! tri1 tri)
              (positions !!! tri2 tri)
              (displacements !!! tri0 tri) (displacements !!! tri1 tri)
              (displacements !!! tri2 tri);
    Ok (if Rltb beta max_beta then 0.99 * beta else max_beta).

Definition compute_max_timestep_quadratic_solve (tris : list Vec3st)
    (positions displacements : list Vec3d) (verbose : bool) : result R :=
  foldM (timestep_step positions displacements) tris 1.

End QuadraticSolve.

(** The cross product of the triangle's edges after its vertices moved by
    [beta] times their displacements, dotted with the one before the move:
    positive while the normal has not flipped. *)
Definition normal_alignment (x1 x2 x3 u1 u2 u3 : Vec3d) (beta : R) : R :=
  Vec.dot (Vec.cross (x2 - x1) (x3 - x1))
          (Vec.cross ((x2 + beta * u2) - (x1 + beta * u1))
                     ((x3 + beta * u3) - (x1 + beta * u1)))%vec.

(** [triangle_normal] gives a triangle of non-zero area a positive multiple
    of the cross product of its edges. *)
Definition normal_follows_winding
    (triangle_normal : Vec3d -> Vec3d -> Vec3d -> Vec3d) : Prop :=
  forall x1 x2 x3 : Vec3d,
    Vec.cross (x2 - x1) (x3 - x1) <> Vec.zero ->
    exists k, 0 < k /\
      triangle_normal x1 x2 x3 = (k * Vec.cross (x2 - x1) (x3 - x1))%vec.

(** The [c] of triangle [tri]: the squared magnitude of the cross product
    of its edges. *)
Definition triangle_c (positions : list Vec3d) (tri : Vec3st) : R :=
  Vec.mag2 (Vec.cross (positions !!! tri1 tri - positions !!! tri0 tri)
                      (positions !!! tri2 tri - positions !!! tri0 tri)).

(** [normal_alignment] of triangle [tri] of a mesh. *)
Definition triangle_alignment (positions displacements : list Vec3d)
    (tri : Vec3st) (beta : R) : R :=
  normal_alignment
    (positions !!! tri0 tri) (positions !!! tri1 tri) (positions !!! tri2 tri)
    (displacements !!! tri0 tri) (displacements !!! tri1 tri)
    (displacements !!! tri2 tri) beta.

(** ** What a call and a pass keep

    Predicates in which the further properties are stated. *)

Section Invariants.

Context (Q : SurfaceQueries).

(** The outcome of a committed move of [v] by [d]. *)
Definition committed_outcome (surf : SurfTrack) (v : nat) (c : Caches)
    (d : Vec3d) : Outcome :=
  let moved :=
    set_position (stage_move surf v d) v (get_position surf v + d)%vec in
  mkOutcome moved
            (refresh_caches Q moved
               (m_vertex_to_triangle_map (m_mesh surf) !!! v) c)
            d.

(** Vertex [k] is one of the three vertices of [tri]. *)
Definition triangle_has_vertex (tri : Vec3st) (k : nat) : Prop :=
  tri0 tri = k \/ tri1 tri = k \/ tri2 tri = k.

(** The area and the normal the surface reports for a triangle depend on the
    mesh and on the positions of the triangle's three vertices only. *)
Definition triangle_metrics_local : Prop :=
  forall (surf surf' : SurfTrack) (t : nat),
    m_mesh surf = m_mesh surf' ->
    (forall k, triangle_has_vertex (get_triangle (m_mesh surf) t) k ->
               get_position surf k = get_position surf' k) ->
    get_triangle_area Q surf t = get_triangle_area Q surf' t /\
    get_triangle_normal Q surf t = get_triangle_normal Q surf' t.

(** The vertex-to-triangle map of [v] lists every triangle that has [v] as
    a vertex. *)
Definition incident_map_complete (mesh : NonDestructiveTriMesh) (v : nat)
  : Prop :=
  forall t, (t < num_triangles mesh)%nat ->
            triangle_has_vertex (get_triangle mesh t) v ->
            t ∈ m_vertex_to_triangle_map mesh !!! v.

(** The surface apart from its committed and staged positions. *)
Definition same_mesh_and_settings (surf surf' : SurfTrack) : Prop :=
  m_mesh surf' = m_mesh surf /\
  m_aggressive_mode surf' = m_aggressive_mode surf /\
  m_collision_safety surf' = m_collision_safety surf /\
  m_max_edge_length surf' = m_max_edge_length surf /\
  m_improve_collision_epsilon surf' = m_improve_collision_epsilon surf /\
  m_min_angle_cosine surf' = m_min_angle_cosine surf /\
  m_max_angle_cosine surf' = m_max_angle_cosine surf /\
  length (pm_positions surf') = length (pm_positions surf) /\
  length (pm_newpositions surf') = length (pm_newpositions surf).

End Invariants.

(** The area-weighted mean of the cached centroids of a triangle set. *)
Definition area_weighted_centroid (c : Caches) (triangles : list nat)
  : Vec3d :=
  Vec.div
    (fold_left
       (fun acc t =>
          (acc + triangle_areas c !!! t * triangle_centroids c !!! t)%vec)
       triangles Vec.zero)
    (fold_left (fun s t => s + triangle_areas c !!! t) triangles 0).

(** * The claims that fail as stated

    Each definition below is a sentence of the specification read to the
    letter, over given collaborators; the properties section refutes it on a
    fixture and proves what holds in its place. *)

Section AsStated.

Context (Q : SurfaceQueries) (CP : CollisionPipeline) (EB : EigenBackend).
Variable threshold : R.

(** What "the move of [v] is rejected" means for an outcome. *)
Definition move_rejected (surf : SurfTrack) (v : nat) (c : Caches)
    (o : Outcome) : Prop :=
  out_displacement o = Vec.zero /\
  pm_newpositions (out_surf o)
    = <[v := get_position surf v]> (pm_newpositions surf) /\
  pm_positions (out_surf o) = pm_positions surf /\
  m_mesh (out_surf o) = m_mesh surf /\
  out_caches o = c.

(** The displacement with which [v] arrives at the collision guard. *)
Definition reaches_guard_with (surf : SurfTrack) (v : nat) (c : Caches)
    (d : Vec3d) : Prop :=
  eligible Q surf v = true /\
  (exists d1, select_displacement Q EB threshold surf v c = Ok d1 /\
              d = solidity_mask (vertex_is_solid_3 Q surf v) d1) /\
  exceeds_cap surf d = false.

(** "... or any candidate pair's static proximity distance is below the
    configured collision epsilon, then the move is rejected". *)
Definition any_close_candidate_rejects : Prop :=
  forall (surf : SurfTrack) (v : nat) (c : Caches) (d0 d : Vec3d),
    reaches_guard_with surf v c d ->
    m_collision_safety surf = true ->
    (any_collision CP (stage_move surf v d)
                   (gather_candidates CP (stage_move surf v d) v) = true \/
     exists cand,
       cand ∈ gather_candidates CP (stage_move surf v d) v /\
       candidate_distance CP (stage_move surf v d) cand
         < m_improve_collision_epsilon surf) ->
    exists o, null_space_smooth_vertex Q CP EB threshold v c d0 surf = Ok o /\
              move_rejected surf v c o.

(** "For every vertex all of whose incident triangles have all three
    interior-angle cosines within [cos 160, cos 20], null_space_smooth_vertex
    exits early with exactly zero displacement and no state change". *)
Definition good_angles_give_zero_displacement : Prop :=
  forall (surf : SurfTrack) (v : nat) (c : Caches) (d0 : Vec3d),
    (forall t, t ∈ m_vertex_to_triangle_map (m_mesh surf) !!! v ->
               angle_cosines_within Q surf min_cos max_cos t) ->
    exists o, null_space_smooth_vertex Q CP EB threshold v c d0 surf = Ok o /\
              out_displacement o = Vec.zero /\
              out_surf o = surf /\ out_caches o = c.

(** "any two of its three vertex indices equal". *)
Definition has_repeated_index (tri : Vec3st) : Prop :=
  tri0 tri = tri1 tri \/ tri1 tri = tri2 tri \/ tri0 tri = tri2 tri.

(** "For every triangle that has any repeated vertex index, the cached
    area, normal and centroid computed for it [in the initial cache build]
    are exactly zero". *)
Definition repeated_index_is_zeroed : Prop :=
  forall (surf : SurfTrack) (i : nat),
    (i < num_triangles (m_mesh surf))%nat ->
    has_repeated_index (get_triangle (m_mesh surf) i) ->
    triangle_areas (build_caches Q surf) !! i = Some 0 /\
    triangle_normals (build_caches Q surf) !! i = Some Vec.zero /\
    triangle_centroids (build_caches Q surf) !! i = Some Vec.zero.

(** "for every vertex that reaches a synthesizer through
    null_space_smooth_vertex's eligibility checks, this sum of cached areas
    is strictly positive". *)
Definition eligible_area_sum_is_positive : Prop :=
  forall (surf : SurfTrack) (v : nat) (c : Caches),
    eligible Q surf v = true ->
    0 < (weighted_centroid_offsets surf v
           (m_vertex_to_triangle_map (m_mesh surf) !!! v) c).2.

End AsStated.

(** * Test fixtures

    Concrete collaborators and surfaces on which the statements below are
    exercised. *)

Module Fixture.

(** Modelled from the spec: trianglequality.h is not in meshsmoother.cpp;
    the spec has [triangle_angle_cosines] give the "cosine of each interior
    angle, via normalized edge-vector dot products". *)
Definition ref_angle_cosines (a b c : Vec3d) : R * R * R :=
  (Vec.dot (Vec.normalized (b - a)) (Vec.normalized (c - a)),
   Vec.dot (Vec.normalized (c - b)) (Vec.normalized (a - b)),
   Vec.dot (Vec.normalized (a - c)) (Vec.normalized (b - c))).

(** Modelled from the spec: the surface's [get_triangle_area] and
    [get_triangle_normal] are not in meshsmoother.cpp; the spec has them
    follow the "standard cross-product-based formulas", the normal of unit
    length and oriented by the vertex winding. *)
Definition ref_cross (surf : SurfTrack) (t : nat) : Vec3d :=
  let tri := get_triangle (m_mesh surf) t in
  Vec.cross (get_position surf (tri1 tri) - get_position surf (tri0 tri))
            (get_position surf (tri2 tri) - get_position surf (tri0 tri)).
Definition ref_area (surf : SurfTrack) (t : nat) : R :=
  0.5 * Vec.mag (ref_cross surf t).
Definition ref_normal (surf : SurfTrack) (t : nat) : Vec3d :=
  Vec.normalized (ref_cross surf t).

(** Surface queries: the quality metrics above, and scripted answers for
    the feature classifier ([feature e]: edge [e] is a feature edge),
    the solidity flags and the largest dihedral angle.  A vertex counts as
    deleted when no edge is incident to it. *)
Definition queries (feature : nat -> bool) (solid : Vec3c) (dihedral : R)
  : SurfaceQueries :=
  mkQueries
    (fun mesh v => is_nil (m_vertex_to_edge_map mesh !!! v))
    ref_angle_cosines
    ref_area
    ref_normal
    (fun surf t _ => ref_normal surf t)
    (fun _ _ _ => dihedral)
    (fun _ e _ => feature e)
    (fun _ _ => solid)
    (fun _ _ => solid.1.1 && solid.1.2 && solid.2)
    Vec.zero.

(** A collision pipeline whose broad phase reports the candidates [cands]
    for every edge it is asked about and none for triangles and points,
    whose exact test answers [ccd], and whose proximity queries measure
    [dist]. *)
Definition pipeline (cands : CollisionCandidateSet) (ccd : bool) (dist : R)
  : CollisionPipeline :=
  mkPipeline
    (fun _ _ cs => cs)
    (fun _ _ cs => cs)
    (fun _ _ cs => cs ++ cands)
    (fun _ _ => ccd)
    (fun _ _ _ _ => dist)
    (fun _ _ _ _ => dist).

(** An eigen-solver that is right on diagonal matrices with ascending
    diagonal: the eigenvalues are the diagonal, the eigenvectors the
    coordinate axes. *)
Definition axis (i : nat) : Vec3d :=
  match i with
  | O => mkVec3d 1 0 0
  | S O => mkVec3d 0 1 0
  | _ => mkVec3d 0 0 1
  end.
Definition diagonal_solver (A : Mat33d) : EigenSolver :=
  mkEigen true
          (mkVec3d (Mat.get A 0 0) (Mat.get A 1 1) (Mat.get A 2 2))
          axis.
Definition backend : EigenBackend := mkBackend diagonal_solver (1 / 100).

(** A closed tetrahedron: four triangles, six edges, every edge shared by
    two triangles. *)
Definition tetra_mesh : NonDestructiveTriMesh :=
  mkMesh
    [(0, 2, 1); (0, 1, 3); (1, 2, 3); (0, 3, 2)]%nat
    [(0, 1); (0, 2); (0, 3); (1, 2); (1, 3); (2, 3)]%nat
    [(0, 1); (0, 1); (0, 1); (0, 1)]%Z
    [[0; 1; 3]; [0; 1; 2]; [0; 2; 3]; [1; 2; 3]]%nat
    [[0; 1; 2]; [0; 3; 4]; [1; 3; 5]; [2; 4; 5]]%nat
    [[0; 1]; [0; 3]; [1; 3]; [0; 2]; [1; 2]; [2; 3]]%nat.

(** The tetrahedron with vertices 0, 1, 2 on the x axis, so that triangle 0
    is a sliver of zero area, and vertex 3 at [p3]. *)
Definition sliver_positions (p3 : Vec3d) : list Vec3d :=
  [mkVec3d 0 0 0; mkVec3d 1 0 0; mkVec3d 2 0 0; p3].

Definition sliver_surf (p3 : Vec3d) (aggressive safety : bool) (max_edge : R)
  : SurfTrack :=
  mkSurf tetra_mesh (sliver_positions p3) (sliver_positions p3)
         aggressive safety max_edge (1 / 1000) (-1) 1.

(** Vertex 3 off the axis, in the plane z = 0: triangles 1, 2 and 3 have
    areas 3/2, 3/2 and 3 and normals along z. *)
Definition flat_p3 : Vec3d := mkVec3d 0 3 0.

(** The caches of [sliver_surf flat_p3]. *)
Definition flat_caches : Caches :=
  mkCaches
    [0; 3 / 2; 3 / 2; 3]
    [mkVec3d 0 0 0; mkVec3d 0 0 1; mkVec3d 0 0 1; mkVec3d 0 0 (-1)]
    [mkVec3d 1 0 0; mkVec3d (1 / 3) 1 0; mkVec3d 1 1 0; mkVec3d (2 / 3) 1 0].

(** Vertex 3 on the axis as well: all four triangles have zero area. *)
Definition collinear_p3 : Vec3d := mkVec3d 3 0 0.

(** The regular tetrahedron: every face is equilateral. *)
Definition regular_positions : list Vec3d :=
  [mkVec3d 1 1 1; mkVec3d 1 (-1) (-1); mkVec3d (-1) 1 (-1); mkVec3d (-1) (-1) 1].

Definition regular_surf (aggressive : bool) : SurfTrack :=
  mkSurf tetra_mesh regular_positions regular_positions
         aggressive true 3 (1 / 1000) (-1) 1.

(** One triangle on its own: its three edges are boundary edges. *)
Definition single_triangle_mesh : NonDestructiveTriMesh :=
  mkMesh [(0, 1, 2)]%nat [(0, 1); (1, 2); (0, 2)]%nat [(0, 1)]%Z
         [[0]; [0]; [0]]%nat [[0; 2]; [0; 1]; [1; 2]]%nat [[0]; [0]; [0]]%nat.

Definition single_triangle_surf : SurfTrack :=
  mkSurf single_triangle_mesh
         [mkVec3d 0 0 0; mkVec3d 1 0 0; mkVec3d 0 1 0]
         [mkVec3d 0 0 0; mkVec3d 1 0 0; mkVec3d 0 1 0]
         false true 1 (1 / 1000) (-1) 1.

Definition flat_surf (aggressive safety : bool) (max_edge : R) : SurfTrack :=
  sliver_surf flat_p3 aggressive safety max_edge.

Definition collinear_surf : SurfTrack := sliver_surf collinear_p3 true true 4.

(** The scripted collaborators of the scenarios below. *)
Definition plain_queries : SurfaceQueries :=
  queries (fun _ => false) (false, false, false) 0.
(** every edge a feature edge, axis 1 solid *)
Definition corner_queries : SurfaceQueries :=
  queries (fun _ => true) (false, true, false) 0.
(** every edge a feature edge, no axis solid *)
Definition free_corner_queries : SurfaceQueries :=
  queries (fun _ => true) (false, false, false) 0.
(** no feature edge, axis 2 solid *)
Definition solid_z_queries : SurfaceQueries :=
  queries (fun _ => false) (false, false, true) 0.
(** edge 0 the one feature edge *)
Definition ridge_queries : SurfaceQueries :=
  queries (Nat.eqb 0) (false, false, false) 0.

Definition quiet_pipeline : CollisionPipeline := pipeline [] false 1.
(** edges 0 = (0,1) and 1 = (0,2) share vertex 0 *)
Definition adjacent_pipeline : CollisionPipeline :=
  pipeline [(0, 1, 1)%nat] false 0.
(** edges 0 = (0,1) and 5 = (2,3) share no vertex *)
Definition disjoint_pipeline : CollisionPipeline :=
  pipeline [(0, 5, 1)%nat] false 0.

Definition fold_threshold : R := 1 / 10.

(** The regular tetrahedron and a fifth vertex that no edge or triangle
    touches. *)
Definition isolated_mesh : NonDestructiveTriMesh :=
  mkMesh (m_tris tetra_mesh) (m_edges tetra_mesh) (m_triangle_labels tetra_mesh)
         (m_vertex_to_triangle_map tetra_mesh ++ [[]])
         (m_vertex_to_edge_map tetra_mesh ++ [[]])
         (m_edge_to_triangle_map tetra_mesh).

Definition isolated_surf : SurfTrack :=
  mkSurf isolated_mesh
         (regular_positions ++ [mkVec3d 5 5 5])
         (regular_positions ++ [mkVec3d 5 5 5])
         false true 3 (1 / 1000) (-1) 1.

(** The tetrahedron with a deleted triangle left in place as slot 4. *)
Definition placeholder_mesh : NonDestructiveTriMesh :=
  mkMesh
    [(0, 2, 1); (0, 1, 3); (1, 2, 3); (0, 3, 2); (0, 0, 0)]%nat
    (m_edges tetra_mesh)
    [(0, 1); (0, 1); (0, 1); (0, 1); (0, 0)]%Z
    (m_vertex_to_triangle_map tetra_mesh)
    (m_vertex_to_edge_map tetra_mesh)
    (m_edge_to_triangle_map tetra_mesh).

Definition placeholder_surf : SurfTrack :=
  mkSurf placeholder_mesh regular_positions regular_positions
         false true 3 (1 / 1000) (-1) 1.

(** A triangle whose second and third vertex indices coincide. *)
Definition pinched_mesh : NonDestructiveTriMesh :=
  mkMesh [(0, 1, 1)]%nat [(0, 1)]%nat [(0, 1)]%Z
         [[0]; [0]]%nat [[0]; [0]]%nat [[0]]%nat.

Definition pinched_surf : SurfTrack :=
  mkSurf pinched_mesh
         [mkVec3d 0 0 0; mkVec3d 3 0 0] [mkVec3d 0 0 0; mkVec3d 3 0 0]
         false true 3 (1 / 1000) (-1) 1.

(** Surface queries of a surface pinned everywhere but at vertex 0: as
    [plain_queries], with every other vertex solid along the three axes. *)
Definition anchored_queries : SurfaceQueries :=
  mkQueries
    (fun mesh v => is_nil (m_vertex_to_edge_map mesh !!! v))
    ref_angle_cosines
    ref_area
    ref_normal
    (fun surf t _ => ref_normal surf t)
    (fun _ _ _ => 0)
    (fun _ _ _ => false)
    (fun _ v => if Nat.eqb v 0 then (false, false, false)
                else (true, true, true))
    (fun _ v => negb (Nat.eqb v 0))
    Vec.zero.

(** The flat fixture in aggressive mode, with the angle thresholds at 120
    and 60 degrees. *)
Definition strict_surf : SurfTrack :=
  mkSurf tetra_mesh (sliver_positions flat_p3) (sliver_positions flat_p3)
         true true 4 (1 / 1000) (- (1 / 2)) (1 / 2).

(** edges 0 = (0,1) and 5 = (2,3), measured at distance 1 *)
Definition far_pipeline : CollisionPipeline :=
  pipeline [(0, 5, 1)%nat] false 1.

(** The outcome of moving vertex 0 of the flat fixture by (5/9, 1, 0). *)
Definition flat_committed : Outcome :=
  committed_outcome plain_queries (flat_surf true true 4) 0 flat_caches
                    (mkVec3d (5 / 9) 1 0).

Definition anchored_committed : Outcome :=
  committed_outcome anchored_queries strict_surf 0 flat_caches
                    (mkVec3d (5 / 9) 1 0).

(** The state of a pass over [strict_surf] after that move. *)
Definition anchored_final : PassState :=
  mkPassState (out_surf anchored_committed) (out_caches anchored_committed)
              (<[0%nat := out_displacement anchored_committed]>
                 (replicate 4 Vec.zero))
              (Rmax (/ 10 ^ 30) (Vec.mag (out_displacement anchored_committed))).

(** An eigen-solver that reports failure on every matrix. *)
Definition failing_backend : EigenBackend :=
  mkBackend (fun _ => mkEigen false Vec.zero axis) (1 / 100).

(** A [triangle_normal] for the scenarios: the normalised cross product of
    the edges. *)
Definition unit_normal (x1 x2 x3 : Vec3d) : Vec3d :=
  Vec.normalized (Vec.cross (x2 - x1) (x3 - x1)).

(** A triangle in the plane z = 0 whose vertex 2 is displaced across the
    opposite edge, and a placeholder. *)
Definition crossing_tris : list Vec3st := [(0, 1, 2); (3, 3, 3)]%nat.
Definition crossing_positions : list Vec3d :=
  [mkVec3d 0 0 0; mkVec3d 1 0 0; mkVec3d 0 1 0; mkVec3d 5 5 5].
Definition crossing_displacements : list Vec3d :=
  [Vec.zero; Vec.zero; mkVec3d 0 (-2) 0; Vec.zero].

End Fixture.

(** * Properties *)

(** ** Comparisons *)

Lemma Rltb_true_iff (x y : R) : Rltb x y = true <-> x < y.
Proof. unfold Rltb. destruct (Rlt_dec x y); split; intros; auto; discriminate. Qed.

Lemma Rltb_false_iff (x y : R) : Rltb x y = false <-> y <= x.
Proof.
  unfold Rltb. destruct (Rlt_dec x y); split; intros; auto; try discriminate; lra.
Qed.

Lemma Rleb_true_iff (x y : R) : Rleb x y = true <-> x <= y.
Proof. unfold Rleb. destruct (Rle_dec x y); split; intros; auto; discriminate. Qed.

Lemma Rleb_false_iff (x y : R) : Rleb x y = false <-> y < x.
Proof.
  unfold Rleb. destruct (Rle_dec x y); split; intros; auto; try discriminate; lra.
Qed.

Lemma Reqb_true_iff (x y : R) : Reqb x y = true <-> x = y.
Proof. unfold Reqb. destruct (Req_dec_T x y); split; intros; auto; discriminate. Qed.

Lemma Reqb_false_iff (x y : R) : Reqb x y = false <-> x <> y.
Proof.
  unfold Reqb. destruct (Req_dec_T x y); split; intros; auto; try discriminate.
  contradiction.
Qed.

Lemma existsb_elem_of {A : Type} (f : A -> bool) (l : list A) :
  List.existsb f l = true <-> exists x, x ∈ l /\ f x = true.
Proof.
  rewrite List.existsb_exists. split; intros [x [Hin Hf]]; exists x; split; auto;
    apply list_elem_of_In; auto.
Qed.

Lemma existsb_false_elem_of {A : Type} (f : A -> bool) (l : list A) :
  List.existsb f l = false <-> forall x, x ∈ l -> f x = false.
Proof.
  split.
  - intros H x Hx. destruct (f x) eqn:E; auto.
    assert (List.existsb f l = true) by (apply existsb_elem_of; eauto).
    congruence.
  - intros H. destruct (List.existsb f l) eqn:E; auto.
    apply existsb_elem_of in E as [x [Hx Hf]]. rewrite (H x Hx) in Hf. discriminate.
Qed.

(** ** Vector algebra *)

Lemma vec_eq (a b : Vec3d) :
  vx a = vx b -> vy a = vy b -> vz a = vz b -> a = b.
Proof. destruct a, b; simpl; intros; subst; reflexivity. Qed.

Lemma vec_add_zero_r (a : Vec3d) : (a + Vec.zero)%vec = a.
Proof. apply vec_eq; simpl; lra. Qed.

Lemma vec_scale_zero_l (a : Vec3d) : (0 * a)%vec = Vec.zero.
Proof. apply vec_eq; simpl; lra. Qed.

Lemma mag2_nonneg (a : Vec3d) : 0 <= Vec.mag2 a.
Proof. unfold Vec.mag2, Vec.dot. nra. Qed.

Lemma mag2_zero_iff (a : Vec3d) : Vec.mag2 a = 0 <-> a = Vec.zero.
Proof.
  split.
  - unfold Vec.mag2, Vec.dot. intros H. apply vec_eq; simpl; nra.
  - intros ->. unfold Vec.mag2, Vec.dot; simpl. lra.
Qed.

Lemma mag_zero : Vec.mag Vec.zero = 0.
Proof.
  unfold Vec.mag. replace (Vec.mag2 Vec.zero) with 0.
  - apply sqrt_0.
  - unfold Vec.mag2, Vec.dot; simpl; lra.
Qed.

Lemma mag_pos (a : Vec3d) : a <> Vec.zero -> 0 < Vec.mag a.
Proof.
  intros Ha. unfold Vec.mag. apply sqrt_lt_R0.
  destruct (mag2_nonneg a) as [H | H]; auto.
  symmetry in H. apply mag2_zero_iff in H. contradiction.
Qed.

Lemma mag_sqr (a : Vec3d) : Vec.mag a * Vec.mag a = Vec.mag2 a.
Proof. unfold Vec.mag. apply sqrt_sqrt, mag2_nonneg. Qed.

(** A vector that is not zero normalises to a unit vector. *)
Lemma normalized_unit (a : Vec3d) :
  a <> Vec.zero -> Vec.dot (Vec.normalized a) (Vec.normalized a) = 1.
Proof.
  intros Ha. pose proof (mag_pos a Ha) as Hm. pose proof (mag_sqr a) as Hs.
  unfold Vec.normalized, Vec.div, Vec.dot; simpl.
  unfold Vec.mag2, Vec.dot in Hs.
  set (m := Vec.mag a) in *.
  replace (vx a / m * (vx a / m) + vy a / m * (vy a / m) + vz a / m * (vz a / m))
    with ((vx a * vx a + vy a * vy a + vz a * vz a) / (m * m)) by (field; lra).
  rewrite <- Hs. field. lra.
Qed.

Section Properties.

Context (Q : SurfaceQueries) (CP : CollisionPipeline) (EB : EigenBackend).
Variable threshold : R.

(** ** The stages of null_space_smooth_vertex *)

Lemma eligible_iff (surf : SurfTrack) (v : nat) :
  eligible Q surf v = true <->
  vertex_is_deleted Q (m_mesh surf) v = false /\
  is_nil (m_vertex_to_triangle_map (m_mesh surf) !!! v) = false /\
  has_boundary_edge (m_mesh surf) v = false /\
  worth_smoothing Q surf (m_vertex_to_triangle_map (m_mesh surf) !!! v) = true.
Proof.
  unfold eligible. rewrite !andb_true_iff, !negb_true_iff. tauto.
Qed.

(** Past the four tests the function is: select, mask, cap, guard. *)
Lemma smooth_vertex_eligible (surf : SurfTrack) (v : nat) (c : Caches)
    (d0 : Vec3d) :
  eligible Q surf v = true ->
  null_space_smooth_vertex Q CP EB threshold v c d0 surf =
    (displacement ← select_displacement Q EB threshold surf v c;
     let displacement :=
       solidity_mask (vertex_is_solid_3 Q surf v) displacement in
     if exceeds_cap surf displacement then Ok (mkOutcome surf c Vec.zero)
     else guard_and_commit Q CP surf v c displacement).
Proof.
  intros H. apply eligible_iff in H as (Hd & Hn & Hb & Hw).
  unfold null_space_smooth_vertex. rewrite Hd, Hn, Hb, Hw. reflexivity.
Qed.

Lemma smooth_vertex_ineligible (surf : SurfTrack) (v : nat) (c : Caches)
    (d0 : Vec3d) :
  eligible Q surf v = false ->
  null_space_smooth_vertex Q CP EB threshold v c d0 surf =
    Ok (mkOutcome surf c
          (if vertex_is_deleted Q (m_mesh surf) v then d0 else Vec.zero)).
Proof.
  unfold eligible, null_space_smooth_vertex. intros H.
  destruct (vertex_is_deleted Q (m_mesh surf) v); [reflexivity |].
  destruct (is_nil (m_vertex_to_triangle_map (m_mesh surf) !!! v));
    [reflexivity |].
  destruct (has_boundary_edge (m_mesh surf) v); [reflexivity |].
  destruct (worth_smoothing Q surf
              (m_vertex_to_triangle_map (m_mesh surf) !!! v));
    [discriminate | reflexivity].
Qed.

(** C6.  A vertex that is not deleted, has incident triangles and has an
    incident edge with exactly one incident triangle gets displacement zero,
    and the surface (so its position) and the caches stay as they were. *)
Theorem boundary_vertex_is_frozen (surf : SurfTrack) (v : nat) (c : Caches)
    (d0 : Vec3d) :
  vertex_is_deleted Q (m_mesh surf) v = false ->
  m_vertex_to_triangle_map (m_mesh surf) !!! v <> [] ->
  (exists e, e ∈ m_vertex_to_edge_map (m_mesh surf) !!! v /\
             length (m_edge_to_triangle_map (m_mesh surf) !!! e) = 1%nat) ->
  exists o, null_space_smooth_vertex Q CP EB threshold v c d0 surf = Ok o /\
            out_displacement o = Vec.zero /\
            get_position (out_surf o) v = get_position surf v /\
            out_surf o = surf /\ out_caches o = c.
Proof.
  intros Hd Hne (e & He & Hlen).
  assert (Hb : has_boundary_edge (m_mesh surf) v = true).
  { unfold has_boundary_edge. apply existsb_elem_of. exists e. split; auto.
    rewrite Hlen. reflexivity. }
  exists (mkOutcome surf c Vec.zero). split; [| simpl; auto].
  rewrite smooth_vertex_ineligible.
  - rewrite Hd. reflexivity.
  - unfold eligible. rewrite Hb. rewrite andb_false_r. reflexivity.
Qed.

(** C5.  When the masked displacement of an eligible vertex is longer than
    twice the maximum edge length, the reported displacement is the zero
    vector itself, and the surface and the caches stay as they were. *)
Theorem huge_displacement_is_discarded (surf : SurfTrack) (v : nat)
    (c : Caches) (d0 d : Vec3d) :
  eligible Q surf v = true ->
  select_displacement Q EB threshold surf v c = Ok d ->
  Vec.mag (solidity_mask (vertex_is_solid_3 Q surf v) d)
    > 2 * m_max_edge_length surf ->
  exists o, null_space_smooth_vertex Q CP EB threshold v c d0 surf = Ok o /\
            out_displacement o = Vec.zero /\
            get_position (out_surf o) v = get_position surf v /\
            out_surf o = surf /\ out_caches o = c.
Proof.
  intros He Hsel Hmag.
  exists (mkOutcome surf c Vec.zero). split; [| simpl; auto].
  rewrite smooth_vertex_eligible by assumption. rewrite Hsel. simpl.
  unfold exceeds_cap, Rgtb.
  apply Rltb_true_iff in Hmag. rewrite Hmag. reflexivity.
Qed.

(** ** Early exit on good angles *)

Lemma any_bad_angles_cos_false (lo hi : R) (cs : R * R * R) :
  any_bad_angles_cos lo hi cs = false <->
  (lo <= cs.1.1 <= hi) /\ (lo <= cs.1.2 <= hi) /\ (lo <= cs.2 <= hi).
Proof.
  destruct cs as [[c0 c1] c2]. unfold any_bad_angles_cos, Rgtb. simpl.
  rewrite !orb_false_iff, !Rltb_false_iff. tauto.
Qed.

Lemma triangle_has_bad_angle_false (surf : SurfTrack) (lo hi : R) (i : nat) :
  triangle_has_bad_angle Q surf lo hi i = false <->
  angle_cosines_within Q surf lo hi i.
Proof. unfold triangle_has_bad_angle. apply any_bad_angles_cos_false. Qed.

Lemma good_angles_not_eligible (surf : SurfTrack) (v : nat) :
  (forall t, t ∈ m_vertex_to_triangle_map (m_mesh surf) !!! v ->
             angle_cosines_within Q surf min_cos max_cos t) ->
  eligible Q surf v = false.
Proof.
  intros H. unfold eligible.
  assert (Hw : worth_smoothing Q surf
                 (m_vertex_to_triangle_map (m_mesh surf) !!! v) = false).
  { apply existsb_false_elem_of. intros t Ht.
    apply triangle_has_bad_angle_false. auto. }
  rewrite Hw. apply andb_false_r.
Qed.

Lemma foldM_invariant {A S : Type} (P : S -> Prop) (f : S -> A -> result S)
    (l : list A) (s : S) :
  (forall s a, P s -> exists s', f s a = Ok s' /\ P s') ->
  P s -> exists s', foldM f l s = Ok s' /\ P s'.
Proof.
  intros Hf. revert s. induction l as [| a l IH]; intros s Hs.
  - exists s. split; [reflexivity | assumption].
  - destruct (Hf s a Hs) as (s1 & E1 & H1). simpl. rewrite E1. simpl.
    apply IH. assumption.
Qed.

Lemma lookup_total_replicate_zero (n i : nat) :
  replicate n Vec.zero !!! i = Vec.zero.
Proof.
  revert i. induction n as [| n IH]; intros [| i]; simpl; try reflexivity.
  apply IH.
Qed.

Lemma insert_replicate_zero (n i : nat) :
  <[i := Vec.zero]> (replicate n Vec.zero) = replicate n Vec.zero.
Proof.
  revert i. induction n as [| n IH]; intros [| i]; simpl; try reflexivity.
  f_equal. apply IH.
Qed.

(** A pass state in which nothing has moved yet. *)
Lemma smooth_and_record_noop (surf : SurfTrack) (c : Caches) (m : R) (v : nat) :
  0 <= m ->
  eligible Q surf v = false ->
  let s := mkPassState surf c (replicate (get_num_vertices surf) Vec.zero) m in
  smooth_and_record Q CP EB threshold s v = Ok s.
Proof.
  intros Hm He s. unfold smooth_and_record. simpl.
  rewrite smooth_vertex_ineligible by assumption.
  rewrite lookup_total_replicate_zero.
  assert (Hz : (if vertex_is_deleted Q (m_mesh surf) v
                then Vec.zero else Vec.zero) = Vec.zero)
    by (destruct (vertex_is_deleted Q (m_mesh surf) v); reflexivity).
  rewrite Hz. simpl. rewrite insert_replicate_zero, mag_zero.
  unfold s. rewrite Rmax_left by assumption. reflexivity.
Qed.

Lemma standard_sweep_noop (s0 : PassState) :
  (forall v, smooth_and_record Q CP EB threshold s0 v = Ok s0) ->
  standard_sweep Q CP EB threshold s0 = Ok s0.
Proof.
  intros Hstep. unfold standard_sweep.
  match goal with
  | |- foldM ?f ?l ?s = _ =>
      destruct (foldM_invariant (fun s : PassState => s = s0) f l s)
        as (s' & Es & ->); [| reflexivity | exact Es]
  end.
  intros s i ->.
  destruct (negb (vertex_is_all_solid Q (ps_surf s0) i)).
  - exists s0. split; [apply Hstep | reflexivity].
  - exists s0. split; reflexivity.
Qed.

Lemma aggressive_sweep_noop (s0 : PassState) :
  (forall v, smooth_and_record Q CP EB threshold s0 v = Ok s0) ->
  exists flags, aggressive_sweep Q CP EB threshold s0 = Ok (s0, flags).
Proof.
  intros Hstep. unfold aggressive_sweep.
  match goal with
  | |- exists flags, foldM ?f ?l ?s = _ =>
      destruct (foldM_invariant
                  (fun st : PassState * list bool => st.1 = s0) f l s)
        as ([s' flags] & Est & Hst); [| reflexivity | ]
  end.
  - intros st i Hst. cbv zeta.
    destruct (triangle_has_bad_angle Q (ps_surf st.1)
                (m_min_angle_cosine (ps_surf st.1))
                (m_max_angle_cosine (ps_surf st.1)) i);
      [| exists st; split; [reflexivity | assumption]].
    apply foldM_invariant; [| assumption].
    intros [s1 flags] v Hs1. simpl in Hs1. subst s1. simpl.
    destruct (negb (vertex_is_all_solid Q (ps_surf s0) v) && negb (flags !!! v)).
    + rewrite Hstep. simpl. eexists. split; reflexivity.
    + eexists. split; reflexivity.
  - simpl in Hst. subst s'. exists flags. exact Est.
Qed.

(** C7 (amended).  A vertex all of whose incident triangles have their
    three angle cosines within [[cos 160, cos 20]] leaves the function with
    the surface and the caches as they were, and with displacement zero when
    the vertex is not deleted or the displacement slot held zero on entry (a
    deleted vertex leaves the slot as it was); and a pass over a surface all
    of whose vertices are such ends with the surface it started from, every
    position the one it was, and every displacement zero. *)
Theorem good_angles_early_exit :
  (forall (surf : SurfTrack) (v : nat) (c : Caches) (d0 : Vec3d),
      (forall t, t ∈ m_vertex_to_triangle_map (m_mesh surf) !!! v ->
                 angle_cosines_within Q surf min_cos max_cos t) ->
      exists o, null_space_smooth_vertex Q CP EB threshold v c d0 surf = Ok o /\
                out_surf o = surf /\ out_caches o = c /\
                (vertex_is_deleted Q (m_mesh surf) v = false \/ d0 = Vec.zero ->
                 out_displacement o = Vec.zero)) /\
  (forall (dt : R) (surf : SurfTrack),
      (forall v t, t ∈ m_vertex_to_triangle_map (m_mesh surf) !!! v ->
                   angle_cosines_within Q surf min_cos max_cos t) ->
      exists s, null_space_smoothing_pass Q CP EB threshold dt surf
                  = Ok (true, s) /\
                ps_surf s = surf /\
                (forall v, get_position (ps_surf s) v = get_position surf v) /\
                ps_displacements s
                  = replicate (get_num_vertices surf) Vec.zero).
Proof.
  split.
  - intros surf v c d0 H.
    rewrite smooth_vertex_ineligible by (apply good_angles_not_eligible; auto).
    eexists. split; [reflexivity |]. simpl. repeat split.
    intros [Hd | ->].
    + rewrite Hd. reflexivity.
    + destruct (vertex_is_deleted Q (m_mesh surf) v); reflexivity.
  - intros dt surf H.
    assert (Hm : 0 <= / 10 ^ 30).
    { left. apply Rinv_0_lt_compat. apply pow_lt. lra. }
    set (s0 := mkPassState surf (build_caches Q surf)
                 (replicate (get_num_vertices surf) Vec.zero) (/ 10 ^ 30)).
    assert (Hstep : forall v, smooth_and_record Q CP EB threshold s0 v = Ok s0).
    { intros v. apply smooth_and_record_noop; auto.
      apply good_angles_not_eligible. intros t Ht. exact (H v t Ht). }
    exists s0. split; [| repeat split].
    unfold null_space_smoothing_pass. fold s0.
    destruct (m_aggressive_mode surf); cbn [negb].
    + destruct (aggressive_sweep_noop s0 Hstep) as (flags & ->). reflexivity.
    + rewrite (standard_sweep_noop s0 Hstep). reflexivity.
Qed.

(** ** The collision guard *)

Lemma collision_check_true (surf : SurfTrack) (v : nat) :
  m_collision_safety surf = true ->
  (any_collision CP surf (gather_candidates CP surf v) = true \/
   exists cand, cand ∈ gather_candidates CP surf v /\
                candidate_is_measured surf cand = true /\
                candidate_distance CP surf cand
                  < m_improve_collision_epsilon surf) ->
  smooth_vertex_pseudo_motion_introduces_collision CP surf v = Ok true.
Proof.
  intros Hs H. unfold smooth_vertex_pseudo_motion_introduces_collision.
  rewrite Hs. simpl.
  destruct (any_collision CP surf (gather_candidates CP surf v)) eqn:E;
    [reflexivity |].
  destruct H as [H | (cand & Hin & Hm & Hd)]; [discriminate |].
  f_equal. apply existsb_elem_of. exists cand. split; [assumption |].
  unfold candidate_too_close. rewrite Hm. apply Rltb_true_iff. assumption.
Qed.

Lemma guard_rejects (surf : SurfTrack) (v : nat) (c : Caches) (d : Vec3d) :
  m_collision_safety surf = true ->
  smooth_vertex_pseudo_motion_introduces_collision CP (stage_move surf v d) v
    = Ok true ->
  exists o, guard_and_commit Q CP surf v c d = Ok o /\ move_rejected surf v c o.
Proof.
  intros Hs Hc. unfold guard_and_commit.
  replace (m_collision_safety (stage_move surf v d)) with true by (symmetry; exact Hs).
  rewrite Hc. simpl. eexists. split; [reflexivity |].
  unfold move_rejected. simpl. repeat split.
  apply list_insert_insert_eq.
Qed.

Lemma guard_commits (surf : SurfTrack) (v : nat) (c : Caches) (d : Vec3d) :
  m_collision_safety surf = false \/
  smooth_vertex_pseudo_motion_introduces_collision CP (stage_move surf v d) v
    = Ok false ->
  guard_and_commit Q CP surf v c d
  = Ok (mkOutcome
          (set_position (stage_move surf v d) v (get_position surf v + d)%vec)
          (refresh_caches Q
             (set_position (stage_move surf v d) v (get_position surf v + d)%vec)
             (m_vertex_to_triangle_map (m_mesh surf) !!! v) c)
          d).
Proof.
  intros H. unfold guard_and_commit.
  destruct (m_collision_safety (stage_move surf v d)) eqn:E.
  - destruct H as [H | H]; [simpl in E; congruence |].
    rewrite H. reflexivity.
  - reflexivity.
Qed.

(** The path of a vertex whose move is committed. *)
Lemma smooth_vertex_commits (surf : SurfTrack) (v : nat) (c : Caches)
    (d0 d : Vec3d) :
  reaches_guard_with Q EB threshold surf v c d ->
  m_collision_safety surf = false \/
  smooth_vertex_pseudo_motion_introduces_collision CP (stage_move surf v d) v
    = Ok false ->
  null_space_smooth_vertex Q CP EB threshold v c d0 surf
  = Ok (mkOutcome
          (set_position (stage_move surf v d) v (get_position surf v + d)%vec)
          (refresh_caches Q
             (set_position (stage_move surf v d) v (get_position surf v + d)%vec)
             (m_vertex_to_triangle_map (m_mesh surf) !!! v) c)
          d).
Proof.
  intros (He & (d1 & Hsel & ->) & Hcap) H.
  rewrite smooth_vertex_eligible by assumption. rewrite Hsel. simpl.
  rewrite Hcap. apply guard_commits. assumption.
Qed.

(** C1 (amended).  When a vertex reaches the collision guard with collision
    safety enabled and either the exact test reports a collision among the
    gathered candidates, or some gathered candidate that the proximity loop
    measures (neither element a degenerate placeholder, no vertex shared)
    is closer than the collision epsilon, the move is rejected: the
    displacement is zero, the staged position of the vertex is its current
    position, and the committed positions and the caches are untouched. *)
Theorem collision_rejects_move (surf : SurfTrack) (v : nat) (c : Caches)
    (d0 d : Vec3d) :
  reaches_guard_with Q EB threshold surf v c d ->
  m_collision_safety surf = true ->
  (any_collision CP (stage_move surf v d)
                 (gather_candidates CP (stage_move surf v d) v) = true \/
   exists cand,
     cand ∈ gather_candidates CP (stage_move surf v d) v /\
     candidate_is_measured (stage_move surf v d) cand = true /\
     candidate_distance CP (stage_move surf v d) cand
       < m_improve_collision_epsilon surf) ->
  exists o, null_space_smooth_vertex Q CP EB threshold v c d0 surf = Ok o /\
            move_rejected surf v c o.
Proof.
  intros (He & (d1 & Hsel & ->) & Hcap) Hs H.
  rewrite smooth_vertex_eligible by assumption. rewrite Hsel. simpl.
  rewrite Hcap. apply guard_rejects; [assumption |].
  apply collision_check_true; assumption.
Qed.

(** ** The flat branch *)

Lemma dot_sub_l (a b n : Vec3d) :
  Vec.dot (a - b) n = Vec.dot a n - Vec.dot b n.
Proof. unfold Vec.dot; simpl. lra. Qed.

Lemma dot_scale_l (k : R) (a n : Vec3d) :
  Vec.dot (k * a) n = k * Vec.dot a n.
Proof. unfold Vec.dot; simpl. lra. Qed.

Lemma dot_comm (a b : Vec3d) : Vec.dot a b = Vec.dot b a.
Proof. unfold Vec.dot. lra. Qed.

(** Removing the component along a unit vector leaves nothing along it. *)
Lemma remove_normal_component (n t : Vec3d) :
  Vec.dot n n = 1 -> Vec.dot (t - Vec.dot n t * n) n = 0.
Proof.
  intros Hn. rewrite dot_sub_l, dot_scale_l, Hn, (dot_comm n t). lra.
Qed.

(** C8.  On the flat branch (no feature edge at the vertex, the
    eigen-solver succeeded), when the quadric is well-conditioned in that
    the area sum the displacement is divided by is not zero and the
    combined normal of Jiao's medial quadric is not the zero vector, so that
    it can be normalised, the returned displacement has dot product zero
    with the normalised combined normal. *)
Theorem flat_displacement_is_tangential (surf : SurfTrack) (v : nat)
    (triangles : list nat) (c : Caches) :
  vertex_feature_edge_count Q surf v (triangle_normals c) = 0%Z ->
  es_success (quadric_eigen EB triangles c) = true ->
  (weighted_centroid_offsets surf v triangles c).2 <> 0 ->
  Jiao_d EB (quadric_eigen EB triangles c)
         (Jiao_b (gather_normals triangles c) (gather_weights triangles c))
    <> Vec.zero ->
  exists t,
    get_smoothing_displacement_dihedral Q EB surf v triangles c = Ok t /\
    Vec.dot t (jiao_normal EB (quadric_eigen EB triangles c)
                           (gather_normals triangles c)
                           (gather_weights triangles c)) = 0.
Proof.
  intros Hfc Hes _ Hd.
  unfold get_smoothing_displacement_dihedral. rewrite Hfc, Hes. simpl.
  eexists. split; [reflexivity |].
  unfold flat_displacement.
  destruct (weighted_centroid_offsets surf v triangles c) as [t sum_areas].
  apply remove_normal_component.
  unfold jiao_normal. apply normalized_unit. exact Hd.
Qed.

(** ** The ridge branch *)

Lemma ridge_well_conditioned_iff (es : EigenSolver) :
  ridge_well_conditioned es = true <->
  eig_min_of (eigenvalues es) / eig_mid_of (eigenvalues es) <= 0.7 /\
  eig_mid_of (eigenvalues es) / eig_max_of (eigenvalues es) >= 0.00765.
Proof.
  unfold ridge_well_conditioned, Rgeb.
  rewrite andb_true_iff, !Rleb_true_iff. split; intros [H1 H2]; split; lra.
Qed.

(** [eig_min_vec] is a column whose eigenvalue is the least of the three. *)
Lemma eig_min_vec_is_smallest (es : EigenSolver) :
  exists i, (i < 3)%nat /\
    eig_min_vec es = eigenvectors_col es i /\
    Vec.get (eigenvalues es) i = eig_min_of (eigenvalues es) /\
    forall j, Vec.get (eigenvalues es) i <= Vec.get (eigenvalues es) j.
Proof.
  assert (Hmin : forall j,
    eig_min_of (eigenvalues es) <= Vec.get (eigenvalues es) j).
  { intros j. unfold eig_min_of.
    pose proof (Rmin_l (vx (eigenvalues es))
                  (Rmin (vy (eigenvalues es)) (vz (eigenvalues es)))).
    pose proof (Rmin_r (vx (eigenvalues es))
                  (Rmin (vy (eigenvalues es)) (vz (eigenvalues es)))).
    pose proof (Rmin_l (vy (eigenvalues es)) (vz (eigenvalues es))).
    pose proof (Rmin_r (vy (eigenvalues es)) (vz (eigenvalues es))).
    destruct j as [| [| j]]; simpl; lra. }
  unfold eig_min_vec.
  destruct (Reqb (eig_min_of (eigenvalues es)) (vx (eigenvalues es))) eqn:E0.
  { apply Reqb_true_iff in E0. exists 0%nat. repeat split; [lia | auto |].
    intros j. simpl. rewrite <- E0. apply Hmin. }
  destruct (Reqb (eig_min_of (eigenvalues es)) (vy (eigenvalues es))) eqn:E1.
  { apply Reqb_true_iff in E1. exists 1%nat. repeat split; [lia | auto |].
    intros j. simpl. rewrite <- E1. apply Hmin. }
  apply Reqb_false_iff in E0, E1.
  assert (E2 : eig_min_of (eigenvalues es) = vz (eigenvalues es)).
  { revert E0 E1. unfold eig_min_of, Rmin.
    repeat match goal with |- context [Rle_dec ?a ?b] => destruct (Rle_dec a b) end;
      intros; try reflexivity; contradiction. }
  exists 2%nat. repeat split; [lia | auto |].
  intros j. simpl. rewrite <- E2. apply Hmin.
Qed.

Lemma length_one_inv {A : Type} (l : list A) :
  length l = 1%nat -> exists a, l = [a].
Proof. destruct l as [| a [| b l]]; simpl; intros; try discriminate; eauto. Qed.

Lemma length_two_inv {A : Type} (l : list A) :
  length l = 2%nat -> exists a b, l = [a; b].
Proof.
  destruct l as [| a [| b [| x l]]]; simpl; intros; try discriminate; eauto.
Qed.

(** C9.  On the ridge branch (one or two feature edges at the vertex): when
    lambda_min / lambda_mid <= 0.7 and lambda_mid / lambda_max >= 0.00765
    the basis is the eigenvector of the least eigenvalue; when not, it is
    the normalised vector of the one feature edge if there is one, and the
    normalised vector from the midpoint of the second feature edge to that
    of the first if there are two; and whenever the eigen-solver succeeded
    the function returns the displacement projected on that basis. *)
Theorem ridge_direction_choice (surf : SurfTrack) (v : nat)
    (triangles : list nat) (c : Caches) :
  (vertex_feature_edge_count Q surf v (triangle_normals c) = 1 \/
   vertex_feature_edge_count Q surf v (triangle_normals c) = 2)%Z ->
  (exists T,
      ridge_basis Q surf v c (quadric_eigen EB triangles c)
        (vertex_feature_edge_count Q surf v (triangle_normals c)) = Ok T /\
      (es_success (quadric_eigen EB triangles c) = true ->
       get_smoothing_displacement_dihedral Q EB surf v triangles c
         = Ok (ridge_displacement surf v triangles c T))) /\
  (forall es,
      eig_min_of (eigenvalues es) / eig_mid_of (eigenvalues es) <= 0.7 /\
      eig_mid_of (eigenvalues es) / eig_max_of (eigenvalues es) >= 0.00765 ->
      ridge_basis Q surf v c es
        (vertex_feature_edge_count Q surf v (triangle_normals c))
        = Ok [eig_min_vec es] /\
      exists i, (i < 3)%nat /\
        eig_min_vec es = eigenvectors_col es i /\
        forall j, Vec.get (eigenvalues es) i <= Vec.get (eigenvalues es) j) /\
  (forall es,
      ~ (eig_min_of (eigenvalues es) / eig_mid_of (eigenvalues es) <= 0.7 /\
         eig_mid_of (eigenvalues es) / eig_max_of (eigenvalues es) >= 0.00765) ->
      (vertex_feature_edge_count Q surf v (triangle_normals c) = 1%Z ->
       exists e, feature_edges Q surf v (triangle_normals c) = [e] /\
         ridge_basis Q surf v c es 1
           = Ok [Vec.normalized (edge_vector surf e)]) /\
      (vertex_feature_edge_count Q surf v (triangle_normals c) = 2%Z ->
       exists e1 e2, feature_edges Q surf v (triangle_normals c) = [e1; e2] /\
         ridge_basis Q surf v c es 2
           = Ok [Vec.normalized
                   (edge_midpoint surf e1 - edge_midpoint surf e2)%vec])).
Proof.
  intros Hfc.
  assert (Hwc : forall es,
    eig_min_of (eigenvalues es) / eig_mid_of (eigenvalues es) <= 0.7 /\
    eig_mid_of (eigenvalues es) / eig_max_of (eigenvalues es) >= 0.00765 ->
    ridge_basis Q surf v c es
      (vertex_feature_edge_count Q surf v (triangle_normals c))
      = Ok [eig_min_vec es]).
  { intros es H. apply ridge_well_conditioned_iff in H.
    unfold ridge_basis. rewrite H. reflexivity. }
  assert (Hone : forall es,
    ridge_well_conditioned es = false ->
    vertex_feature_edge_count Q surf v (triangle_normals c) = 1%Z ->
    exists e, feature_edges Q surf v (triangle_normals c) = [e] /\
      ridge_basis Q surf v c es 1 = Ok [Vec.normalized (edge_vector surf e)]).
  { intros es H H1. unfold vertex_feature_edge_count in H1.
    destruct (length_one_inv (feature_edges Q surf v (triangle_normals c)))
      as [e He]; [lia |].
    exists e. split; [assumption |].
    unfold ridge_basis. rewrite H, He. reflexivity. }
  assert (Htwo : forall es,
    ridge_well_conditioned es = false ->
    vertex_feature_edge_count Q surf v (triangle_normals c) = 2%Z ->
    exists e1 e2, feature_edges Q surf v (triangle_normals c) = [e1; e2] /\
      ridge_basis Q surf v c es 2
        = Ok [Vec.normalized (edge_midpoint surf e1 - edge_midpoint surf e2)%vec]).
  { intros es H H2. unfold vertex_feature_edge_count in H2.
    destruct (length_two_inv (feature_edges Q surf v (triangle_normals c)))
      as (e1 & e2 & He); [lia |].
    exists e1, e2. split; [assumption |].
    unfold ridge_basis. rewrite H, He. reflexivity. }
  assert (Hnot : forall es,
    ~ (eig_min_of (eigenvalues es) / eig_mid_of (eigenvalues es) <= 0.7 /\
       eig_mid_of (eigenvalues es) / eig_max_of (eigenvalues es) >= 0.00765) ->
    ridge_well_conditioned es = false).
  { intros es H. destruct (ridge_well_conditioned es) eqn:E; [| reflexivity].
    apply ridge_well_conditioned_iff in E. contradiction. }
  split; [| split].
  - assert (HT : exists T,
      ridge_basis Q surf v c (quadric_eigen EB triangles c)
        (vertex_feature_edge_count Q surf v (triangle_normals c)) = Ok T).
    { destruct (ridge_well_conditioned (quadric_eigen EB triangles c)) eqn:E.
      - eexists. apply Hwc. apply ridge_well_conditioned_iff. exact E.
      - destruct Hfc as [H1 | H2].
        + destruct (Hone _ E H1) as (e & _ & Hb). rewrite H1. eauto.
        + destruct (Htwo _ E H2) as (e1 & e2 & _ & Hb). rewrite H2. eauto. }
    destruct HT as [T HT]. exists T. split; [assumption |].
    intros Hes. unfold get_smoothing_displacement_dihedral.
    rewrite Hes, HT. simpl.
    destruct Hfc as [-> | ->]; reflexivity.
  - intros es H. split; [apply Hwc; assumption |].
    destruct (eig_min_vec_is_smallest es) as (i & Hi & Hv & _ & Hle). eauto.
  - intros es H. split; intros Hc; [apply Hone | apply Htwo]; auto.
Qed.

(** ** The denominator of the synthesizers *)

Lemma weighted_centroid_offsets_sum (surf : SurfTrack) (v : nat)
    (triangles : list nat) (c : Caches) (t0 : Vec3d) (s0 : R) :
  (fold_left
     (fun acc tri =>
        let area := triangle_areas c !!! tri in
        let sum_areas := acc.2 + area in
        let off := (triangle_centroids c !!! tri - get_position surf v)%vec in
        ((acc.1 + area * off)%vec, sum_areas))
     triangles (t0, s0)).2
  = fold_left (fun s tri => s + triangle_areas c !!! tri) triangles s0.
Proof.
  revert t0 s0. induction triangles as [| tri l IH]; intros t0 s0; simpl.
  - reflexivity.
  - apply IH.
Qed.

Lemma area_fold_ge (areas : list R) (l : list nat) (s0 : R) :
  (forall t, t ∈ l -> 0 <= areas !!! t) ->
  s0 <= fold_left (fun s tri => s + areas !!! tri) l s0.
Proof.
  revert s0. induction l as [| a l IH]; intros s0 H; simpl.
  - lra.
  - assert (0 <= areas !!! a) by (apply H; left).
    apply Rle_trans with (s0 + areas !!! a); [lra |].
    apply IH. intros t Ht. apply H. right. assumption.
Qed.

Lemma area_fold_pos (areas : list R) (l : list nat) (s0 : R) :
  0 <= s0 ->
  (forall t, t ∈ l -> 0 <= areas !!! t) ->
  (exists t, t ∈ l /\ 0 < areas !!! t) ->
  0 < fold_left (fun s tri => s + areas !!! tri) l s0.
Proof.
  revert s0. induction l as [| a l IH]; intros s0 Hs H (t & Ht & Hpos); simpl.
  - inversion Ht.
  - assert (Ha : 0 <= areas !!! a) by (apply H; left).
    assert (Hl : forall t, t ∈ l -> 0 <= areas !!! t)
      by (intros u Hu; apply H; right; assumption).
    apply elem_of_cons in Ht as [-> | Ht].
    + apply Rlt_le_trans with (s0 + areas !!! a); [lra |].
      apply area_fold_ge. assumption.
    + apply IH; [lra | assumption | eauto].
Qed.

(** C10 (amended).  Each synthesizer divides by the sum of the cached areas
    of its triangle set, with no test of the divisor; that sum is strictly
    positive whenever no cached area of the set is negative and at least
    one is positive. *)
Theorem area_sum_positive (surf : SurfTrack) (v : nat) (triangles : list nat)
    (c : Caches) :
  (forall t, t ∈ triangles -> 0 <= triangle_areas c !!! t) ->
  (exists t, t ∈ triangles /\ 0 < triangle_areas c !!! t) ->
  0 < (weighted_centroid_offsets surf v triangles c).2 /\
  get_smoothing_displacement_naive surf v triangles c
    = ((weighted_centroid_offsets surf v triangles c).1
       / (weighted_centroid_offsets surf v triangles c).2)%vec /\
  get_smoothing_displacement EB surf v triangles c
    = (Mat.mulv (null_space_projection
                   (null_space_basis EB (quadric_eigen EB triangles c)))
                (weighted_centroid_offsets surf v triangles c).1
       / (weighted_centroid_offsets surf v triangles c).2)%vec /\
  (forall T, ridge_displacement surf v triangles c T
    = (Mat.mulv (null_space_projection T)
                (weighted_centroid_offsets surf v triangles c).1
       / (weighted_centroid_offsets surf v triangles c).2)%vec) /\
  (forall es, flat_displacement EB surf v triangles c es
    = (((weighted_centroid_offsets surf v triangles c).1
        / (weighted_centroid_offsets surf v triangles c).2)
       - Vec.dot (jiao_normal EB es (gather_normals triangles c)
                              (gather_weights triangles c))
                 ((weighted_centroid_offsets surf v triangles c).1
                  / (weighted_centroid_offsets surf v triangles c).2)
         * jiao_normal EB es (gather_normals triangles c)
                       (gather_weights triangles c))%vec).
Proof.
  intros Hnn Hpos. split.
  - unfold weighted_centroid_offsets. rewrite weighted_centroid_offsets_sum.
    apply area_fold_pos; [lra | assumption | assumption].
  - unfold get_smoothing_displacement_naive, get_smoothing_displacement,
      ridge_displacement, flat_displacement.
    destruct (weighted_centroid_offsets surf v triangles c) as [t sum_areas].
    simpl. repeat split; reflexivity.
Qed.

(** ** Degenerate placeholder triangles *)

Lemma build_caches_fold (surf : SurfTrack) (l : list nat) (c0 : Caches) :
  fold_left
    (fun c i =>
       let '(area, normal, centroid) := initial_cache_entry Q surf i in
       mkCaches (triangle_areas c ++ [area])
                (triangle_normals c ++ [normal])
                (triangle_centroids c ++ [centroid]))
    l c0
  = mkCaches
      (triangle_areas c0 ++ map (fun i => (initial_cache_entry Q surf i).1.1) l)
      (triangle_normals c0 ++ map (fun i => (initial_cache_entry Q surf i).1.2) l)
      (triangle_centroids c0 ++ map (fun i => (initial_cache_entry Q surf i).2) l).
Proof.
  revert c0. induction l as [| i l IH]; intros c0; simpl.
  - rewrite !app_nil_r. destruct c0; reflexivity.
  - rewrite IH. destruct (initial_cache_entry Q surf i) as [[a n] ce]. simpl.
    rewrite <- !app_assoc. reflexivity.
Qed.

Lemma build_caches_lookup (surf : SurfTrack) (i : nat) :
  (i < num_triangles (m_mesh surf))%nat ->
  triangle_areas (build_caches Q surf) !! i
    = Some (initial_cache_entry Q surf i).1.1 /\
  triangle_normals (build_caches Q surf) !! i
    = Some (initial_cache_entry Q surf i).1.2 /\
  triangle_centroids (build_caches Q surf) !! i
    = Some (initial_cache_entry Q surf i).2.
Proof.
  intros Hi. unfold build_caches. rewrite build_caches_fold. simpl.
  rewrite !list_lookup_fmap, !lookup_seq_lt by assumption.
  repeat split; reflexivity.
Qed.

Lemma refresh_triangle_entry (surf : SurfTrack) (c : Caches) (t : nat) :
  refresh_triangle Q surf c t
  = mkCaches (<[t := (initial_cache_entry Q surf t).1.1]> (triangle_areas c))
             (<[t := (initial_cache_entry Q surf t).1.2]> (triangle_normals c))
             (<[t := (initial_cache_entry Q surf t).2]> (triangle_centroids c)).
Proof.
  unfold refresh_triangle, initial_cache_entry.
  destruct (Nat.eqb (tri0 (get_triangle (m_mesh surf) t))
                    (tri1 (get_triangle (m_mesh surf) t))); reflexivity.
Qed.

Lemma refresh_caches_fold (surf : SurfTrack) (l : list nat) (c : Caches) :
  refresh_caches Q surf l c
  = mkCaches
      (fold_left (fun a t => <[t := (initial_cache_entry Q surf t).1.1]> a)
                 l (triangle_areas c))
      (fold_left (fun a t => <[t := (initial_cache_entry Q surf t).1.2]> a)
                 l (triangle_normals c))
      (fold_left (fun a t => <[t := (initial_cache_entry Q surf t).2]> a)
                 l (triangle_centroids c)).
Proof.
  unfold refresh_caches. revert c. induction l as [| t l IH]; intros c; simpl.
  - destruct c; reflexivity.
  - rewrite IH, refresh_triangle_entry. reflexivity.
Qed.

Lemma fold_insert_length {A : Type} (f : nat -> A) (ts : list nat) (l : list A) :
  length (fold_left (fun a t => <[t := f t]> a) ts l) = length l.
Proof.
  revert l. induction ts as [| a ts IH]; intros l; simpl; [reflexivity |].
  rewrite IH. apply length_insert.
Qed.

Lemma fold_insert_lookup_notin {A : Type} (f : nat -> A) (ts : list nat)
    (l : list A) (t : nat) :
  t ∉ ts -> fold_left (fun a t => <[t := f t]> a) ts l !! t = l !! t.
Proof.
  revert l. induction ts as [| a ts IH]; intros l Hn; simpl; [reflexivity |].
  apply not_elem_of_cons in Hn as [Hne Hn].
  rewrite IH by assumption. apply list_lookup_insert_ne. congruence.
Qed.

(** After the indexed writes of a loop, a slot that was written holds the
    value computed for its index. *)
Lemma fold_insert_lookup {A : Type} (f : nat -> A) (ts : list nat)
    (l : list A) (t : nat) :
  t ∈ ts -> (t < length l)%nat ->
  fold_left (fun a t => <[t := f t]> a) ts l !! t = Some (f t).
Proof.
  revert l. induction ts as [| a ts IH]; intros l Hin Hlen; simpl.
  - inversion Hin.
  - destruct (decide (t ∈ ts)) as [Hts | Hts].
    + apply IH; [assumption |]. rewrite length_insert. assumption.
    + apply elem_of_cons in Hin as [-> | Hin]; [| contradiction].
      rewrite fold_insert_lookup_notin by assumption.
      apply list_lookup_insert_eq. assumption.
Qed.

Lemma initial_cache_entry_degenerate (surf : SurfTrack) (i : nat) :
  tri0 (get_triangle (m_mesh surf) i) = tri1 (get_triangle (m_mesh surf) i) ->
  initial_cache_entry Q surf i = (0, Vec.zero, Vec.zero).
Proof.
  intros H. unfold initial_cache_entry. rewrite H, Nat.eqb_refl. reflexivity.
Qed.

Lemma fold_left_filter_neutral {A S : Type} (keep : A -> bool)
    (g : S -> A -> S) (l : list A) (acc : S) :
  (forall acc a, a ∈ l -> keep a = false -> g acc a = acc) ->
  fold_left g l acc = fold_left g (List.filter keep l) acc.
Proof.
  revert acc. induction l as [| a l IH]; intros acc H; simpl; [reflexivity |].
  assert (Hl : forall acc x, x ∈ l -> keep x = false -> g acc x = acc)
    by (intros acc' x Hx; apply H; right; assumption).
  destruct (keep a) eqn:E; simpl.
  - apply IH. assumption.
  - rewrite (H acc a) by (auto; left). apply IH. assumption.
Qed.

Lemma fold_left_zip_map {A B C S : Type} (f : A -> B) (h : A -> C)
    (g : S -> B * C -> S) (l : list A) (acc : S) :
  fold_left g (zip (map f l) (map h l)) acc
  = fold_left (fun s a => g s (f a, h a)) l acc.
Proof.
  revert acc. induction l as [| a l IH]; intros acc; simpl; [reflexivity |].
  apply IH.
Qed.

Lemma mat_eq (A B : Mat33d) :
  row0 A = row0 B -> row1 A = row1 B -> row2 A = row2 B -> A = B.
Proof. destruct A, B; simpl; intros; subst; reflexivity. Qed.

Lemma add_weighted_outer_zero (A : Mat33d) (n : Vec3d) :
  add_weighted_outer A n 0 = A.
Proof.
  unfold add_weighted_outer, Mat.build.
  apply mat_eq; apply vec_eq; simpl; lra.
Qed.

(** C2 (amended).  For every triangle whose first two vertex indices are
    equal, the area, normal and centroid written by the initial cache build
    and by the cache refresh after a committed move are zero; and when the
    cached area of every such triangle of a list is zero, the area-weighted
    sums over the list (the centroid offsets with the area sum, the medial
    quadric, Jiao's vector b) are the sums over the list without those
    triangles. *)
Theorem placeholder_triangles_are_zeroed :
  (forall (surf : SurfTrack) (i : nat),
      (i < num_triangles (m_mesh surf))%nat ->
      tri0 (get_triangle (m_mesh surf) i) = tri1 (get_triangle (m_mesh surf) i) ->
      triangle_areas (build_caches Q surf) !! i = Some 0 /\
      triangle_normals (build_caches Q surf) !! i = Some Vec.zero /\
      triangle_centroids (build_caches Q surf) !! i = Some Vec.zero) /\
  (forall (surf : SurfTrack) (incident_triangles : list nat) (c : Caches)
          (t : nat),
      t ∈ incident_triangles ->
      (t < length (triangle_areas c))%nat ->
      (t < length (triangle_normals c))%nat ->
      (t < length (triangle_centroids c))%nat ->
      tri0 (get_triangle (m_mesh surf) t) = tri1 (get_triangle (m_mesh surf) t) ->
      triangle_areas (refresh_caches Q surf incident_triangles c) !! t
        = Some 0 /\
      triangle_normals (refresh_caches Q surf incident_triangles c) !! t
        = Some Vec.zero /\
      triangle_centroids (refresh_caches Q surf incident_triangles c) !! t
        = Some Vec.zero) /\
  (forall (surf : SurfTrack) (v : nat) (triangles : list nat) (c : Caches),
      (forall t, t ∈ triangles ->
         tri0 (get_triangle (m_mesh surf) t)
           = tri1 (get_triangle (m_mesh surf) t) ->
         triangle_areas c !!! t = 0) ->
      weighted_centroid_offsets surf v triangles c
        = weighted_centroid_offsets surf v (live_triangles surf triangles) c /\
      medial_quadric (gather_normals triangles c) (gather_weights triangles c)
        = medial_quadric (gather_normals (live_triangles surf triangles) c)
                         (gather_weights (live_triangles surf triangles) c) /\
      Jiao_b (gather_normals triangles c) (gather_weights triangles c)
        = Jiao_b (gather_normals (live_triangles surf triangles) c)
                 (gather_weights (live_triangles surf triangles) c)).
Proof.
  split; [| split].
  - intros surf i Hi Hdeg.
    destruct (build_caches_lookup surf i Hi) as (Ha & Hn & Hc).
    rewrite Ha, Hn, Hc, initial_cache_entry_degenerate by assumption.
    repeat split; reflexivity.
  - intros surf l c t Hin Ha Hn Hc Hdeg.
    rewrite refresh_caches_fold. simpl.
    rewrite !fold_insert_lookup by assumption.
    rewrite initial_cache_entry_degenerate by assumption.
    repeat split; reflexivity.
  - intros surf v triangles c Hzero.
    assert (Hdrop : forall t, t ∈ triangles ->
      negb (Nat.eqb (tri0 (get_triangle (m_mesh surf) t))
                    (tri1 (get_triangle (m_mesh surf) t))) = false ->
      triangle_areas c !!! t = 0).
    { intros t Ht E. apply Hzero; [assumption |].
      apply negb_false_iff, Nat.eqb_eq in E. assumption. }
    split; [| split].
    + unfold weighted_centroid_offsets, live_triangles.
      apply fold_left_filter_neutral. intros [t0 s0] t Ht E. simpl.
      rewrite (Hdrop t Ht E). f_equal; [| lra].
      apply vec_eq; simpl; lra.
    + unfold medial_quadric, gather_normals, gather_weights, live_triangles.
      rewrite !fold_left_zip_map.
      apply fold_left_filter_neutral. intros A t Ht E. simpl.
      rewrite (Hdrop t Ht E). apply add_weighted_outer_zero.
    + unfold Jiao_b, gather_normals, gather_weights, live_triangles.
      rewrite !fold_left_zip_map.
      apply fold_left_filter_neutral. intros b t Ht E. simpl.
      rewrite (Hdrop t Ht E). apply vec_eq; simpl; lra.
Qed.

(** ** Corners off the solidity mask *)

Lemma insert_lookup_total_id {A : Type} `{!Inhabited A} (l : list A) (i : nat) :
  <[i := l !!! i]> l = l.
Proof.
  apply list_insert_id'. intros Hi.
  apply list_lookup_lookup_total_lt. assumption.
Qed.

Lemma collision_check_total (surf : SurfTrack) (v : nat) :
  m_collision_safety surf = true ->
  exists b, smooth_vertex_pseudo_motion_introduces_collision CP surf v = Ok b.
Proof.
  intros Hs. unfold smooth_vertex_pseudo_motion_introduces_collision.
  rewrite Hs. simpl.
  destruct (any_collision CP surf (gather_candidates CP surf v)); eauto.
Qed.

(** X1.  A vertex that the dispatch hands to the dihedral-aware policy, with
    three or more feature edges and neither axis 1 nor axis 2 solid, gets
    displacement zero, and no committed position changes. *)
Theorem corner_vertex_is_frozen (surf : SurfTrack) (v : nat) (c : Caches)
    (d0 : Vec3d) (s0 : bool) :
  eligible Q surf v = true ->
  select_displacement Q EB threshold surf v c
    = get_smoothing_displacement_dihedral Q EB surf v
        (m_vertex_to_triangle_map (m_mesh surf) !!! v) c ->
  (3 <= vertex_feature_edge_count Q surf v (triangle_normals c))%Z ->
  vertex_is_solid_3 Q surf v = (s0, false, false) ->
  0 <= m_max_edge_length surf ->
  exists o, null_space_smooth_vertex Q CP EB threshold v c d0 surf = Ok o /\
            out_displacement o = Vec.zero /\
            pm_positions (out_surf o) = pm_positions surf.
Proof.
  intros He Hsel Hfc Hsolid Hmax.
  assert (Hd : get_smoothing_displacement_dihedral Q EB surf v
                 (m_vertex_to_triangle_map (m_mesh surf) !!! v) c = Ok Vec.zero).
  { unfold get_smoothing_displacement_dihedral.
    replace (vertex_feature_edge_count Q surf v (triangle_normals c) >=? 3)%Z
      with true by (symmetry; apply Z.geb_le; assumption).
    reflexivity. }
  assert (Hmask : solidity_mask (s0, false, false) Vec.zero = Vec.zero)
    by (destruct s0; reflexivity).
  rewrite smooth_vertex_eligible by assumption.
  rewrite Hsel, Hd. simpl. rewrite Hsolid, Hmask.
  assert (Hcap : exceeds_cap surf Vec.zero = false).
  { unfold exceeds_cap, Rgtb. apply Rltb_false_iff. rewrite mag_zero. lra. }
  rewrite Hcap. unfold guard_and_commit.
  destruct (m_collision_safety (stage_move surf v Vec.zero)) eqn:Es.
  - destruct (collision_check_total (stage_move surf v Vec.zero) v Es)
      as [b Hb].
    rewrite Hb. simpl. destruct b.
    + eexists. split; [reflexivity |]. simpl. auto.
    + eexists. split; [reflexivity |]. simpl. split; [reflexivity |].
      rewrite vec_add_zero_r. apply insert_lookup_total_id.
  - simpl. eexists. split; [reflexivity |]. simpl. split; [reflexivity |].
    rewrite vec_add_zero_r. apply insert_lookup_total_id.
Qed.

End Properties.

(** * Further properties of the code *)

(** ** What one call of null_space_smooth_vertex does *)

Section CallProperties.

Context (Q : SurfaceQueries) (CP : CollisionPipeline) (EB : EigenBackend).
Variable threshold : R.

(** The guard lets a move pass when the exact test finds nothing and every
    candidate the proximity loop measures is at least epsilon away. *)
Lemma collision_check_false (surf : SurfTrack) (v : nat) :
  m_collision_safety surf = true ->
  any_collision CP surf (gather_candidates CP surf v) = false ->
  (forall cand, cand ∈ gather_candidates CP surf v ->
                candidate_is_measured surf cand = true ->
                m_improve_collision_epsilon surf
                  <= candidate_distance CP surf cand) ->
  smooth_vertex_pseudo_motion_introduces_collision CP surf v = Ok false.
Proof.
  intros Hs Hc Hd. unfold smooth_vertex_pseudo_motion_introduces_collision.
  rewrite Hs, Hc. simpl. f_equal. apply existsb_false_elem_of.
  intros cand Hin. unfold candidate_too_close.
  destruct (candidate_is_measured surf cand) eqn:Hm; [| reflexivity].
  apply Rltb_false_iff. specialize (Hd cand Hin Hm). lra.
Qed.

(** The three ways a call ends: nothing touched; the move rejected by the
    guard; the move committed. *)
Lemma smooth_vertex_outcomes (surf : SurfTrack) (v : nat) (c : Caches)
    (d0 : Vec3d) (o : Outcome) :
  null_space_smooth_vertex Q CP EB threshold v c d0 surf = Ok o ->
  o = mkOutcome surf c
        (if vertex_is_deleted Q (m_mesh surf) v then d0 else Vec.zero) \/
  exists d, reaches_guard_with Q EB threshold surf v c d /\
    (o = mkOutcome (set_newposition (stage_move surf v d) v
                                    (get_position surf v)) c Vec.zero \/
     o = committed_outcome Q surf v c d).
Proof.
  intros H. destruct (eligible Q surf v) eqn:He.
  - rewrite smooth_vertex_eligible in H by assumption.
    destruct (select_displacement Q EB threshold surf v c) as [d1 | f] eqn:Hsel;
      [| discriminate].
    simpl in H.
    destruct (exceeds_cap surf (solidity_mask (vertex_is_solid_3 Q surf v) d1))
      eqn:Hcap.
    + left. apply eligible_iff in He as (Hd & _). rewrite Hd. congruence.
    + right. eexists. split.
      { split; [assumption |]. split; [| exact Hcap]. eauto. }
      unfold guard_and_commit in H.
      destruct (if m_collision_safety _ then _ else _) as [[|] | f]; simpl in H;
        try discriminate; [left | right]; injection H as <-; reflexivity.
  - rewrite smooth_vertex_ineligible in H by assumption. left. congruence.
Qed.

Lemma refresh_caches_lengths (surf : SurfTrack) (l : list nat) (c : Caches) :
  length (triangle_areas (refresh_caches Q surf l c))
    = length (triangle_areas c) /\
  length (triangle_normals (refresh_caches Q surf l c))
    = length (triangle_normals c) /\
  length (triangle_centroids (refresh_caches Q surf l c))
    = length (triangle_centroids c).
Proof.
  rewrite refresh_caches_fold. simpl. rewrite !fold_insert_length. auto.
Qed.

Lemma refresh_caches_notin (surf : SurfTrack) (l : list nat) (c : Caches)
    (t : nat) :
  t ∉ l ->
  triangle_areas (refresh_caches Q surf l c) !! t = triangle_areas c !! t /\
  triangle_normals (refresh_caches Q surf l c) !! t
    = triangle_normals c !! t /\
  triangle_centroids (refresh_caches Q surf l c) !! t
    = triangle_centroids c !! t.
Proof.
  intros Hn. rewrite refresh_caches_fold. simpl.
  rewrite !fold_insert_lookup_notin by assumption. auto.
Qed.

Lemma same_mesh_and_settings_refl (surf : SurfTrack) :
  same_mesh_and_settings surf surf.
Proof. unfold same_mesh_and_settings. repeat split. Qed.

Lemma same_mesh_and_settings_trans (s1 s2 s3 : SurfTrack) :
  same_mesh_and_settings s1 s2 -> same_mesh_and_settings s2 s3 ->
  same_mesh_and_settings s1 s3.
Proof.
  unfold same_mesh_and_settings.
  intros (?&?&?&?&?&?&?&?&?) (?&?&?&?&?&?&?&?&?).
  repeat split; congruence.
Qed.

Lemma call_keeps_mesh_and_settings (surf : SurfTrack) (v : nat) (c : Caches)
    (d0 : Vec3d) (o : Outcome) :
  null_space_smooth_vertex Q CP EB threshold v c d0 surf = Ok o ->
  same_mesh_and_settings surf (out_surf o).
Proof.
  intros H.
  apply smooth_vertex_outcomes in H as [-> | (d & _ & [-> | ->])].
  - apply same_mesh_and_settings_refl.
  - unfold same_mesh_and_settings; simpl.
    rewrite !length_insert. repeat split.
  - unfold same_mesh_and_settings, committed_outcome; simpl.
    rewrite !length_insert. repeat split.
Qed.

Lemma call_keeps_other_vertices (surf : SurfTrack) (v : nat) (c : Caches)
    (d0 : Vec3d) (o : Outcome) (w : nat) :
  null_space_smooth_vertex Q CP EB threshold v c d0 surf = Ok o ->
  w <> v ->
  get_position (out_surf o) w = get_position surf w /\
  get_newposition (out_surf o) w = get_newposition surf w.
Proof.
  intros H Hw.
  apply smooth_vertex_outcomes in H as [-> | (d & _ & [-> | ->])];
    unfold get_position, get_newposition; simpl;
    rewrite ?list_lookup_total_insert_ne by congruence; auto.
Qed.

(** X2.  A call on vertex [v] that returns leaves the mesh, the settings and
    the sizes of the position vectors as they were, the committed and the
    staged position of every other vertex, the sizes of the three caches,
    and the cache entries of every triangle that is not incident to [v]. *)
Theorem smooth_vertex_frame (surf : SurfTrack) (v : nat) (c : Caches)
    (d0 : Vec3d) (o : Outcome) :
  null_space_smooth_vertex Q CP EB threshold v c d0 surf = Ok o ->
  same_mesh_and_settings surf (out_surf o) /\
  (forall w, w <> v ->
     get_position (out_surf o) w = get_position surf w /\
     get_newposition (out_surf o) w = get_newposition surf w) /\
  (length (triangle_areas (out_caches o)) = length (triangle_areas c) /\
   length (triangle_normals (out_caches o)) = length (triangle_normals c) /\
   length (triangle_centroids (out_caches o))
     = length (triangle_centroids c)) /\
  (forall t, t ∉ m_vertex_to_triangle_map (m_mesh surf) !!! v ->
     triangle_areas (out_caches o) !! t = triangle_areas c !! t /\
     triangle_normals (out_caches o) !! t = triangle_normals c !! t /\
     triangle_centroids (out_caches o) !! t = triangle_centroids c !! t).
Proof.
  intros H.
  split; [exact (call_keeps_mesh_and_settings _ _ _ _ _ H) |].
  split; [intros w Hw; exact (call_keeps_other_vertices _ _ _ _ _ w H Hw) |].
  apply smooth_vertex_outcomes in H as [-> | (d & _ & [-> | ->])];
    try (simpl; auto; fail).
  unfold committed_outcome. simpl.
  split; [apply refresh_caches_lengths |].
  intros t Ht. apply refresh_caches_notin. assumption.
Qed.

(** X3.  For a vertex that is not deleted and lies inside the position
    vector, the displacement a call reports is the motion it applied: the
    committed position afterwards is the one before plus the reported
    displacement, whether the move was skipped, capped, rejected or
    committed. *)
Theorem reported_displacement_is_the_motion (surf : SurfTrack) (v : nat)
    (c : Caches) (d0 : Vec3d) (o : Outcome) :
  vertex_is_deleted Q (m_mesh surf) v = false ->
  (v < get_num_vertices surf)%nat ->
  null_space_smooth_vertex Q CP EB threshold v c d0 surf = Ok o ->
  get_position (out_surf o) v
    = (get_position surf v + out_displacement o)%vec.
Proof.
  intros Hd Hv H.
  apply smooth_vertex_outcomes in H as [-> | (d & _ & [-> | ->])]; simpl.
  - rewrite Hd, vec_add_zero_r. reflexivity.
  - rewrite vec_add_zero_r. reflexivity.
  - unfold get_position at 1; simpl.
    apply list_lookup_total_insert_eq. exact Hv.
Qed.


(** X5.  A vertex that reaches the collision guard with displacement [d],
    with collision safety on, is moved when the exact test reports no
    collision among the gathered candidates and every gathered candidate
    that the proximity loop measures is at distance at least epsilon: the
    staged and the committed position become the old position plus [d],
    the caches of the incident triangles are recomputed, and [d] is
    reported. *)
Theorem clear_move_is_committed (surf : SurfTrack) (v : nat) (c : Caches)
    (d0 d : Vec3d) :
  reaches_guard_with Q EB threshold surf v c d ->
  m_collision_safety surf = true ->
  any_collision CP (stage_move surf v d)
                (gather_candidates CP (stage_move surf v d) v) = false ->
  (forall cand,
     cand ∈ gather_candidates CP (stage_move surf v d) v ->
     candidate_is_measured (stage_move surf v d) cand = true ->
     m_improve_collision_epsilon surf
       <= candidate_distance CP (stage_move surf v d) cand) ->
  null_space_smooth_vertex Q CP EB threshold v c d0 surf
    = Ok (committed_outcome Q surf v c d).
Proof.
  intros Hg Hs Hc Hd.
  apply smooth_vertex_commits; [assumption |]. right.
  apply collision_check_false; assumption.
Qed.

(** A call keeps the staged positions equal to the committed ones. *)
Lemma call_keeps_positions_in_step (surf : SurfTrack) (v : nat)
    (c : Caches) (d0 : Vec3d) (o : Outcome) :
  pm_newpositions surf = pm_positions surf ->
  null_space_smooth_vertex Q CP EB threshold v c d0 surf = Ok o ->
  pm_newpositions (out_surf o) = pm_positions (out_surf o).
Proof.
  intros Hsync H.
  apply smooth_vertex_outcomes in H as [-> | (d & _ & [-> | ->])]; simpl.
  - assumption.
  - rewrite list_insert_insert_eq, Hsync. unfold get_position.
    apply insert_lookup_total_id.
  - rewrite Hsync. reflexivity.
Qed.

(** *** The caches after a call *)

Lemma initial_cache_entry_local (surf surf' : SurfTrack) (t : nat) :
  triangle_metrics_local Q ->
  m_mesh surf = m_mesh surf' ->
  (forall k, triangle_has_vertex (get_triangle (m_mesh surf) t) k ->
             get_position surf k = get_position surf' k) ->
  initial_cache_entry Q surf t = initial_cache_entry Q surf' t.
Proof.
  intros Hloc Hm Hp. unfold initial_cache_entry. rewrite <- Hm.
  destruct (Nat.eqb _ _); [reflexivity |].
  destruct (Hloc surf surf' t Hm Hp) as [-> ->].
  unfold triangle_centroid.
  rewrite !Hp by (unfold triangle_has_vertex; auto). reflexivity.
Qed.

Lemma build_caches_map (surf : SurfTrack) :
  build_caches Q surf
  = mkCaches
      (map (fun i => (initial_cache_entry Q surf i).1.1)
           (seq 0 (num_triangles (m_mesh surf))))
      (map (fun i => (initial_cache_entry Q surf i).1.2)
           (seq 0 (num_triangles (m_mesh surf))))
      (map (fun i => (initial_cache_entry Q surf i).2)
           (seq 0 (num_triangles (m_mesh surf)))).
Proof. unfold build_caches. rewrite build_caches_fold. reflexivity. Qed.

Lemma build_caches_ext (surf surf' : SurfTrack) :
  m_mesh surf = m_mesh surf' ->
  (forall t, (t < num_triangles (m_mesh surf))%nat ->
             initial_cache_entry Q surf t = initial_cache_entry Q surf' t) ->
  build_caches Q surf = build_caches Q surf'.
Proof.
  intros Hm He. rewrite !build_caches_map, <- Hm.
  f_equal; apply map_ext_in; intros t Ht; apply in_seq in Ht;
    rewrite He by lia; reflexivity.
Qed.

(** Indexed writes of [f t] for [t] in [ts] turn the table of [g] into the
    table of [f] when the two agree outside [ts]. *)
Lemma fold_insert_rebuild {A : Type} (f g : nat -> A) (ts : list nat)
    (n : nat) :
  (forall t, (t < n)%nat -> t ∉ ts -> g t = f t) ->
  fold_left (fun a t => <[t := f t]> a) ts (map g (seq 0 n))
  = map f (seq 0 n).
Proof.
  intros Hg. apply list_eq. intros i.
  destruct (decide (i < n)%nat) as [Hi | Hi].
  - destruct (decide (i ∈ ts)) as [Hin | Hin].
    + rewrite fold_insert_lookup
        by (try assumption; rewrite length_map, length_seq; assumption).
      rewrite list_lookup_fmap, lookup_seq_lt by assumption. reflexivity.
    + rewrite fold_insert_lookup_notin by assumption.
      rewrite !list_lookup_fmap, !lookup_seq_lt by assumption. simpl.
      rewrite Hg by assumption. reflexivity.
  - rewrite !lookup_ge_None_2; [reflexivity | |].
    + rewrite length_map, length_seq. lia.
    + rewrite fold_insert_length, length_map, length_seq. lia.
Qed.

Lemma call_refresh_rebuilds (surf : SurfTrack) (v : nat)
    (c : Caches) (d0 : Vec3d) (o : Outcome) :
  triangle_metrics_local Q ->
  incident_map_complete (m_mesh surf) v ->
  c = build_caches Q surf ->
  null_space_smooth_vertex Q CP EB threshold v c d0 surf = Ok o ->
  out_caches o = build_caches Q (out_surf o).
Proof.
  intros Hloc Hinc -> H.
  apply smooth_vertex_outcomes in H as [-> | (d & _ & [-> | ->])]; simpl.
  - reflexivity.
  - apply build_caches_ext; [reflexivity |]. intros t _.
    apply initial_cache_entry_local; [assumption | reflexivity |].
    intros k _. reflexivity.
  - set (moved := set_position (stage_move surf v d) v
                               (get_position surf v + d)%vec).
    assert (Hm : m_mesh moved = m_mesh surf) by reflexivity.
    assert (He : forall t, (t < num_triangles (m_mesh surf))%nat ->
                 t ∉ m_vertex_to_triangle_map (m_mesh surf) !!! v ->
                 initial_cache_entry Q surf t = initial_cache_entry Q moved t).
    { intros t Ht Hn. apply initial_cache_entry_local;
        [assumption | symmetry; exact Hm |].
      intros k Hk. unfold get_position, moved; simpl.
      rewrite list_lookup_total_insert_ne; [reflexivity |].
      intros <-. apply Hn, Hinc; assumption. }
    rewrite refresh_caches_fold, (build_caches_map surf),
      (build_caches_map moved), Hm. simpl.
    f_equal; apply fold_insert_rebuild; intros t Ht Hn;
      rewrite (He t Ht Hn); reflexivity.
Qed.

(** X6.  When the area and the normal the surface reports for a triangle
    depend on the positions of its own three vertices only, and the
    vertex-to-triangle map of [v] lists every triangle that has [v] as a
    vertex, a call on [v] that starts from the caches of a full build ends
    with the caches a full build on the surface it leaves would give: the
    refresh of the incident triangles after a committed move misses
    nothing. *)
Theorem refreshed_caches_equal_rebuilt (surf : SurfTrack) (v : nat)
    (c : Caches) (d0 : Vec3d) (o : Outcome) :
  triangle_metrics_local Q ->
  incident_map_complete (m_mesh surf) v ->
  c = build_caches Q surf ->
  null_space_smooth_vertex Q CP EB threshold v c d0 surf = Ok o ->
  out_caches o = build_caches Q (out_surf o).
Proof. apply call_refresh_rebuilds. Qed.

(** ** What a pass keeps *)

Lemma foldM_preserves {A S : Type} (P : S -> Prop) (f : S -> A -> result S)
    (l : list A) (s s' : S) :
  (forall s a s', P s -> f s a = Ok s' -> P s') ->
  P s -> foldM f l s = Ok s' -> P s'.
Proof.
  intros Hf. revert s. induction l as [| a l IH]; intros s Hs H; simpl in H.
  - congruence.
  - destruct (f s a) as [s1 | e] eqn:E; [| discriminate]. simpl in H.
    apply (IH s1); [apply (Hf s a s1) |]; assumption.
Qed.

(** What holds of the state before a pass and is kept by every call of
    [null_space_smooth_vertex] on a vertex that is not all solid, holds of
    the state the pass ends in, in either mode. *)
Lemma pass_invariant (P : PassState -> Prop) (dt : R) (surf : SurfTrack)
    (b : bool) (s : PassState) :
  (forall s v o,
     P s ->
     vertex_is_all_solid Q (ps_surf s) v = false ->
     null_space_smooth_vertex Q CP EB threshold v (ps_caches s)
       (ps_displacements s !!! v) (ps_surf s) = Ok o ->
     P (mkPassState (out_surf o) (out_caches o)
                    (<[v := out_displacement o]> (ps_displacements s))
                    (Rmax (ps_max_displacement s)
                          (Vec.mag (out_displacement o))))) ->
  P (mkPassState surf (build_caches Q surf)
                 (replicate (get_num_vertices surf) Vec.zero) (/ 10 ^ 30)) ->
  null_space_smoothing_pass Q CP EB threshold dt surf = Ok (b, s) ->
  P s.
Proof.
  intros Hstep H0 H.
  assert (Hrec : forall s v s', P s ->
            vertex_is_all_solid Q (ps_surf s) v = false ->
            smooth_and_record Q CP EB threshold s v = Ok s' -> P s').
  { intros s1 v s2 H1 Hsolid E. unfold smooth_and_record in E.
    destruct (null_space_smooth_vertex _ _ _ _ _ _ _ _) as [o | e] eqn:Eo;
      [| discriminate].
    simpl in E. injection E as <-. apply Hstep; assumption. }
  unfold null_space_smoothing_pass in H. cbv zeta in H.
  destruct (negb (m_aggressive_mode surf)).
  - destruct (standard_sweep _ _ _ _ _) as [s1 | e] eqn:E; [| discriminate].
    simpl in H. injection H as _ <-.
    unfold standard_sweep in E.
    eapply (foldM_preserves P); [| | exact E]; [| exact H0].
    intros s2 v s3 H2 E2. simpl in E2.
    destruct (vertex_is_all_solid Q (ps_surf s2) v) eqn:Es; simpl in E2.
    + congruence.
    + apply (Hrec s2 v); assumption.
  - destruct (aggressive_sweep _ _ _ _ _) as [st | e] eqn:E; [| discriminate].
    simpl in H. injection H as _ <-.
    unfold aggressive_sweep in E.
    eapply (foldM_preserves (fun st : PassState * list bool => P st.1));
      [| | exact E]; [| exact H0].
    intros st1 i st2 H1 E1. cbv beta zeta in E1.
    destruct (triangle_has_bad_angle _ _ _ _ _); [| congruence].
    eapply (foldM_preserves (fun st : PassState * list bool => P st.1));
      [| | exact E1]; [| exact H1].
    intros st3 v st4 H3 E3. simpl in E3.
    destruct (vertex_is_all_solid Q (ps_surf st3.1) v) eqn:Es; simpl in E3;
      [congruence |].
    destruct (negb (st3.2 !!! v)); [| congruence].
    destruct (smooth_and_record _ _ _ _ _ _) as [s5 | e] eqn:E5;
      [| discriminate].
    simpl in E3. injection E3 as <-. simpl. apply (Hrec st3.1 v); assumption.
Qed.

(** X7.  A pass that returns, in either mode, leaves the mesh, the settings
    and the sizes of the position vectors as they were; and when the staged
    positions equal the committed ones before the pass, they do after
    it. *)
Theorem pass_keeps_mesh_and_settings (dt : R) (surf : SurfTrack) (b : bool)
    (s : PassState) :
  null_space_smoothing_pass Q CP EB threshold dt surf = Ok (b, s) ->
  same_mesh_and_settings surf (ps_surf s) /\
  (pm_newpositions surf = pm_positions surf ->
   pm_newpositions (ps_surf s) = pm_positions (ps_surf s)).
Proof.
  intros H.
  apply (pass_invariant
           (fun s => same_mesh_and_settings surf (ps_surf s) /\
                     (pm_newpositions surf = pm_positions surf ->
                      pm_newpositions (ps_surf s) = pm_positions (ps_surf s)))
           dt surf b s); [| | exact H].
  - intros s1 v o [Hm Hs] _ Ho. simpl. split.
    + eapply same_mesh_and_settings_trans; [exact Hm |].
      exact (call_keeps_mesh_and_settings _ _ _ _ _ Ho).
    + intros H0. eapply call_keeps_positions_in_step; [| exact Ho].
      auto.
  - simpl. split; [apply same_mesh_and_settings_refl | auto].
Qed.

(** X8.  A pass that returns, in either mode, never moves a vertex that is
    deleted, has no incident triangle, has a boundary edge, or is all solid
    on every surface with this mesh and these settings: its committed and
    its staged position are the ones it had before the pass. *)
Theorem pass_never_moves_a_pinned_vertex (dt : R) (surf : SurfTrack)
    (b : bool) (s : PassState) (w : nat) :
  vertex_is_deleted Q (m_mesh surf) w = true \/
  m_vertex_to_triangle_map (m_mesh surf) !!! w = [] \/
  has_boundary_edge (m_mesh surf) w = true \/
  (forall surf', same_mesh_and_settings surf surf' ->
                 vertex_is_all_solid Q surf' w = true) ->
  null_space_smoothing_pass Q CP EB threshold dt surf = Ok (b, s) ->
  get_position (ps_surf s) w = get_position surf w /\
  get_newposition (ps_surf s) w = get_newposition surf w.
Proof.
  intros Hpin H.
  apply (pass_invariant
           (fun s => same_mesh_and_settings surf (ps_surf s) /\
                     get_position (ps_surf s) w = get_position surf w /\
                     get_newposition (ps_surf s) w = get_newposition surf w)
           dt surf b s) in H; [tauto | |].
  - intros s1 v o (Hm & Hp & Hn) Hsolid Ho. simpl.
    pose proof (call_keeps_mesh_and_settings _ _ _ _ _ Ho) as Hm'.
    split; [eapply same_mesh_and_settings_trans; eassumption |].
    destruct (decide (w = v)) as [-> | Hne].
    + assert (He : eligible Q (ps_surf s1) v = false).
      { pose proof Hm as (Hmesh & _). unfold eligible. rewrite Hmesh.
        destruct Hpin as [Hd | [Hnil | [Hb | Hsol]]].
        - rewrite Hd. reflexivity.
        - rewrite Hnil. simpl. apply andb_false_r.
        - rewrite Hb. simpl. rewrite andb_false_r. reflexivity.
        - rewrite (Hsol _ Hm) in Hsolid. discriminate. }
      rewrite smooth_vertex_ineligible in Ho by assumption.
      injection Ho as <-. simpl. auto.
    + destruct (call_keeps_other_vertices _ _ _ _ _ w Ho Hne) as [-> ->].
      auto.
  - simpl. split; [apply same_mesh_and_settings_refl | auto].
Qed.

(** X9.  When the area and the normal the surface reports for a triangle
    depend on the positions of its own three vertices only, and the
    vertex-to-triangle map lists for every vertex every triangle that has
    it as a vertex, the caches a pass ends with are the caches a full build
    on the surface it leaves would give: no call of the pass reads a stale
    area, normal or centroid. *)
Theorem pass_caches_equal_rebuilt (dt : R) (surf : SurfTrack) (b : bool)
    (s : PassState) :
  triangle_metrics_local Q ->
  (forall v, incident_map_complete (m_mesh surf) v) ->
  null_space_smoothing_pass Q CP EB threshold dt surf = Ok (b, s) ->
  ps_caches s = build_caches Q (ps_surf s).
Proof.
  intros Hloc Hinc H.
  apply (pass_invariant
           (fun s => m_mesh (ps_surf s) = m_mesh surf /\
                     ps_caches s = build_caches Q (ps_surf s))
           dt surf b s) in H; [tauto | |].
  - intros s1 v o (Hm & Hc) _ Ho. simpl. split.
    + pose proof (call_keeps_mesh_and_settings _ _ _ _ _ Ho) as (Hm' & _).
      congruence.
    + eapply call_refresh_rebuilds; [exact Hloc | | exact Hc | exact Ho].
      rewrite Hm. apply Hinc.
  - simpl. auto.
Qed.

Lemma foldM_cons {A S : Type} (f : S -> A -> result S) (a : A) (l : list A)
    (s : S) :
  foldM f (a :: l) s = (s' ← f s a; foldM f l s').
Proof. reflexivity. Qed.

(** Once every vertex is all solid or already smoothed, the aggressive
    sweep changes nothing more. *)
Lemma aggressive_vertices_settled (st : PassState * list bool)
    (vs : list nat) :
  (forall v, vertex_is_all_solid Q (ps_surf st.1) v = true \/
             st.2 !!! v = true) ->
  foldM
    (fun (st : PassState * list bool) v =>
       if negb (vertex_is_all_solid Q (ps_surf st.1) v) &&
          negb (st.2 !!! v)
       then
         s' ← smooth_and_record Q CP EB threshold st.1 v;
         Ok (s', <[v := true]> st.2)
       else Ok st)
    vs st
  = Ok st.
Proof.
  intros H. induction vs as [| v vs IH]; simpl; [reflexivity |].
  destruct (H v) as [-> | ->]; simpl; rewrite ?andb_false_r; exact IH.
Qed.

Lemma aggressive_triangles_settled (st : PassState * list bool)
    (l : list nat) :
  (forall v, vertex_is_all_solid Q (ps_surf st.1) v = true \/
             st.2 !!! v = true) ->
  foldM
    (fun (st : PassState * list bool) i =>
       let surf := ps_surf st.1 in
       let tri := m_tris (m_mesh surf) !!! i in
       if triangle_has_bad_angle Q surf (m_min_angle_cosine surf)
                                 (m_max_angle_cosine surf) i
       then
         foldM
           (fun (st : PassState * list bool) v =>
              if negb (vertex_is_all_solid Q (ps_surf st.1) v) &&
                 negb (st.2 !!! v)
              then
                s' ← smooth_and_record Q CP EB threshold st.1 v;
                Ok (s', <[v := true]> st.2)
              else Ok st)
           [tri0 tri; tri1 tri; tri2 tri] st
       else Ok st)
    l st
  = Ok st.
Proof.
  intros H. induction l as [| i l IH]; [reflexivity |].
  rewrite foldM_cons. cbv beta zeta.
  destruct (triangle_has_bad_angle _ _ _ _ _).
  - rewrite aggressive_vertices_settled by assumption. exact IH.
  - exact IH.
Qed.

End CallProperties.

(** ** The displacement synthesizers *)

Lemma dot_div_l (a n : Vec3d) (s : R) :
  Vec.dot (a / s) n = Vec.dot a n / s.
Proof. unfold Vec.dot, Vec.div, Rdiv; simpl. ring. Qed.

(** The projector built from [T] sends [x] to the sum of its components
    along the vectors of [T]. *)
Lemma projection_dot (T : list Vec3d) (x n : Vec3d) :
  Vec.dot (Mat.mulv (null_space_projection T) x) n
  = fold_left (fun acc t => acc + Vec.dot t x * Vec.dot t n) T 0.
Proof.
  induction T as [| t T IH] using rev_ind.
  - unfold null_space_projection, Mat.mulv, Mat.build, Vec.dot; simpl. ring.
  - rewrite fold_left_app. simpl. rewrite <- IH.
    unfold null_space_projection, Mat.mulv, Mat.build, Vec.dot.
    rewrite !fold_left_app. simpl. ring.
Qed.

Lemma projection_dot_zero (T : list Vec3d) (x n : Vec3d) :
  (forall t, t ∈ T -> Vec.dot t n = 0) ->
  Vec.dot (Mat.mulv (null_space_projection T) x) n = 0.
Proof.
  intros H. rewrite projection_dot.
  assert (G : forall a, fold_left
            (fun acc t => acc + Vec.dot t x * Vec.dot t n) T a = a).
  { induction T as [| t T IH]; intros a; simpl; [reflexivity |].
    rewrite IH by (intros u Hu; apply H; right; assumption).
    rewrite (H t) by left. ring. }
  apply G.
Qed.

Lemma projection_single (e x : Vec3d) :
  Mat.mulv (null_space_projection [e]) x = (Vec.dot e x * e)%vec.
Proof.
  unfold null_space_projection, Mat.mulv, Mat.build, Vec.dot.
  apply vec_eq; simpl; ring.
Qed.

Section SynthesizerProperties.

Context (Q : SurfaceQueries) (EB : EigenBackend).

Lemma null_space_basis_elem (es : EigenSolver) (t : Vec3d) :
  t ∈ null_space_basis EB es ->
  exists j, (j < 3)%nat /\ t = eigenvectors_col es j /\
    Vec.get (eigenvalues es) j
      < G_EIGENVALUE_RANK_RATIO EB * eig_max_of (eigenvalues es).
Proof.
  unfold null_space_basis. cbn [flat_map]. rewrite app_nil_r.
  intros H. rewrite !elem_of_app in H.
  destruct H as [H | [H | H]];
    match type of H with
    | _ ∈ (if Rltb ?a ?b then _ else _) =>
        destruct (Rltb a b) eqn:E; [| inversion H];
        apply Rltb_true_iff in E; apply list_elem_of_singleton in H
    end.
  - exists 0%nat. auto.
  - exists 1%nat. auto.
  - exists 2%nat. auto.
Qed.

(** X10.  When the eigenvectors the solver returns for the quadric are
    pairwise orthogonal and the area sum is not zero, the displacement of
    get_smoothing_displacement has no component along any eigenvector
    whose eigenvalue is at least the rank ratio times the largest
    eigenvalue: the vertex moves in the null space only. *)
Theorem null_space_displacement_avoids_range_space (surf : SurfTrack)
    (v : nat) (triangles : list nat) (c : Caches) (i : nat) :
  (forall j k, (j < 3)%nat -> (k < 3)%nat -> j <> k ->
     Vec.dot (eigenvectors_col (quadric_eigen EB triangles c) j)
             (eigenvectors_col (quadric_eigen EB triangles c) k) = 0) ->
  (i < 3)%nat ->
  G_EIGENVALUE_RANK_RATIO EB
    * eig_max_of (eigenvalues (quadric_eigen EB triangles c))
    <= Vec.get (eigenvalues (quadric_eigen EB triangles c)) i ->
  (weighted_centroid_offsets surf v triangles c).2 <> 0 ->
  Vec.dot (get_smoothing_displacement EB surf v triangles c)
          (eigenvectors_col (quadric_eigen EB triangles c) i) = 0.
Proof.
  intros Horth Hi Hrange _. unfold get_smoothing_displacement.
  destruct (weighted_centroid_offsets surf v triangles c) as [t sum_areas].
  rewrite dot_div_l, projection_dot_zero; [unfold Rdiv; ring |].
  intros u Hu. apply null_space_basis_elem in Hu as (j & Hj & -> & Hlt).
  apply Horth; [assumption | assumption |]. intros ->. lra.
Qed.

Lemma ridge_basis_single (surf : SurfTrack) (v : nat) (c : Caches)
    (es : EigenSolver) :
  (vertex_feature_edge_count Q surf v (triangle_normals c) = 1 \/
   vertex_feature_edge_count Q surf v (triangle_normals c) = 2)%Z ->
  exists e, ridge_basis Q surf v c es
              (vertex_feature_edge_count Q surf v (triangle_normals c))
            = Ok [e].
Proof.
  intros Hfc. unfold ridge_basis.
  destruct (ridge_well_conditioned es); [eauto |].
  destruct Hfc as [H | H].
  - rewrite H. simpl. unfold vertex_feature_edge_count in H.
    destruct (length_one_inv (feature_edges Q surf v (triangle_normals c)))
      as [e ->]; [lia |]. simpl. eauto.
  - rewrite H. simpl. eauto.
Qed.

(** X11.  At a vertex with one or two feature edges, when the eigen-solver
    succeeded and the area sum is not zero, the dihedral-aware policy
    returns a multiple of the one ridge direction [e] it chose: the
    component along [e] of the area-weighted mean centroid offset, times
    [e].  A ridge vertex slides along its ridge. *)
Theorem ridge_vertex_slides_along_ridge (surf : SurfTrack) (v : nat)
    (triangles : list nat) (c : Caches) :
  (vertex_feature_edge_count Q surf v (triangle_normals c) = 1 \/
   vertex_feature_edge_count Q surf v (triangle_normals c) = 2)%Z ->
  es_success (quadric_eigen EB triangles c) = true ->
  (weighted_centroid_offsets surf v triangles c).2 <> 0 ->
  exists e,
    ridge_basis Q surf v c (quadric_eigen EB triangles c)
      (vertex_feature_edge_count Q surf v (triangle_normals c)) = Ok [e] /\
    get_smoothing_displacement_dihedral Q EB surf v triangles c
    = Ok (Vec.dot e ((weighted_centroid_offsets surf v triangles c).1
                     / (weighted_centroid_offsets surf v triangles c).2)
          * e)%vec.
Proof.
  intros Hfc Hes _.
  destruct (ridge_basis_single surf v c (quadric_eigen EB triangles c) Hfc)
    as [e He].
  exists e. split; [exact He |].
  unfold get_smoothing_displacement_dihedral. cbv zeta.
  rewrite He, Hes.
  destruct (_ >=? 3)%Z eqn:E3; [lia |].
  destruct (_ =? 0)%Z eqn:E0; [lia |].
  simpl. f_equal. unfold ridge_displacement.
  destruct (weighted_centroid_offsets surf v triangles c) as [t sum_areas].
  rewrite projection_single. simpl.
  unfold Vec.dot, Vec.div, Vec.scale, Rdiv. apply vec_eq; simpl; ring.
Qed.

End SynthesizerProperties.

Lemma weighted_centroid_offsets_fst (surf : SurfTrack) (v : nat)
    (triangles : list nat) (c : Caches) (t0 W0 : Vec3d) (s0 : R) :
  t0 = (W0 - s0 * get_position surf v)%vec ->
  (fold_left
     (fun acc tri =>
        let area := triangle_areas c !!! tri in
        let sum_areas := acc.2 + area in
        let off := (triangle_centroids c !!! tri - get_position surf v)%vec in
        ((acc.1 + area * off)%vec, sum_areas))
     triangles (t0, s0)).1
  = Vec.sub
      (fold_left
         (fun acc t =>
            (acc + triangle_areas c !!! t * triangle_centroids c !!! t)%vec)
         triangles W0)
      (Vec.scale
         (fold_left (fun s t => s + triangle_areas c !!! t) triangles s0)
         (get_position surf v)).
Proof.
  revert t0 W0 s0.
  induction triangles as [| tri l IH]; intros t0 W0 s0 H; simpl.
  - exact H.
  - apply IH. rewrite H. apply vec_eq; simpl; ring.
Qed.

(** X12.  When the area sum is not zero, the naive Laplacian displacement
    takes the vertex to the area-weighted mean of the cached centroids of
    the triangle set. *)
Theorem naive_displacement_reaches_weighted_centroid (surf : SurfTrack)
    (v : nat) (triangles : list nat) (c : Caches) :
  (weighted_centroid_offsets surf v triangles c).2 <> 0 ->
  (get_position surf v
   + get_smoothing_displacement_naive surf v triangles c)%vec
  = area_weighted_centroid c triangles.
Proof.
  intros Hs.
  assert (H1 : (weighted_centroid_offsets surf v triangles c).1
               = Vec.sub
                   (fold_left
                      (fun acc t =>
                         (acc + triangle_areas c !!! t
                                * triangle_centroids c !!! t)%vec)
                      triangles Vec.zero)
                   (Vec.scale
                      (fold_left (fun s t => s + triangle_areas c !!! t)
                                 triangles 0)
                      (get_position surf v))).
  { unfold weighted_centroid_offsets. apply weighted_centroid_offsets_fst.
    apply vec_eq; simpl; ring. }
  assert (H2 : (weighted_centroid_offsets surf v triangles c).2
               = fold_left (fun s t => s + triangle_areas c !!! t)
                           triangles 0).
  { unfold weighted_centroid_offsets. apply weighted_centroid_offsets_sum. }
  unfold get_smoothing_displacement_naive, area_weighted_centroid.
  destruct (weighted_centroid_offsets surf v triangles c) as [t sum_areas].
  simpl in Hs, H1, H2. rewrite <- H2 in H1 |- *. rewrite H1.
  apply vec_eq; simpl; field; assumption.
Qed.

(** ** Where a call can fail *)

Lemma set_insert_elem (x y : Z) (s : list Z) :
  y ∈ set_insert x s -> y = x \/ y ∈ s.
Proof.
  induction s as [| z s IH]; simpl.
  - intros H. apply list_elem_of_singleton in H. auto.
  - destruct (x <? z)%Z.
    + intros H. apply elem_of_cons in H as [-> | H]; auto.
    + destruct (x =? z)%Z; [auto |].
      intros H. apply elem_of_cons in H as [-> | H].
      * right. left.
      * destruct (IH H) as [-> | Hin]; [auto | right; right; assumption].
Qed.

Lemma foldM_preserves_elem {A S : Type} (P : S -> Prop)
    (f : S -> A -> result S) (l : list A) (s s' : S) :
  (forall s a s', a ∈ l -> P s -> f s a = Ok s' -> P s') ->
  P s -> foldM f l s = Ok s' -> P s'.
Proof.
  revert s. induction l as [| a l IH]; intros s Hf Hs H; simpl in H.
  - congruence.
  - destruct (f s a) as [s1 | e] eqn:E; [| discriminate]. simpl in H.
    apply (IH s1); [| apply (Hf s a s1); [left | |]; assumption | assumption].
    intros s2 b s3 Hb. apply Hf. right. assumption.
Qed.

(** A fold fails where one of its rounds fails. *)
Lemma foldM_fault {A S : Type} (f : S -> A -> result S) (l : list A) (s : S)
    (e : fault) :
  foldM f l s = Fault e -> exists s' a, a ∈ l /\ f s' a = Fault e.
Proof.
  revert s. induction l as [| a l IH]; intros s H; simpl in H.
  - discriminate.
  - destruct (f s a) as [s1 | e1] eqn:E; simpl in H.
    + destruct (IH s1 H) as (s' & b & Hb & Hf). exists s', b.
      split; [right |]; assumption.
    + injection H as <-. exists s, a. split; [left | assumption].
Qed.

Section FaultProperties.
Context (Q : SurfaceQueries) (CP : CollisionPipeline) (EB : EigenBackend).
Variable threshold : R.

Lemma incident_regions_elem (surf : SurfTrack) (v : nat) (r : Z) :
  r ∈ incident_regions surf v ->
  exists tri, tri ∈ m_vertex_to_triangle_map (m_mesh surf) !!! v /\
              label_has_region (get_triangle_label (m_mesh surf) tri) r = true.
Proof.
  unfold incident_regions.
  assert (G : forall l acc,
    r ∈ fold_left
          (fun regions tri =>
             let region_pair := get_triangle_label (m_mesh surf) tri in
             set_insert region_pair.2 (set_insert region_pair.1 regions))
          l acc ->
    r ∈ acc \/
    exists tri, tri ∈ l /\
      label_has_region (get_triangle_label (m_mesh surf) tri) r = true).
  { induction l as [| t l IH]; intros acc H; simpl in H; [auto |].
    destruct (IH _ H) as [Hin | (tri & Ht & Hl)].
    - apply set_insert_elem in Hin as [-> | Hin].
      + right. exists t. split; [left |]. unfold label_has_region.
        rewrite Z.eqb_refl. apply orb_true_r.
      + apply set_insert_elem in Hin as [-> | Hin]; [| auto].
        right. exists t. split; [left |]. unfold label_has_region.
        rewrite Z.eqb_refl. reflexivity.
    - right. exists tri. split; [right |]; assumption. }
  intros H. destruct (G _ _ H) as [Hin | Hex]; [inversion Hin | exact Hex].
Qed.

Lemma find_sharpest_region_elem (surf : SurfTrack) (v : nat) (r : Z) (a : R) :
  find_sharpest_region Q surf v = Ok (r, a) ->
  r = (-1)%Z \/ r ∈ incident_regions surf v.
Proof.
  unfold find_sharpest_region. intros H.
  apply (foldM_preserves
           (fun best : Z * R =>
              best.1 = (-1)%Z \/ best.1 ∈ incident_regions surf v))
    in H; [exact H | | left; reflexivity].
  intros best edge best' Hb E. cbv beta in E.
  destruct (Nat.ltb 3 _); [congruence |].
  apply (foldM_preserves_elem
           (fun best : Z * R =>
              best.1 = (-1)%Z \/ best.1 ∈ incident_regions surf v))
    in E; [exact E | | exact Hb].
  intros b region b' Hin Hb1 E1. cbv beta in E1.
  destruct (region_normal_pair Q surf edge region); [| discriminate].
  simpl in E1. destruct (Rgtb _ _); injection E1 as <-; [| exact Hb1].
  right. exact Hin.
Qed.

Lemma find_sharpest_region_fault (surf : SurfTrack) (v : nat) (f : fault) :
  find_sharpest_region Q surf v = Fault f -> f = OutOfBounds.
Proof.
  unfold find_sharpest_region. intros H.
  apply foldM_fault in H as (best & edge & _ & H). cbv beta in H.
  destruct (Nat.ltb 3 _); [discriminate |].
  apply foldM_fault in H as (b & region & _ & H). cbv beta in H.
  destruct (region_normal_pair Q surf edge region) as [np | e] eqn:E.
  - simpl in H. destruct (Rgtb _ _); discriminate.
  - simpl in H. injection H as <-. unfold region_normal_pair in E.
    destruct (map _ _) as [| n0 [| n1 [| n2 l]]]; congruence.
Qed.

Lemma dihedral_fault (surf : SurfTrack) (v : nat) (triangles : list nat)
    (c : Caches) (f : fault) :
  get_smoothing_displacement_dihedral Q EB surf v triangles c = Fault f ->
  f = AssertionFailed /\ es_success (quadric_eigen EB triangles c) = false.
Proof.
  unfold get_smoothing_displacement_dihedral. cbv zeta. intros H.
  destruct (_ >=? 3)%Z eqn:E3; [discriminate |].
  destruct (es_success (quadric_eigen EB triangles c)); simpl in H;
    [| injection H as <-; auto].
  destruct (_ =? 0)%Z eqn:E0; [discriminate |].
  destruct (ridge_basis_single Q surf v c (quadric_eigen EB triangles c))
    as [e He].
  { unfold vertex_feature_edge_count in *. lia. }
  rewrite He in H. discriminate.
Qed.

Lemma select_displacement_fault (surf : SurfTrack) (v : nat) (c : Caches)
    (f : fault) :
  select_displacement Q EB threshold surf v c = Fault f ->
  m_aggressive_mode surf = false /\
  (find_sharpest_region Q surf v = Fault f \/
   get_smoothing_displacement_dihedral Q EB surf v
     (m_vertex_to_triangle_map (m_mesh surf) !!! v) c = Fault f).
Proof.
  unfold select_displacement. cbv zeta. intros H.
  destruct (m_aggressive_mode surf); [discriminate |].
  split; [reflexivity |].
  destruct (regularize_folded_feature Q threshold surf v c); [| auto].
  destruct (find_sharpest_region Q surf v) as [[r a] | e] eqn:Es;
    simpl in H; [| left; congruence].
  destruct (negb (r =? -1)%Z && _) eqn:Ec; [| auto].
  apply andb_true_iff in Ec as [Hr _]. apply negb_true_iff in Hr.
  apply Z.eqb_neq in Hr.
  destruct (find_sharpest_region_elem _ _ _ _ Es) as [? | Hin];
    [contradiction |].
  destruct (incident_regions_elem _ _ _ Hin) as (tri & Ht & Hl).
  destruct (List.filter _ _) as [| t0 l0] eqn:Ef; [| discriminate].
  exfalso.
  assert (Hf : tri ∈ List.filter
            (fun t => label_has_region (get_triangle_label (m_mesh surf) t) r)
            (m_vertex_to_triangle_map (m_mesh surf) !!! v)).
  { apply list_elem_of_In, filter_In. split; [apply list_elem_of_In |];
      assumption. }
  rewrite Ef in Hf. inversion Hf.
Qed.

Lemma smooth_vertex_fault (surf : SurfTrack) (v : nat) (c : Caches)
    (d0 : Vec3d) (f : fault) :
  null_space_smooth_vertex Q CP EB threshold v c d0 surf = Fault f ->
  eligible Q surf v = true /\
  select_displacement Q EB threshold surf v c = Fault f.
Proof.
  intros H. destruct (eligible Q surf v) eqn:He.
  2: { rewrite smooth_vertex_ineligible in H by assumption. discriminate. }
  split; [reflexivity |].
  rewrite smooth_vertex_eligible in H by assumption.
  destruct (select_displacement Q EB threshold surf v c) as [d1 | e];
    simpl in H; [| congruence].
  destruct (exceeds_cap _ _); [discriminate |].
  unfold guard_and_commit in H. cbv zeta in H.
  destruct (m_collision_safety (stage_move surf v _)) eqn:Es.
  - destruct (collision_check_total CP _ v Es) as [b Hb].
    rewrite Hb in H. simpl in H. destruct b; discriminate.
  - simpl in H. discriminate.
Qed.

(** X18.  A call of null_space_smooth_vertex can fail in two places only,
    both in standard mode and on a vertex that passed the eligibility
    tests: the search for the sharpest region puts a third normal into its
    two-slot array, or the eigen-solver reports failure to the
    dihedral-aware policy.  The assertion of the collision check, the
    assertion that the triangle set of the sharpest region is not empty and
    the assertion of line 687 never fail. *)
Theorem smooth_vertex_fails_only_in_two_places (surf : SurfTrack) (v : nat)
    (c : Caches) (d0 : Vec3d) (f : fault) :
  null_space_smooth_vertex Q CP EB threshold v c d0 surf = Fault f ->
  eligible Q surf v = true /\
  m_aggressive_mode surf = false /\
  ((f = OutOfBounds /\ find_sharpest_region Q surf v = Fault f) \/
   (f = AssertionFailed /\
    es_success (quadric_eigen EB
                  (m_vertex_to_triangle_map (m_mesh surf) !!! v) c)
      = false)).
Proof.
  intros H. apply smooth_vertex_fault in H as [He H].
  apply select_displacement_fault in H as [Ha [H | H]].
  - pose proof (find_sharpest_region_fault _ _ _ H). auto.
  - apply dihedral_fault in H. auto.
Qed.

Lemma aggressive_call_returns (surf : SurfTrack) (v : nat) (c : Caches)
    (d0 : Vec3d) :
  m_aggressive_mode surf = true ->
  exists o, null_space_smooth_vertex Q CP EB threshold v c d0 surf = Ok o /\
            m_aggressive_mode (out_surf o) = true.
Proof.
  intros Ha.
  destruct (null_space_smooth_vertex Q CP EB threshold v c d0 surf)
    as [o | f] eqn:E.
  - exists o. split; [reflexivity |].
    pose proof (call_keeps_mesh_and_settings _ _ _ _ _ _ _ _ _ E)
      as (_ & Hag & _).
    congruence.
  - apply smooth_vertex_fault in E as [_ E].
    apply select_displacement_fault in E as [E _]. congruence.
Qed.

(** X19.  In aggressive mode the pass returns: no assertion fails,
    whatever the mesh, the positions and the collaborators. *)
Theorem aggressive_pass_returns (dt : R) (surf : SurfTrack) :
  m_aggressive_mode surf = true ->
  exists s,
    null_space_smoothing_pass Q CP EB threshold dt surf = Ok (true, s).
Proof.
  intros Ha. unfold null_space_smoothing_pass. cbv zeta. rewrite Ha.
  cbn [negb].
  assert (Hrec : forall s v, m_aggressive_mode (ps_surf s) = true ->
            exists s', smooth_and_record Q CP EB threshold s v = Ok s' /\
                       m_aggressive_mode (ps_surf s') = true).
  { intros s v Hs. unfold smooth_and_record.
    destruct (aggressive_call_returns (ps_surf s) v (ps_caches s)
                (ps_displacements s !!! v) Hs) as (o & -> & Ho).
    simpl. eauto. }
  unfold aggressive_sweep.
  match goal with
  | |- exists s, (foldM ?f ?l ?s0 ≫= _) ≫= _ = _ =>
      destruct (foldM_invariant
                  (fun st : PassState * list bool =>
                     m_aggressive_mode (ps_surf st.1) = true) f l s0)
        as (st & -> & _)
  end.
  - intros st i Hst. cbv beta zeta.
    destruct (triangle_has_bad_angle _ _ _ _ _); [| eauto].
    apply foldM_invariant; [| exact Hst].
    intros st1 v Hst1. cbv beta.
    destruct (negb _ && negb _); [| eauto].
    destruct (Hrec st1.1 v Hst1) as (s' & -> & Hs'). simpl. eauto.
  - exact Ha.
  - simpl. eauto.
Qed.
End FaultProperties.

(** ** compute_max_timestep_quadratic_solve *)

(** [normal_alignment] is the quadratic [c + b beta + a beta^2] of the
    solve. *)
Lemma alignment_quadratic (x1 x2 x3 u1 u2 u3 : Vec3d) (beta : R) :
  normal_alignment x1 x2 x3 u1 u2 u3 beta
  = (inversion_coefficients x1 x2 x3 u1 u2 u3).2
    + (inversion_coefficients x1 x2 x3 u1 u2 u3).1.2 * beta
    + (inversion_coefficients x1 x2 x3 u1 u2 u3).1.1 * beta * beta.
Proof.
  unfold normal_alignment, inversion_coefficients, Vec.dot, Vec.cross.
  destruct x1, x2, x3, u1, u2, u3; simpl. ring.
Qed.

Lemma tiny_pos : 0 < / 10 ^ 14.
Proof. apply Rinv_0_lt_compat, pow_lt. lra. Qed.

(** The two numbers the solve calls [beta_1] and [beta_2] are the roots of
    [c + b x + a x^2]. *)
Lemma solve_factors (a b c q x : R) :
  a <> 0 -> q <> 0 -> q * q + b * q + a * c = 0 ->
  c + b * x + a * x * x = a * (x - q / a) * (x - c / q).
Proof.
  intros Ha Hq H.
  assert (Hb : b = - (q * q + a * c) / q) by (field_simplify_eq; [lra | assumption]).
  rewrite Hb. field. auto.
Qed.

Lemma solve_q (b D s : R) :
  s * s = D ->
  forall a c, D = b * b - 4 * a * c ->
  let q1 := -0.5 * (b + s) in
  let q2 := -0.5 * (b - s) in
  q1 * q1 + b * q1 + a * c = 0 /\ q2 * q2 + b * q2 + a * c = 0.
Proof. intros Hs a c HD. simpl. split; nra. Qed.

Lemma solve_beta_nonneg (a b c n beta : R) :
  solve_beta a b c n = Ok beta -> 0 <= beta.
Proof.
  unfold solve_beta, Rgtb, Rgeb. intros H.
  repeat match type of H with
  | (if ?x && ?y then _ else _) = _ =>
      destruct x eqn:?; destruct y eqn:?; cbn [andb] in H
  | (if ?x then _ else _) = _ => destruct x eqn:?
  | (let _ := _ in _) = _ => cbv zeta in H
  end;
  try discriminate; injection H as <-;
  repeat match goal with
  | E : Rltb _ _ = false |- _ => apply Rltb_false_iff in E
  | E : Rleb _ _ = true |- _ => apply Rleb_true_iff in E
  end; lra.
Qed.

Lemma sign_of_leading (a r1 r2 c : R) :
  c = a * r1 * r2 -> 0 < c ->
  (0 < r1 * r2 -> 0 < a) /\ (r1 * r2 < 0 -> a < 0).
Proof.
  intros Hc Hp. split; intros H.
  - destruct (Rlt_le_dec 0 a) as [Ha | Ha]; [assumption | exfalso].
    assert (a * (r1 * r2) <= 0) by nra. lra.
  - destruct (Rlt_le_dec a 0) as [Ha | Ha]; [assumption | exfalso].
    assert (a * (r1 * r2) <= 0) by nra. lra.
Qed.

Lemma factored_safe (a r1 r2 c beta x : R) :
  c = a * r1 * r2 -> 0 < c ->
  (r1 < 0 /\ r2 < 0) \/
  (r1 < 0 /\ 0 <= r2 /\ beta = r2) \/
  (0 <= r1 /\ r2 < 0 /\ beta = r1) \/
  (0 <= r1 /\ 0 <= r2 /\ beta <= r1 /\ beta <= r2) ->
  0 <= x <= beta ->
  0 <= a * (x - r1) * (x - r2) /\
  (x < beta -> 0 < a * (x - r1) * (x - r2)).
Proof.
  intros Hc Hp Hcase Hx.
  destruct (sign_of_leading a r1 r2 c Hc Hp) as [Hpos Hneg].
  assert (Hr1 : r1 <> 0) by (intros ->; lra).
  assert (Hr2 : r2 <> 0) by (intros ->; lra).
  destruct Hcase as [[H1 H2] | [(H1 & H2 & ->) | [(H1 & H2 & ->) | (H1 & H2 & Hb1 & Hb2)]]].
  - assert (Ha : 0 < a) by (apply Hpos; nra).
    assert (0 < (x - r1) * (x - r2)) by (apply Rmult_lt_0_compat; lra).
    rewrite Rmult_assoc. split; [left |]; intros; apply Rmult_lt_0_compat; assumption.
  - assert (Ha : a < 0) by (apply Hneg; nra).
    replace (a * (x - r1) * (x - r2)) with ((- a) * (x - r1) * (r2 - x)) by ring.
    split.
    + apply Rmult_le_pos; [apply Rmult_le_pos |]; lra.
    + intros Hlt. apply Rmult_lt_0_compat; [apply Rmult_lt_0_compat |]; lra.
  - assert (Ha : a < 0) by (apply Hneg; nra).
    replace (a * (x - r1) * (x - r2)) with ((- a) * (r1 - x) * (x - r2)) by ring.
    split.
    + apply Rmult_le_pos; [apply Rmult_le_pos |]; lra.
    + intros Hlt. apply Rmult_lt_0_compat; [apply Rmult_lt_0_compat |]; lra.
  - assert (Ha : 0 < a) by (apply Hpos; nra).
    replace (a * (x - r1) * (x - r2)) with (a * (r1 - x) * (r2 - x)) by ring.
    split.
    + apply Rmult_le_pos; [apply Rmult_le_pos |]; lra.
    + intros Hlt. apply Rmult_lt_0_compat; [apply Rmult_lt_0_compat |]; lra.
Qed.

(** What the quadratic branch of the solve knows about [q]. *)
Lemma solve_q_facts (a b c : R) :
  a <> 0 -> 0 < c -> 0 <= b * b - 4 * a * c ->
  forall q,
    q = (if Rgtb b 0 then -0.5 * (b + sqrt (b * b - 4 * a * c))
         else -0.5 * (b - sqrt (b * b - 4 * a * c))) ->
    q <> 0 /\ c = a * (q / a) * (c / q) /\
    forall x, c + b * x + a * x * x = a * (x - q / a) * (x - c / q).
Proof.
  intros Ha Hc HD q Hq.
  pose proof (sqrt_sqrt _ HD) as Hs.
  destruct (solve_q b _ _ Hs a c eq_refl) as [F1 F2]. cbv zeta in F1, F2.
  assert (F : q * q + b * q + a * c = 0)
    by (rewrite Hq; destruct (Rgtb b 0); assumption).
  assert (Hq0 : q <> 0).
  { intros E. rewrite E in F.
    assert (Hac : a * c = 0) by lra.
    apply Rmult_integral in Hac as [? | ?]; lra. }
  split; [assumption |]. split; [field; auto |].
  intros x. apply solve_factors; assumption.
Qed.

Lemma Rabs_eq_0 (a : R) : Rabs a = 0 <-> a = 0.
Proof.
  split; [| intros ->; apply Rabs_R0].
  intros H. destruct (Req_dec a 0) as [E | E]; [assumption |].
  apply Rabs_no_R0 in E. contradiction.
Qed.

Lemma solve_beta_safe (a b c n beta x : R) :
  / 10 ^ 14 < c ->
  solve_beta a b c n = Ok beta ->
  0 <= x <= beta ->
  0 <= c + b * x + a * x * x /\ (x < beta -> 0 < c + b * x + a * x * x).
Proof.
  pose proof tiny_pos as Ht. intros Hc H Hx.
  unfold solve_beta in H.
  destruct (Reqb (Rabs a) 0) eqn:Ea.
  - apply Reqb_true_iff in Ea. apply (proj1 (Rabs_eq_0 a)) in Ea. subst a.
    replace (c + b * x + 0 * x * x) with (c + b * x) by ring.
    unfold Rgtb, Rgeb in H.
    destruct (Rltb (/ 10 ^ 14) (Rabs b)) eqn:Eb; cbn [andb] in H.
    + apply Rltb_true_iff in Eb.
      assert (Hb0 : b <> 0) by (intros ->; rewrite Rabs_R0 in Eb; lra).
      destruct (Rleb 0 (- c / b)) eqn:Er; injection H as <-.
      * apply Rleb_true_iff in Er.
        assert (Hneg : b < 0).
        { destruct (Rlt_le_dec b 0) as [? | Hb]; [assumption | exfalso].
          assert (0 < b) by lra.
          assert (- c / b < 0).
          { unfold Rdiv. apply Rmult_neg_pos; [lra |].
            apply Rinv_0_lt_compat. assumption. }
          lra. }
        assert (E : - c / b * b = - c) by (field; assumption).
        split; [| intros Hlt]; nra.
      * apply Rleb_false_iff in Er.
        assert (Hpos : 0 < b).
        { destruct (Rlt_le_dec 0 b) as [? | Hb]; [assumption | exfalso].
          assert (b < 0) by lra.
          assert (0 < - c / b).
          { unfold Rdiv. apply Rmult_neg_neg; [lra |].
            apply Rinv_lt_0_compat. assumption. }
          lra. }
        split; [| intros _]; nra.
    + injection H as <-. apply Rltb_false_iff in Eb.
      assert (Hb : - / 10 ^ 14 <= b).
      { unfold Rabs in Eb. destruct (Rcase_abs b); lra. }
      split; [| intros _]; nra.
  - apply Reqb_false_iff in Ea.
    assert (Ha : a <> 0) by (intros ->; apply Ea, Rabs_R0).
    cbv zeta in H.
    destruct (Rltb (b * b - 4 * a * c) 0) eqn:ED.
    + injection H as <-. apply Rltb_true_iff in ED.
      assert (0 < a).
      { destruct (Rlt_le_dec 0 a) as [? | ?]; [assumption | exfalso]. nra. }
      assert (0 < 4 * a * (c + b * x + a * x * x)).
      { replace (4 * a * (c + b * x + a * x * x))
          with ((2 * a * x + b) * (2 * a * x + b) - (b * b - 4 * a * c))
          by ring.
        pose proof (Rle_0_sqr (2 * a * x + b)) as Hsq. unfold Rsqr in Hsq.
        lra. }
      assert (0 < c + b * x + a * x * x) by nra.
      split; [left |]; auto.
    + apply Rltb_false_iff in ED.
      match type of H with
      | context [Rltb (?q / a) 0] =>
          destruct (solve_q_facts a b c Ha ltac:(lra) ED q eq_refl)
            as (Hq0 & Hprod & Hfac);
          remember q as q' eqn:Eq'
      end.
      rewrite Hfac.
      apply (factored_safe a (q' / a) (c / q') c beta x);
        [assumption | lra | | assumption].
      destruct (Rltb (q' / a) 0) eqn:E1;
        [apply Rltb_true_iff in E1 | apply Rltb_false_iff in E1];
        (destruct (Rltb (c / q') 0) eqn:E2;
         [apply Rltb_true_iff in E2 | apply Rltb_false_iff in E2]).
      * left. auto.
      * injection H as <-. right; left. auto.
      * injection H as <-. right; right; left. auto.
      * right; right; right.
        destruct (Rltb (q' / a) (c / q')) eqn:E3;
          [apply Rltb_true_iff in E3 | apply Rltb_false_iff in E3];
          injection H as <-; repeat split; lra.
Qed.

Lemma solve_beta_total (a b c n : R) :
  0 <= c -> (0 < c + b + a -> 0 < n) ->
  exists beta, solve_beta a b c n = Ok beta.
Proof.
  intros Hc Hn. unfold solve_beta.
  destruct (Reqb (Rabs a) 0) eqn:Ea.
  { destruct (_ && _); eauto. }
  cbv zeta.
  destruct (Rltb (b * b - 4 * a * c) 0) eqn:ED; [eauto |].
  match goal with
  | |- context [Rltb (?q / a) 0] => remember q as q' eqn:Eq'
  end.
  destruct (Rltb (q' / a) 0) eqn:E1.
  2: { destruct (Rltb (c / q') 0); [eauto |].
       destruct (Rltb (q' / a) (c / q')); eauto. }
  destruct (Rltb (c / q') 0) eqn:E2; [| eauto].
  apply Rltb_true_iff in E1, E2. apply Rltb_false_iff in ED.
  apply Reqb_false_iff in Ea.
  assert (Ha : a <> 0) by (intros ->; apply Ea, Rabs_R0).
  assert (Hc0 : 0 < c).
  { destruct Hc as [? | <-]; [assumption | exfalso].
    unfold Rdiv in E2. rewrite Rmult_0_l in E2. lra. }
  destruct (solve_q_facts a b c Ha Hc0 ED q' Eq') as (Hq0 & Hprod & Hfac).
  destruct (factored_safe a (q' / a) (c / q') c 2 1 Hprod Hc0) as [_ Hlt];
    [left; auto | lra |].
  rewrite <- Hfac in Hlt.
  assert (Hp : 0 < n) by (apply Hn; lra).
  unfold Rgtb. apply Rltb_true_iff in Hp. rewrite Hp. eauto.
Qed.

Lemma dot_zero_l (a : Vec3d) : Vec.dot Vec.zero a = 0.
Proof. unfold Vec.dot; simpl. ring. Qed.

Lemma dot_zero_r (a : Vec3d) : Vec.dot a Vec.zero = 0.
Proof. unfold Vec.dot; simpl. ring. Qed.

Lemma coefficient_c (x1 x2 x3 u1 u2 u3 : Vec3d) :
  (inversion_coefficients x1 x2 x3 u1 u2 u3).2
  = Vec.mag2 (Vec.cross (x2 - x1) (x3 - x1)).
Proof. reflexivity. Qed.

Section SolveProperties.

Variable triangle_normal : Vec3d -> Vec3d -> Vec3d -> Vec3d.

Lemma triangle_beta_safe (x1 x2 x3 u1 u2 u3 : Vec3d) (beta x : R) :
  / 10 ^ 14 < Vec.mag2 (Vec.cross (x2 - x1) (x3 - x1)) ->
  triangle_beta triangle_normal x1 x2 x3 u1 u2 u3 = Ok beta ->
  0 <= x <= beta ->
  0 <= normal_alignment x1 x2 x3 u1 u2 u3 x /\
  (x < beta -> 0 < normal_alignment x1 x2 x3 u1 u2 u3 x).
Proof.
  intros Hc H Hx. rewrite alignment_quadratic.
  rewrite <- coefficient_c with (u1 := u1) (u2 := u2) (u3 := u3) in Hc.
  unfold triangle_beta in H.
  destruct (inversion_coefficients x1 x2 x3 u1 u2 u3) as [[a b] c].
  simpl in Hc |- *.
  eapply solve_beta_safe; eassumption.
Qed.

Lemma triangle_beta_nonneg (x1 x2 x3 u1 u2 u3 : Vec3d) (beta : R) :
  triangle_beta triangle_normal x1 x2 x3 u1 u2 u3 = Ok beta -> 0 <= beta.
Proof.
  unfold triangle_beta.
  destruct (inversion_coefficients x1 x2 x3 u1 u2 u3) as [[a b] c].
  apply solve_beta_nonneg.
Qed.

Lemma triangle_beta_total (x1 x2 x3 u1 u2 u3 : Vec3d) :
  normal_follows_winding triangle_normal ->
  exists beta, triangle_beta triangle_normal x1 x2 x3 u1 u2 u3 = Ok beta.
Proof.
  intros Hw. unfold triangle_beta.
  pose proof (alignment_quadratic x1 x2 x3 u1 u2 u3 1) as Hq.
  pose proof (coefficient_c x1 x2 x3 u1 u2 u3) as Hc.
  destruct (inversion_coefficients x1 x2 x3 u1 u2 u3) as [[a b] c].
  simpl in Hq, Hc. apply solve_beta_total.
  - rewrite Hc. apply mag2_nonneg.
  - intros Hpos.
    replace (c + b + a) with (normal_alignment x1 x2 x3 u1 u2 u3 1) in Hpos
      by (rewrite Hq; ring).
    unfold normal_alignment in Hpos.
    replace (Vec.cross (x2 + 1 * u2 - (x1 + 1 * u1))
                       (x3 + 1 * u3 - (x1 + 1 * u1)))%vec
      with (Vec.cross ((x2 + u2) - (x1 + u1)) ((x3 + u3) - (x1 + u1)))%vec
      in Hpos
      by (f_equal; apply vec_eq; simpl; ring).
    destruct (Hw x1 x2 x3) as (k & Hk & ->).
    { intros E. rewrite E, dot_zero_l in Hpos. lra. }
    destruct (Hw (x1 + u1) (x2 + u2) (x3 + u3))%vec as (k' & Hk' & ->).
    { intros E. rewrite E, dot_zero_r in Hpos. lra. }
    rewrite dot_scale_l, (dot_comm _ (k' * _)%vec), dot_scale_l,
      (dot_comm (Vec.cross (x2 + u2 - (x1 + u1)) (x3 + u3 - (x1 + u1)))%vec).
    apply Rmult_lt_0_compat; [assumption |].
    apply Rmult_lt_0_compat; assumption.
Qed.

Lemma timestep_step_bounds (positions displacements : list Vec3d)
    (m m' : R) (tri : Vec3st) :
  timestep_step triangle_normal positions displacements m tri = Ok m' ->
  0 <= m ->
  0 <= m' <= m /\
  (tri0 tri <> tri1 tri ->
   exists beta,
     triangle_beta triangle_normal
       (positions !!! tri0 tri) (positions !!! tri1 tri)
       (positions !!! tri2 tri)
       (displacements !!! tri0 tri) (displacements !!! tri1 tri)
       (displacements !!! tri2 tri) = Ok beta /\
     m' <= beta).
Proof.
  unfold timestep_step. intros H Hm.
  destruct (Nat.eqb (tri0 tri) (tri1 tri)) eqn:E.
  - injection H as <-. apply Nat.eqb_eq in E. split; [lra | contradiction].
  - destruct (triangle_beta _ _ _ _ _ _ _) as [beta | f] eqn:Eb;
      [| discriminate].
    simpl in H. injection H as <-.
    pose proof (triangle_beta_nonneg _ _ _ _ _ _ _ Eb) as Hb.
    destruct (Rltb beta m) eqn:El;
      [apply Rltb_true_iff in El | apply Rltb_false_iff in El].
    + split; [lra |]. intros _. exists beta. split; [reflexivity | lra].
    + split; [lra |]. intros _. exists beta. split; [reflexivity | lra].
Qed.

Lemma timestep_fold_bounds (positions displacements : list Vec3d)
    (tris : list Vec3st) (m r : R) :
  foldM (timestep_step triangle_normal positions displacements) tris m
    = Ok r ->
  0 <= m ->
  0 <= r <= m /\
  forall tri, tri ∈ tris -> tri0 tri <> tri1 tri ->
    exists beta,
      triangle_beta triangle_normal
        (positions !!! tri0 tri) (positions !!! tri1 tri)
        (positions !!! tri2 tri)
        (displacements !!! tri0 tri) (displacements !!! tri1 tri)
        (displacements !!! tri2 tri) = Ok beta /\
      r <= beta.
Proof.
  revert m. induction tris as [| t tris IH]; intros m H Hm; simpl in H.
  - injection H as <-. split; [lra |]. intros tri Hin. inversion Hin.
  - destruct (timestep_step _ _ _ m t) as [m1 | f] eqn:E1; [| discriminate].
    simpl in H.
    destruct (timestep_step_bounds _ _ _ _ _ E1 Hm) as [Hm1 Ht].
    destruct (IH m1 H ltac:(lra)) as [Hr Hrest].
    split; [lra |]. intros tri Hin Hlive.
    apply elem_of_cons in Hin as [-> | Hin].
    + destruct (Ht Hlive) as (beta & Hb & Hle). exists beta.
      split; [assumption | lra].
    + apply Hrest; assumption.
Qed.

(** X13.  The scale the solve returns lies between 0 and 1. *)
Theorem max_timestep_in_unit_interval (tris : list Vec3st)
    (positions displacements : list Vec3d) (verbose : bool) (r : R) :
  compute_max_timestep_quadratic_solve triangle_normal tris positions
    displacements verbose = Ok r ->
  0 <= r <= 1.
Proof.
  intros H. unfold compute_max_timestep_quadratic_solve in H.
  apply timestep_fold_bounds in H as [H _]; lra.
Qed.

(** X14.  The scale [r] the solve returns inverts no normal: for every
    triangle of the list that is not a placeholder and whose [c] exceeds
    the 1e-14 of line 72, and every scale [beta] between 0 and [r], the
    cross product of the edges after the vertices moved by [beta] times
    their displacements has a non-negative dot product with the one before,
    positive when [beta] is less than [r].  So the test of line 182 never
    fires for such a triangle. *)
Theorem max_timestep_inverts_no_normal (tris : list Vec3st)
    (positions displacements : list Vec3d) (verbose : bool) (r : R)
    (tri : Vec3st) (beta : R) :
  compute_max_timestep_quadratic_solve triangle_normal tris positions
    displacements verbose = Ok r ->
  tri ∈ tris ->
  tri0 tri <> tri1 tri ->
  / 10 ^ 14 < triangle_c positions tri ->
  0 <= beta <= r ->
  0 <= triangle_alignment positions displacements tri beta /\
  (beta < r -> 0 < triangle_alignment positions displacements tri beta).
Proof.
  intros H Hin Hlive Hc Hb. unfold compute_max_timestep_quadratic_solve in H.
  apply timestep_fold_bounds in H as [_ H]; [| lra].
  destruct (H tri Hin Hlive) as (b1 & Hb1 & Hle).
  unfold triangle_alignment.
  destruct (triangle_beta_safe _ _ _ _ _ _ b1 beta Hc Hb1 ltac:(lra))
    as [H0 H1].
  split; [assumption |]. intros Hlt. apply H1. lra.
Qed.

Lemma timestep_step_total (positions displacements : list Vec3d) (m : R)
    (tri : Vec3st) :
  normal_follows_winding triangle_normal ->
  exists m',
    timestep_step triangle_normal positions displacements m tri = Ok m'.
Proof.
  intros Hw. unfold timestep_step.
  destruct (Nat.eqb (tri0 tri) (tri1 tri)); [eauto |].
  destruct (triangle_beta_total
              (positions !!! tri0 tri) (positions !!! tri1 tri)
              (positions !!! tri2 tri)
              (displacements !!! tri0 tri) (displacements !!! tri1 tri)
              (displacements !!! tri2 tri) Hw) as [beta ->].
  simpl. eauto.
Qed.

(** X15.  When [triangle_normal] gives a triangle of non-zero area a
    positive multiple of the cross product of its edges, the assertion of
    line 129 holds whenever it is reached: the solve returns a scale for
    every triangle list, positions and displacements. *)
Theorem max_timestep_assertion_holds (tris : list Vec3st)
    (positions displacements : list Vec3d) (verbose : bool) :
  normal_follows_winding triangle_normal ->
  exists r,
    compute_max_timestep_quadratic_solve triangle_normal tris positions
      displacements verbose = Ok r.
Proof.
  intros Hw. unfold compute_max_timestep_quadratic_solve.
  generalize 1. induction tris as [| t tris IH]; intros m; simpl.
  - eauto.
  - destruct (timestep_step_total positions displacements m t Hw) as [m' ->].
    simpl. apply IH.
Qed.

Lemma solve_beta_at_rest (c n : R) : solve_beta 0 0 c n = Ok 1.
Proof.
  unfold solve_beta. rewrite Rabs_R0.
  replace (Reqb 0 0) with true by (symmetry; apply Reqb_true_iff; reflexivity).
  replace (Rgtb 0 (/ 10 ^ 14)) with false
    by (symmetry; apply Rltb_false_iff; left; apply tiny_pos).
  reflexivity.
Qed.

Lemma timestep_step_at_rest (positions displacements : list Vec3d)
    (tri : Vec3st) :
  (forall i, displacements !!! i = Vec.zero) ->
  timestep_step triangle_normal positions displacements 1 tri = Ok 1.
Proof.
  intros Hz. unfold timestep_step.
  destruct (Nat.eqb (tri0 tri) (tri1 tri)); [reflexivity |].
  rewrite !Hz. unfold triangle_beta, inversion_coefficients.
  match goal with
  | |- context [solve_beta ?a ?b] =>
      replace a with 0 by (unfold Vec.dot, Vec.cross; simpl; ring);
      replace b with 0 by (unfold Vec.dot, Vec.cross; simpl; ring)
  end.
  rewrite solve_beta_at_rest. simpl.
  replace (Rltb 1 1) with false by (symmetry; apply Rltb_false_iff; lra).
  reflexivity.
Qed.

(** X16.  When every displacement is zero the solve returns the full
    step 1, whatever the triangles. *)
Theorem motionless_mesh_gets_full_step (tris : list Vec3st)
    (positions displacements : list Vec3d) (verbose : bool) :
  (forall i, displacements !!! i = Vec.zero) ->
  compute_max_timestep_quadratic_solve triangle_normal tris positions
    displacements verbose = Ok 1.
Proof.
  intros Hz. unfold compute_max_timestep_quadratic_solve.
  induction tris as [| t tris IH]; simpl; [reflexivity |].
  rewrite timestep_step_at_rest by assumption. exact IH.
Qed.

Lemma timestep_step_placeholder (positions displacements : list Vec3d)
    (m : R) (tri : Vec3st) :
  Nat.eqb (tri0 tri) (tri1 tri) = true ->
  timestep_step triangle_normal positions displacements m tri = Ok m.
Proof. intros E. unfold timestep_step. rewrite E. reflexivity. Qed.

(** X17.  Placeholder triangles, those with [tri[0] == tri[1]], do not
    limit the step: the solve on the list without them gives what the
    solve on the whole list gives, a fault included. *)
Theorem placeholder_triangles_do_not_limit_the_step (tris : list Vec3st)
    (positions displacements : list Vec3d) (verbose : bool) :
  compute_max_timestep_quadratic_solve triangle_normal
    (List.filter (fun tri => negb (Nat.eqb (tri0 tri) (tri1 tri))) tris)
    positions displacements verbose
  = compute_max_timestep_quadratic_solve triangle_normal tris positions
      displacements verbose.
Proof.
  unfold compute_max_timestep_quadratic_solve. generalize 1.
  induction tris as [| t tris IH]; intros m; simpl; [reflexivity |].
  destruct (Nat.eqb (tri0 t) (tri1 t)) eqn:E; simpl.
  - rewrite timestep_step_placeholder by assumption. apply IH.
  - destruct (timestep_step _ _ _ m t); simpl; [apply IH | reflexivity].
Qed.

End SolveProperties.

(** * The properties on the fixtures *)

(** Structural evaluation: projections, list lookups and vector operations
    are unfolded; real arithmetic is left in place for [lra] and [field]. *)
Ltac fx_cbn :=
  unfold Fixture.flat_surf, Fixture.collinear_surf, Fixture.plain_queries,
    Fixture.corner_queries, Fixture.free_corner_queries,
    Fixture.solid_z_queries, Fixture.ridge_queries,
    Fixture.quiet_pipeline, Fixture.adjacent_pipeline,
    Fixture.disjoint_pipeline, Fixture.fold_threshold;
  cbn [vx vy vz Vec.add Vec.sub Vec.scale Vec.div Vec.dot Vec.cross Vec.mag2
       Vec.get Vec.set Vec.zero fst snd
       tri0 tri1 tri2 get_triangle get_position get_newposition
       lookup_total list_lookup_total
       m_tris m_edges m_mesh m_vertex_to_triangle_map m_vertex_to_edge_map
       m_edge_to_triangle_map m_triangle_labels
       pm_positions pm_newpositions m_aggressive_mode m_collision_safety
       m_max_edge_length m_improve_collision_epsilon
       triangle_areas triangle_normals triangle_centroids
       Fixture.sliver_surf Fixture.sliver_positions Fixture.tetra_mesh
       Fixture.flat_p3 Fixture.collinear_p3 Fixture.flat_caches
       Fixture.regular_surf Fixture.regular_positions
       Fixture.queries Fixture.pipeline Fixture.backend
       triangle_angle_cosines get_triangle_area get_triangle_normal
       vertex_is_solid_3 vertex_is_deleted edge_is_feature
       get_largest_dihedral get_triangle_normal_by_region vertex_is_all_solid
       check_edge_edge_proximity check_point_triangle_proximity any_collision
       add_triangle_candidates add_point_candidates add_edge_candidates
       es_compute G_EIGENVALUE_RANK_RATIO Nat.eqb].

Ltac fx_eval :=
  fx_cbn;
  unfold Fixture.ref_area, Fixture.ref_normal, Fixture.ref_cross,
    Fixture.ref_angle_cosines, solidity_mask;
  fx_cbn.

Ltac fx_real := unfold Vec.mag2, Vec.dot; fx_eval; lra.

(** ** Magnitudes and angles *)

Lemma mag_of_square (a : Vec3d) (m : R) :
  0 <= m -> Vec.mag2 a = m * m -> Vec.mag a = m.
Proof. intros Hm H. unfold Vec.mag. rewrite H. apply sqrt_square. assumption. Qed.

Lemma normalized_of_square (a : Vec3d) (m : R) :
  0 <= m -> Vec.mag2 a = m * m -> Vec.normalized a = (a / m)%vec.
Proof. intros Hm H. unfold Vec.normalized. rewrite (mag_of_square a m); auto. Qed.

Lemma mag_le (a : Vec3d) (m : R) :
  0 <= m -> Vec.mag2 a <= m * m -> Vec.mag a <= m.
Proof.
  intros Hm H. unfold Vec.mag. rewrite <- (sqrt_square m) by assumption.
  apply sqrt_le_1_alt. assumption.
Qed.

Lemma mag_gt (a : Vec3d) (m : R) :
  0 <= m -> m * m < Vec.mag2 a -> m < Vec.mag a.
Proof.
  intros Hm H. unfold Vec.mag. rewrite <- (sqrt_square m) at 1 by assumption.
  apply sqrt_lt_1_alt. split; [nra | assumption].
Qed.

Lemma exceeds_cap_false (surf : SurfTrack) (d : Vec3d) :
  0 <= m_max_edge_length surf ->
  Vec.mag2 d <= (2 * m_max_edge_length surf) * (2 * m_max_edge_length surf) ->
  exceeds_cap surf d = false.
Proof.
  intros Hm H. unfold exceeds_cap, Rgtb. apply Rltb_false_iff.
  apply mag_le; [lra | assumption].
Qed.

Lemma PI_gt_3 : 3 < PI.
Proof. pose proof PI2_3_2. lra. Qed.

Lemma max_cos_lt_1 : max_cos < 1.
Proof.
  unfold max_cos. rewrite <- cos_0. pose proof PI_RGT_0.
  apply cos_decreasing_1; lra.
Qed.

Lemma half_within_bounds : min_cos <= 1 / 2 <= max_cos.
Proof.
  pose proof PI_RGT_0 as Hpi. rewrite <- cos_PI3. unfold min_cos, max_cos.
  split; left; apply cos_decreasing_1; lra.
Qed.

Lemma any_bad_first_high (lo hi : R) (cs : R * R * R) :
  hi < cs.1.1 -> any_bad_angles_cos lo hi cs = true.
Proof.
  destruct cs as [[c0 c1] c2]. simpl. intros H. unfold any_bad_angles_cos, Rgtb.
  apply Rltb_true_iff in H. rewrite H. rewrite orb_true_r. reflexivity.
Qed.

Lemma dot_normalized (u w : Vec3d) (k : R) :
  0 < k -> Vec.mag2 u = k -> Vec.mag2 w = k ->
  Vec.dot (Vec.normalized u) (Vec.normalized w) = Vec.dot u w / k.
Proof.
  intros Hk Hu Hw. unfold Vec.normalized, Vec.mag. rewrite Hu, Hw.
  assert (Hs : sqrt k * sqrt k = k) by (apply sqrt_sqrt; lra).
  assert (Hp : 0 < sqrt k) by (apply sqrt_lt_R0; assumption).
  rewrite <- Hs at 3. unfold Vec.dot, Vec.div; simpl. field. lra.
Qed.

(** The three angle cosines of an equilateral triangle are 1/2. *)
Lemma equilateral_cosines (a b c : Vec3d) (k : R) :
  0 < k ->
  Vec.mag2 (b - a) = k -> Vec.mag2 (c - b) = k -> Vec.mag2 (a - c) = k ->
  Fixture.ref_angle_cosines a b c = (1 / 2, 1 / 2, 1 / 2).
Proof.
  intros Hk Hab Hbc Hca.
  assert (Hac : Vec.mag2 (c - a) = k)
    by (rewrite <- Hca; unfold Vec.mag2, Vec.dot; simpl; ring).
  assert (Hba : Vec.mag2 (a - b) = k)
    by (rewrite <- Hab; unfold Vec.mag2, Vec.dot; simpl; ring).
  assert (Hcb : Vec.mag2 (b - c) = k)
    by (rewrite <- Hbc; unfold Vec.mag2, Vec.dot; simpl; ring).
  unfold Fixture.ref_angle_cosines.
  rewrite (dot_normalized (b - a) (c - a) k), (dot_normalized (c - b) (a - b) k),
    (dot_normalized (a - c) (b - c) k) by assumption.
  assert (H0 : Vec.dot (b - a) (c - a)
               = (Vec.mag2 (b - a) + Vec.mag2 (a - c) - Vec.mag2 (c - b)) / 2)
    by (unfold Vec.mag2, Vec.dot; simpl; field).
  assert (H1 : Vec.dot (c - b) (a - b)
               = (Vec.mag2 (c - b) + Vec.mag2 (b - a) - Vec.mag2 (a - c)) / 2)
    by (unfold Vec.mag2, Vec.dot; simpl; field).
  assert (H2 : Vec.dot (a - c) (b - c)
               = (Vec.mag2 (a - c) + Vec.mag2 (c - b) - Vec.mag2 (b - a)) / 2)
    by (unfold Vec.mag2, Vec.dot; simpl; field).
  rewrite H0, H1, H2, Hab, Hbc, Hca.
  f_equal; [f_equal |]; field; lra.
Qed.

(** ** The sliver tetrahedron *)

(** Vertex 0 passes the four tests wherever vertex 3 lies: triangle 0 has
    vertices 0, 2, 1 in a row, so the cosine at vertex 0 is 1. *)
Lemma sliver_eligible feature solid dihedral p3 ag sf me :
  eligible (Fixture.queries feature solid dihedral)
           (Fixture.sliver_surf p3 ag sf me) 0 = true.
Proof.
  apply eligible_iff. repeat split.
  unfold worth_smoothing. fx_cbn. cbn [List.existsb].
  apply orb_true_iff. left.
  unfold triangle_has_bad_angle. apply any_bad_first_high. fx_eval.
  rewrite (normalized_of_square (mkVec3d 2 0 0 - mkVec3d 0 0 0)%vec 2),
          (normalized_of_square (mkVec3d 1 0 0 - mkVec3d 0 0 0)%vec 1);
    try fx_real.
  pose proof max_cos_lt_1. fx_real.
Qed.

Section FlatFixture.

Variables (feature : nat -> bool) (solid : Vec3c) (dihedral : R).
Variables (ag sf : bool) (me : R).

#[local] Notation "'Qf'" := (Fixture.queries feature solid dihedral)
  (only parsing).
#[local] Notation "'surf'" := (Fixture.sliver_surf Fixture.flat_p3 ag sf me)
  (only parsing).

Lemma flat_entry_0 :
  initial_cache_entry Qf surf 0 = (0, mkVec3d 0 0 0, mkVec3d 1 0 0).
Proof.
  unfold initial_cache_entry, triangle_centroid. fx_eval.
  rewrite (normalized_of_square _ 0), (mag_of_square _ 0); try fx_real.
  f_equal; [f_equal |]; try fx_real; apply vec_eq; fx_real.
Qed.

Lemma flat_entry_1 :
  initial_cache_entry Qf surf 1 = (3 / 2, mkVec3d 0 0 1, mkVec3d (1 / 3) 1 0).
Proof.
  unfold initial_cache_entry, triangle_centroid. fx_eval.
  rewrite (normalized_of_square _ 3), (mag_of_square _ 3); try fx_real.
  f_equal; [f_equal |]; try fx_real; apply vec_eq; fx_real.
Qed.

Lemma flat_entry_2 :
  initial_cache_entry Qf surf 2 = (3 / 2, mkVec3d 0 0 1, mkVec3d 1 1 0).
Proof.
  unfold initial_cache_entry, triangle_centroid. fx_eval.
  rewrite (normalized_of_square _ 3), (mag_of_square _ 3); try fx_real.
  f_equal; [f_equal |]; try fx_real; apply vec_eq; fx_real.
Qed.

Lemma flat_entry_3 :
  initial_cache_entry Qf surf 3 = (3, mkVec3d 0 0 (-1), mkVec3d (2 / 3) 1 0).
Proof.
  unfold initial_cache_entry, triangle_centroid. fx_eval.
  rewrite (normalized_of_square _ 6), (mag_of_square _ 6); try fx_real.
  f_equal; [f_equal |]; try fx_real; apply vec_eq; fx_real.
Qed.

(** [flat_caches] is what the pass builds on the flat fixture. *)
Lemma flat_caches_built : build_caches Qf surf = Fixture.flat_caches.
Proof.
  unfold build_caches. rewrite build_caches_fold.
  change (seq 0 (num_triangles (m_mesh surf))) with [0; 1; 2; 3]%nat.
  cbn [map app triangle_areas triangle_normals triangle_centroids].
  rewrite flat_entry_0, flat_entry_1, flat_entry_2, flat_entry_3.
  reflexivity.
Qed.

(** The naive Laplacian displacement of vertex 0. *)
Lemma flat_naive_displacement :
  get_smoothing_displacement_naive surf 0 [0; 1; 3]%nat Fixture.flat_caches
  = mkVec3d (5 / 9) 1 0.
Proof.
  unfold get_smoothing_displacement_naive, weighted_centroid_offsets.
  cbn [fold_left]. fx_eval. apply vec_eq; fx_eval; field.
Qed.

End FlatFixture.

Lemma flat_aggressive_select feature solid dihedral thr sf me :
  select_displacement (Fixture.queries feature solid dihedral) Fixture.backend
    thr (Fixture.flat_surf true sf me) 0 Fixture.flat_caches
  = Ok (mkVec3d (5 / 9) 1 0).
Proof.
  unfold select_displacement. fx_cbn. f_equal. apply flat_naive_displacement.
Qed.

Lemma flat_aggressive_reaches_guard :
  reaches_guard_with Fixture.plain_queries Fixture.backend Fixture.fold_threshold
    (Fixture.flat_surf true true 4) 0 Fixture.flat_caches (mkVec3d (5 / 9) 1 0).
Proof.
  split; [apply sliver_eligible | split].
  - exists (mkVec3d (5 / 9) 1 0).
    split; [apply flat_aggressive_select | reflexivity].
  - apply exceeds_cap_false; fx_real.
Qed.

(** ** C1: the collision guard *)

(** On the flat fixture in aggressive mode, vertex 0 arrives at the guard
    with displacement (5/9, 1, 0); the broad phase pairs edge 0 with edge 5,
    which share no vertex and are measured at distance 0: the move is
    rejected. *)
Lemma collision_rejects_move_witness :
  exists o,
    null_space_smooth_vertex Fixture.plain_queries Fixture.disjoint_pipeline
      Fixture.backend Fixture.fold_threshold 0 Fixture.flat_caches Vec.zero
      (Fixture.flat_surf true true 4) = Ok o /\
    move_rejected (Fixture.flat_surf true true 4) 0 Fixture.flat_caches o.
Proof.
  apply (collision_rejects_move _ _ _ _ _ _ _ _ (mkVec3d (5 / 9) 1 0)).
  - apply flat_aggressive_reaches_guard.
  - reflexivity.
  - right. exists (0, 5, 1)%nat. split; [left |]. split; [reflexivity |].
    unfold candidate_distance. fx_cbn. lra.
Defined.

Lemma flat_adjacent_candidates_pass :
  smooth_vertex_pseudo_motion_introduces_collision Fixture.adjacent_pipeline
    (stage_move (Fixture.flat_surf true true 4) 0 (mkVec3d (5 / 9) 1 0)) 0
  = Ok false.
Proof. reflexivity. Qed.

(** C1 as stated fails.  The broad phase pairs edge 0 = (0,1) with edge
    1 = (0,2); the two share vertex 0 and are at distance 0, below the
    epsilon 1/1000, yet the loop skips the pair and the move of vertex 0 is
    committed with displacement (5/9, 1, 0). *)
Lemma adjacent_edges_do_not_reject :
  ~ any_close_candidate_rejects Fixture.plain_queries Fixture.adjacent_pipeline
      Fixture.backend Fixture.fold_threshold.
Proof.
  intros H.
  destruct (H (Fixture.flat_surf true true 4) 0%nat Fixture.flat_caches
              Vec.zero (mkVec3d (5 / 9) 1 0)
              flat_aggressive_reaches_guard eq_refl) as (o & Ho & Hrej & _).
  - right. exists (0, 1, 1)%nat. split.
    + unfold gather_candidates. cbn. left.
    + unfold candidate_distance. fx_cbn. lra.
  - rewrite (smooth_vertex_commits Fixture.plain_queries
               Fixture.adjacent_pipeline Fixture.backend Fixture.fold_threshold
               (Fixture.flat_surf true true 4) 0 Fixture.flat_caches Vec.zero
               (mkVec3d (5 / 9) 1 0) flat_aggressive_reaches_guard)
      in Ho by (right; exact flat_adjacent_candidates_pass).
    injection Ho as <-. simpl in Hrej.
    apply (f_equal vy) in Hrej. simpl in Hrej. lra.
Qed.

(** ** C2: placeholder triangles *)

(** Slot 4 of the placeholder fixture holds the deleted triangle (0,0,0). *)
Lemma placeholder_triangles_are_zeroed_witness :
  triangle_areas (build_caches Fixture.plain_queries Fixture.placeholder_surf)
    !! 4%nat = Some 0 /\
  triangle_normals (build_caches Fixture.plain_queries Fixture.placeholder_surf)
    !! 4%nat = Some Vec.zero /\
  triangle_centroids (build_caches Fixture.plain_queries Fixture.placeholder_surf)
    !! 4%nat = Some Vec.zero.
Proof.
  apply (proj1 (placeholder_triangles_are_zeroed Fixture.plain_queries)).
  - unfold num_triangles. simpl. lia.
  - reflexivity.
Defined.

(** C2 as stated fails.  The triangle (0,1,1) repeats a vertex index, but
    its first two indices differ, so the cache build computes its centroid:
    ((0,0,0) + (3,0,0) + (3,0,0)) / 3, whose first component is 2. *)
Lemma pinched_triangle_keeps_centroid :
  ~ repeated_index_is_zeroed Fixture.plain_queries.
Proof.
  intros H.
  destruct (H Fixture.pinched_surf 0%nat) as (_ & _ & Hc).
  - unfold num_triangles. simpl. lia.
  - right. left. reflexivity.
  - destruct (build_caches_lookup Fixture.plain_queries Fixture.pinched_surf
                0%nat) as (_ & _ & Hb);
      [unfold num_triangles; simpl; lia |].
    rewrite Hb in Hc. injection Hc as Hx _ _. lra.
Qed.

(** ** C3, C4: the solidity mask *)

(** The scripted largest dihedral angle is 0, far from pi: no fold. *)
Lemma flat_not_folded feature solid ag sf me :
  regularize_folded_feature (Fixture.queries feature solid 0)
    Fixture.fold_threshold (Fixture.flat_surf ag sf me) 0 Fixture.flat_caches
  = false.
Proof.
  apply existsb_false_elem_of. intros e _. apply Rltb_false_iff.
  fx_cbn. pose proof PI_gt_3. lra.
Qed.

Lemma corner_select :
  select_displacement Fixture.corner_queries Fixture.backend
    Fixture.fold_threshold (Fixture.flat_surf false false 4) 0
    Fixture.flat_caches
  = Ok Vec.zero.
Proof.
  unfold select_displacement, Fixture.corner_queries.
  rewrite flat_not_folded. reflexivity.
Qed.

Lemma corner_reaches_guard :
  reaches_guard_with Fixture.corner_queries Fixture.backend
    Fixture.fold_threshold (Fixture.flat_surf false false 4) 0
    Fixture.flat_caches (mkVec3d 0 1 0).
Proof.
  split; [apply sliver_eligible | split].
  - exists Vec.zero. split; [apply corner_select | reflexivity].
  - apply exceeds_cap_false; fx_real.
Qed.

(** C3, the code at a failing input.  Vertex 0 of the flat fixture has three
    feature edges, so the dihedral-aware policy returns the zero vector;
    its axis 1 is solid, so the mask writes 1 there; the result (0, 1, 0)
    is within the cap and, with collision safety off, the vertex is moved
    from (0, 0, 0) to (0, 1, 0). *)
Theorem corner_vertex_moves_when_solid :
  vertex_feature_edge_count Fixture.corner_queries
    (Fixture.flat_surf false false 4) 0 (triangle_normals Fixture.flat_caches)
    = 3%Z /\
  select_displacement Fixture.corner_queries Fixture.backend
    Fixture.fold_threshold (Fixture.flat_surf false false 4) 0
    Fixture.flat_caches = Ok Vec.zero /\
  vertex_is_solid_3 Fixture.corner_queries (Fixture.flat_surf false false 4) 0
    = (false, true, false) /\
  get_position (Fixture.flat_surf false false 4) 0 = mkVec3d 0 0 0 /\
  exists o,
    null_space_smooth_vertex Fixture.corner_queries Fixture.quiet_pipeline
      Fixture.backend Fixture.fold_threshold 0 Fixture.flat_caches Vec.zero
      (Fixture.flat_surf false false 4) = Ok o /\
    out_displacement o = mkVec3d 0 1 0 /\
    get_position (out_surf o) 0 = mkVec3d 0 1 0.
Proof.
  split; [reflexivity |]. split; [apply corner_select |].
  split; [reflexivity |]. split; [reflexivity |].
  eexists. split.
  - apply smooth_vertex_commits; [apply corner_reaches_guard | left; reflexivity].
  - split; [reflexivity |]. apply vec_eq; simpl; lra.
Qed.

Lemma masked_reaches_guard :
  reaches_guard_with Fixture.solid_z_queries Fixture.backend
    Fixture.fold_threshold (Fixture.flat_surf true false 4) 0
    Fixture.flat_caches (mkVec3d (5 / 9) 1 2).
Proof.
  split; [apply sliver_eligible | split].
  - exists (mkVec3d (5 / 9) 1 0).
    split; [apply flat_aggressive_select | reflexivity].
  - apply exceeds_cap_false; fx_real.
Qed.

(** C4, the code at a failing input.  Vertex 0 of the flat fixture is solid
    on axis 2; the synthesized displacement is (5/9, 1, 0); the mask sets
    its third component to 2, and (5/9, 1, 2) is the displacement the
    function reports after the cap and the commit. *)
Theorem solid_axis_is_not_zeroed :
  vertex_is_solid_3 Fixture.solid_z_queries (Fixture.flat_surf true false 4) 0
    = (false, false, true) /\
  select_displacement Fixture.solid_z_queries Fixture.backend
    Fixture.fold_threshold (Fixture.flat_surf true false 4) 0
    Fixture.flat_caches
    = Ok (mkVec3d (5 / 9) 1 0) /\
  solidity_mask (false, false, true) (mkVec3d (5 / 9) 1 0)
    = mkVec3d (5 / 9) 1 2 /\
  exists o,
    null_space_smooth_vertex Fixture.solid_z_queries Fixture.quiet_pipeline
      Fixture.backend Fixture.fold_threshold 0 Fixture.flat_caches Vec.zero
      (Fixture.flat_surf true false 4) = Ok o /\
    out_displacement o = mkVec3d (5 / 9) 1 2.
Proof.
  split; [reflexivity | split; [apply flat_aggressive_select | split]].
  - reflexivity.
  - eexists. split.
    + apply smooth_vertex_commits;
        [apply masked_reaches_guard | left; reflexivity].
    + reflexivity.
Qed.

(** Vertex 0 of the flat fixture with three feature edges and no solid
    axis stays where it is. *)
Lemma corner_vertex_is_frozen_witness :
  exists o,
    null_space_smooth_vertex Fixture.free_corner_queries Fixture.quiet_pipeline
      Fixture.backend Fixture.fold_threshold 0 Fixture.flat_caches Vec.zero
      (Fixture.flat_surf false true 4) = Ok o /\
    out_displacement o = Vec.zero /\
    pm_positions (out_surf o) = pm_positions (Fixture.flat_surf false true 4).
Proof.
  apply (corner_vertex_is_frozen _ _ _ _ _ _ _ _ false).
  - apply sliver_eligible.
  - unfold select_displacement, Fixture.free_corner_queries.
    rewrite flat_not_folded. reflexivity.
  - unfold vertex_feature_edge_count. simpl. lia.
  - reflexivity.
  - fx_cbn. lra.
Defined.

(** ** C5: the magnitude cap *)

(** With maximum edge length 1/4 the displacement (5/9, 1, 0) of vertex 0
    is longer than 1/2. *)
Lemma huge_displacement_is_discarded_witness :
  exists o,
    null_space_smooth_vertex Fixture.plain_queries Fixture.quiet_pipeline
      Fixture.backend Fixture.fold_threshold 0 Fixture.flat_caches Vec.zero
      (Fixture.flat_surf true true (1 / 4)) = Ok o /\
    out_displacement o = Vec.zero /\
    get_position (out_surf o) 0
      = get_position (Fixture.flat_surf true true (1 / 4)) 0 /\
    out_surf o = Fixture.flat_surf true true (1 / 4) /\
    out_caches o = Fixture.flat_caches.
Proof.
  apply (huge_displacement_is_discarded _ _ _ _ _ _ _ _ (mkVec3d (5 / 9) 1 0)).
  - apply sliver_eligible.
  - apply flat_aggressive_select.
  - apply Rlt_gt. apply Rlt_trans with 1.
    + fx_cbn. lra.
    + apply mag_gt; [lra | fx_real].
Defined.

(** ** C6: boundary vertices *)

(** Edge 0 of the single triangle has one incident triangle. *)
Lemma boundary_vertex_is_frozen_witness :
  exists o,
    null_space_smooth_vertex Fixture.plain_queries Fixture.quiet_pipeline
      Fixture.backend Fixture.fold_threshold 0
      (build_caches Fixture.plain_queries Fixture.single_triangle_surf)
      Vec.zero Fixture.single_triangle_surf = Ok o /\
    out_displacement o = Vec.zero /\
    get_position (out_surf o) 0 = get_position Fixture.single_triangle_surf 0 /\
    out_surf o = Fixture.single_triangle_surf /\
    out_caches o
      = build_caches Fixture.plain_queries Fixture.single_triangle_surf.
Proof.
  apply boundary_vertex_is_frozen.
  - reflexivity.
  - discriminate.
  - exists 0%nat. split; [left | reflexivity].
Defined.

(** ** C7: good angles *)

Lemma regular_triangle_is_good feature solid dihedral ag (t : nat) :
  (t < 4)%nat ->
  angle_cosines_within (Fixture.queries feature solid dihedral)
    (Fixture.regular_surf ag) min_cos max_cos t.
Proof.
  intros Ht. pose proof half_within_bounds as Hb.
  unfold angle_cosines_within.
  destruct t as [| [| [| [| t]]]]; [| | | | lia]; fx_cbn;
    rewrite (equilateral_cosines _ _ _ 8); try fx_real; simpl; tauto.
Qed.

Lemma regular_incident_good feature solid dihedral ag (v t : nat) :
  t ∈ m_vertex_to_triangle_map (m_mesh (Fixture.regular_surf ag)) !!! v ->
  angle_cosines_within (Fixture.queries feature solid dihedral)
    (Fixture.regular_surf ag) min_cos max_cos t.
Proof.
  intros Ht. apply regular_triangle_is_good.
  destruct v as [| [| [| [| v]]]]; simpl in Ht;
    repeat (apply elem_of_cons in Ht as [-> | Ht]; [lia |]);
    inversion Ht.
Qed.

(** A pass over the regular tetrahedron, every angle of which is 60
    degrees, moves nothing. *)
Lemma good_angles_early_exit_witness :
  exists s,
    null_space_smoothing_pass Fixture.plain_queries Fixture.quiet_pipeline
      Fixture.backend Fixture.fold_threshold 1 (Fixture.regular_surf false)
      = Ok (true, s) /\
    ps_surf s = Fixture.regular_surf false /\
    (forall v, get_position (ps_surf s) v
               = get_position (Fixture.regular_surf false) v) /\
    ps_displacements s = replicate 4 Vec.zero.
Proof.
  apply (proj2 (good_angles_early_exit Fixture.plain_queries
                  Fixture.quiet_pipeline Fixture.backend
                  Fixture.fold_threshold)).
  intros v t Ht. apply (regular_incident_good _ _ _ _ v). exact Ht.
Defined.

(** C7 as stated fails.  Vertex 4 of the isolated fixture has no incident
    edge, so it counts as deleted, and no incident triangle, so all of them
    are good; the function returns at its first line and the displacement
    slot keeps the (1, 1, 1) it was handed. *)
Lemma deleted_vertex_keeps_its_slot :
  ~ good_angles_give_zero_displacement Fixture.plain_queries
      Fixture.quiet_pipeline Fixture.backend Fixture.fold_threshold.
Proof.
  intros H.
  destruct (H Fixture.isolated_surf 4%nat
              (build_caches Fixture.plain_queries Fixture.isolated_surf)
              (mkVec3d 1 1 1))
    as (o & Ho & Hz & _).
  - intros t Ht. inversion Ht.
  - assert (E : null_space_smooth_vertex Fixture.plain_queries
                  Fixture.quiet_pipeline Fixture.backend Fixture.fold_threshold
                  4 (build_caches Fixture.plain_queries Fixture.isolated_surf)
                  (mkVec3d 1 1 1) Fixture.isolated_surf
                = Ok (mkOutcome Fixture.isolated_surf
                        (build_caches Fixture.plain_queries
                                      Fixture.isolated_surf)
                        (mkVec3d 1 1 1))) by reflexivity.
    rewrite E in Ho. injection Ho as <-. simpl in Hz.
    apply (f_equal vx) in Hz. simpl in Hz. lra.
Qed.

(** ** C8, C9: the dihedral-aware policy on the flat fixture *)

(** The quadric of vertex 0: its incident triangles have areas 0, 3/2, 3 and
    normals 0, +z, -z. *)
Lemma flat_quadric_eigen :
  quadric_eigen Fixture.backend [0; 1; 3]%nat Fixture.flat_caches
  = mkEigen true (mkVec3d 0 0 (9 / 2)) Fixture.axis.
Proof.
  unfold quadric_eigen. fx_cbn. unfold Fixture.diagonal_solver. f_equal.
  unfold medial_quadric, gather_normals, gather_weights.
  cbn [map zip zip_with fold_left]. fx_cbn.
  apply vec_eq; unfold add_weighted_outer; cbn; lra.
Qed.

Lemma flat_Jiao_b :
  Jiao_b (gather_normals [0; 1; 3]%nat Fixture.flat_caches)
         (gather_weights [0; 1; 3]%nat Fixture.flat_caches)
  = mkVec3d 0 0 (- (3 / 2)).
Proof.
  unfold Jiao_b, gather_normals, gather_weights.
  cbn [map zip zip_with fold_left]. fx_cbn. apply vec_eq; fx_real.
Qed.

Lemma flat_eig_max : eig_max_of (mkVec3d 0 0 (9 / 2)) = 9 / 2.
Proof.
  unfold eig_max_of. simpl. rewrite (Rmax_right 0 (9 / 2)) by lra.
  apply Rmax_right. lra.
Qed.

Lemma flat_Jiao_d :
  Jiao_d Fixture.backend (mkEigen true (mkVec3d 0 0 (9 / 2)) Fixture.axis)
         (mkVec3d 0 0 (- (3 / 2)))
  = mkVec3d 0 0 (- (1 / 3)).
Proof.
  unfold Jiao_d. cbn [eigenvalues]. rewrite flat_eig_max.
  cbn [fold_left Vec.get vx vy vz eigenvectors_col G_EIGENVALUE_RANK_RATIO
       Fixture.backend Fixture.axis].
  unfold Rgtb.
  replace (Rltb (1 / 100 * (9 / 2)) 0) with false
    by (symmetry; apply Rltb_false_iff; lra).
  replace (Rltb (1 / 100 * (9 / 2)) (9 / 2)) with true
    by (symmetry; apply Rltb_true_iff; lra).
  apply vec_eq; unfold Vec.dot; fx_cbn; field.
Qed.

(** Vertex 0 of the flat fixture without feature edges: the combined normal
    is (0, 0, -1/3) before it is normalised. *)
Lemma flat_displacement_is_tangential_witness :
  exists t,
    get_smoothing_displacement_dihedral Fixture.plain_queries Fixture.backend
      (Fixture.flat_surf false true 4) 0 [0; 1; 3]%nat Fixture.flat_caches
      = Ok t /\
    Vec.dot t (jiao_normal Fixture.backend
                 (quadric_eigen Fixture.backend [0; 1; 3]%nat Fixture.flat_caches)
                 (gather_normals [0; 1; 3]%nat Fixture.flat_caches)
                 (gather_weights [0; 1; 3]%nat Fixture.flat_caches)) = 0.
Proof.
  apply flat_displacement_is_tangential.
  - reflexivity.
  - reflexivity.
  - unfold weighted_centroid_offsets. rewrite weighted_centroid_offsets_sum.
    cbn [fold_left]. fx_cbn. lra.
  - rewrite flat_quadric_eigen, flat_Jiao_b, flat_Jiao_d.
    intros H. apply (f_equal vz) in H. simpl in H. lra.
Defined.

(** Vertex 0 of the flat fixture with edge 0 its one feature edge. *)
Lemma ridge_direction_choice_witness :
  exists T,
    ridge_basis Fixture.ridge_queries (Fixture.flat_surf false true 4) 0
      Fixture.flat_caches
      (quadric_eigen Fixture.backend [0; 1; 3]%nat Fixture.flat_caches)
      (vertex_feature_edge_count Fixture.ridge_queries
         (Fixture.flat_surf false true 4) 0
         (triangle_normals Fixture.flat_caches)) = Ok T /\
    (es_success (quadric_eigen Fixture.backend [0; 1; 3]%nat Fixture.flat_caches)
       = true ->
     get_smoothing_displacement_dihedral Fixture.ridge_queries Fixture.backend
       (Fixture.flat_surf false true 4) 0 [0; 1; 3]%nat Fixture.flat_caches
     = Ok (ridge_displacement (Fixture.flat_surf false true 4) 0
             [0; 1; 3]%nat Fixture.flat_caches T)).
Proof.
  apply (proj1 (ridge_direction_choice Fixture.ridge_queries Fixture.backend
                  (Fixture.flat_surf false true 4) 0 [0; 1; 3]%nat
                  Fixture.flat_caches (or_introl eq_refl))).
Defined.

(** ** C10: the area sum *)

Lemma flat_cached_areas (t : nat) :
  t ∈ [0; 1; 3]%nat -> 0 <= triangle_areas Fixture.flat_caches !!! t.
Proof.
  intros Ht.
  repeat (apply elem_of_cons in Ht as [-> | Ht]; [fx_cbn; lra |]).
  inversion Ht.
Qed.

(** The incident triangles of vertex 0 on the flat fixture have cached areas
    0, 3/2 and 3. *)
Lemma area_sum_positive_witness :
  0 < (weighted_centroid_offsets (Fixture.flat_surf true true 4) 0
         [0; 1; 3]%nat Fixture.flat_caches).2.
Proof.
  apply (area_sum_positive Fixture.backend (Fixture.flat_surf true true 4) 0
           [0; 1; 3]%nat Fixture.flat_caches).
  - apply flat_cached_areas.
  - exists 1%nat. split; [right; left | fx_cbn; lra].
Defined.

Lemma collinear_area (i : nat) :
  (i < 4)%nat ->
  (initial_cache_entry Fixture.plain_queries Fixture.collinear_surf i).1.1 = 0.
Proof.
  intros Hi. unfold initial_cache_entry.
  destruct i as [| [| [| [| i]]]]; [| | | | lia]; fx_eval;
    rewrite (mag_of_square _ 0); try fx_real.
Qed.

Lemma collinear_cached_area (i : nat) :
  (i < 4)%nat ->
  triangle_areas (build_caches Fixture.plain_queries Fixture.collinear_surf)
    !!! i = 0.
Proof.
  intros Hi. apply list_lookup_total_correct.
  destruct (build_caches_lookup Fixture.plain_queries Fixture.collinear_surf i)
    as (Ha & _); [exact Hi |].
  rewrite Ha, collinear_area by assumption. reflexivity.
Qed.

Lemma collinear_area_sum :
  (weighted_centroid_offsets Fixture.collinear_surf 0
     (m_vertex_to_triangle_map (m_mesh Fixture.collinear_surf) !!! 0%nat)
     (build_caches Fixture.plain_queries Fixture.collinear_surf)).2 = 0.
Proof.
  unfold weighted_centroid_offsets. rewrite weighted_centroid_offsets_sum.
  change (m_vertex_to_triangle_map (m_mesh Fixture.collinear_surf) !!! 0%nat)
    with [0; 1; 3]%nat.
  cbn [fold_left]. rewrite !collinear_cached_area by lia. lra.
Qed.

(** C10 as stated fails.  The four vertices of the collinear fixture lie on
    one line: vertex 0 passes the four tests (the cosine of the angle at it
    in triangle 0 is 1), every triangle has area zero, and the sum of the
    areas the pass caches for its incident triangles is zero. *)
Lemma collinear_sliver_has_zero_area_sum :
  ~ eligible_area_sum_is_positive Fixture.plain_queries.
Proof.
  intros H.
  specialize (H Fixture.collinear_surf 0%nat
                (build_caches Fixture.plain_queries Fixture.collinear_surf)
                (sliver_eligible _ _ _ _ _ _ _)).
  rewrite collinear_area_sum in H. lra.
Qed.

(** ** The further properties *)

(** On the flat fixture in aggressive mode, with nothing near, vertex 0 is
    moved by (5/9, 1, 0). *)
Lemma flat_commit_run :
  null_space_smooth_vertex Fixture.plain_queries Fixture.quiet_pipeline
    Fixture.backend Fixture.fold_threshold 0 Fixture.flat_caches Vec.zero
    (Fixture.flat_surf true true 4)
  = Ok Fixture.flat_committed.
Proof.
  rewrite (smooth_vertex_commits _ _ _ _ _ _ _ _ _
             flat_aggressive_reaches_guard)
    by (right; reflexivity).
  reflexivity.
Qed.

Lemma smooth_vertex_frame_witness :
  same_mesh_and_settings (Fixture.flat_surf true true 4)
                         (out_surf Fixture.flat_committed) /\
  (forall w, w <> 0%nat ->
     get_position (out_surf Fixture.flat_committed) w
       = get_position (Fixture.flat_surf true true 4) w /\
     get_newposition (out_surf Fixture.flat_committed) w
       = get_newposition (Fixture.flat_surf true true 4) w) /\
  (length (triangle_areas (out_caches Fixture.flat_committed))
     = length (triangle_areas Fixture.flat_caches) /\
   length (triangle_normals (out_caches Fixture.flat_committed))
     = length (triangle_normals Fixture.flat_caches) /\
   length (triangle_centroids (out_caches Fixture.flat_committed))
     = length (triangle_centroids Fixture.flat_caches)) /\
  (forall t,
     t ∉ m_vertex_to_triangle_map
           (m_mesh (Fixture.flat_surf true true 4)) !!! 0%nat ->
     triangle_areas (out_caches Fixture.flat_committed) !! t
       = triangle_areas Fixture.flat_caches !! t /\
     triangle_normals (out_caches Fixture.flat_committed) !! t
       = triangle_normals Fixture.flat_caches !! t /\
     triangle_centroids (out_caches Fixture.flat_committed) !! t
       = triangle_centroids Fixture.flat_caches !! t).
Proof.
  exact (smooth_vertex_frame _ _ _ _ _ _ _ _ _ flat_commit_run).
Defined.

Lemma reported_displacement_is_the_motion_witness :
  get_position (out_surf Fixture.flat_committed) 0
  = (get_position (Fixture.flat_surf true true 4) 0
     + out_displacement Fixture.flat_committed)%vec.
Proof.
  apply (reported_displacement_is_the_motion Fixture.plain_queries
           Fixture.quiet_pipeline Fixture.backend Fixture.fold_threshold
           (Fixture.flat_surf true true 4) 0 Fixture.flat_caches Vec.zero).
  - reflexivity.
  - unfold get_num_vertices. simpl. lia.
  - exact flat_commit_run.
Defined.


(** The broad phase pairs edge 0 with edge 5, which share no vertex and
    are measured at distance 1, above the epsilon 1/1000. *)
Lemma clear_move_is_committed_witness :
  null_space_smooth_vertex Fixture.plain_queries Fixture.far_pipeline
    Fixture.backend Fixture.fold_threshold 0 Fixture.flat_caches Vec.zero
    (Fixture.flat_surf true true 4)
  = Ok (committed_outcome Fixture.plain_queries
          (Fixture.flat_surf true true 4) 0 Fixture.flat_caches
          (mkVec3d (5 / 9) 1 0)).
Proof.
  apply clear_move_is_committed.
  - exact flat_aggressive_reaches_guard.
  - reflexivity.
  - reflexivity.
  - intros cand _ _. unfold candidate_distance, Fixture.far_pipeline.
    destruct (Nat.eqb (tri2 cand) 1); fx_cbn; lra.
Defined.

Lemma fixture_metrics_local feature solid dihedral :
  triangle_metrics_local (Fixture.queries feature solid dihedral).
Proof.
  intros surf surf' t Hm Hp. simpl.
  unfold Fixture.ref_area, Fixture.ref_normal, Fixture.ref_cross.
  rewrite <- Hm.
  rewrite !Hp by (unfold triangle_has_vertex; auto). split; reflexivity.
Qed.

Lemma tetra_incident_complete (v : nat) :
  incident_map_complete Fixture.tetra_mesh v.
Proof.
  intros t Ht Hv. unfold num_triangles in Ht. simpl in Ht.
  destruct t as [| [| [| [| t]]]]; [| | | | lia];
    destruct Hv as [<- | [<- | <-]]; simpl; rewrite !elem_of_cons; auto 10.
Qed.

Lemma refreshed_caches_equal_rebuilt_witness :
  out_caches Fixture.flat_committed
  = build_caches Fixture.plain_queries (out_surf Fixture.flat_committed).
Proof.
  apply (refreshed_caches_equal_rebuilt Fixture.plain_queries
           Fixture.quiet_pipeline Fixture.backend Fixture.fold_threshold
           (Fixture.flat_surf true true 4) 0 Fixture.flat_caches Vec.zero).
  - apply fixture_metrics_local.
  - apply tetra_incident_complete.
  - symmetry. apply flat_caches_built.
  - exact flat_commit_run.
Defined.

(** *** A pass that moves one vertex *)

(** The pinned fixture differs from the flat one in the solidity of
    vertices 1, 2 and 3 and in the angle thresholds, which the call on
    vertex 0 does not read. *)
Lemma anchored_caches_built :
  build_caches Fixture.anchored_queries Fixture.strict_surf
  = Fixture.flat_caches.
Proof.
  exact (flat_caches_built (fun _ => false) (false, false, false) 0
                           true true 4).
Qed.

Lemma anchored_reaches_guard :
  reaches_guard_with Fixture.anchored_queries Fixture.backend
    Fixture.fold_threshold Fixture.strict_surf 0 Fixture.flat_caches
    (mkVec3d (5 / 9) 1 0).
Proof. exact flat_aggressive_reaches_guard. Qed.

Lemma anchored_call :
  null_space_smooth_vertex Fixture.anchored_queries Fixture.quiet_pipeline
    Fixture.backend Fixture.fold_threshold 0 Fixture.flat_caches Vec.zero
    Fixture.strict_surf
  = Ok Fixture.anchored_committed.
Proof.
  rewrite (smooth_vertex_commits _ _ _ _ _ _ _ _ _ anchored_reaches_guard)
    by (right; reflexivity).
  reflexivity.
Qed.

(** Triangle 0 has its vertices 0, 2, 1 in a row: the cosine at vertex 0 is
    1, above the threshold 1/2. *)
Lemma anchored_triangle_is_bad :
  triangle_has_bad_angle Fixture.anchored_queries Fixture.strict_surf
    (m_min_angle_cosine Fixture.strict_surf)
    (m_max_angle_cosine Fixture.strict_surf) 0 = true.
Proof.
  unfold triangle_has_bad_angle. apply any_bad_first_high.
  unfold Fixture.strict_surf, Fixture.anchored_queries.
  cbn [m_max_angle_cosine]. fx_eval.
  rewrite (normalized_of_square (mkVec3d 2 0 0 - mkVec3d 0 0 0)%vec 2),
          (normalized_of_square (mkVec3d 1 0 0 - mkVec3d 0 0 0)%vec 1);
    try fx_real.
Qed.

Lemma anchored_record :
  smooth_and_record Fixture.anchored_queries Fixture.quiet_pipeline
    Fixture.backend Fixture.fold_threshold
    (mkPassState Fixture.strict_surf Fixture.flat_caches
                 (replicate 4 Vec.zero) (/ 10 ^ 30)) 0
  = Ok Fixture.anchored_final.
Proof.
  unfold smooth_and_record.
  cbn [ps_surf ps_caches ps_displacements ps_max_displacement].
  change (replicate 4 Vec.zero !!! 0%nat) with Vec.zero.
  rewrite anchored_call. reflexivity.
Qed.

Lemma anchored_pass_run :
  null_space_smoothing_pass Fixture.anchored_queries Fixture.quiet_pipeline
    Fixture.backend Fixture.fold_threshold 1 Fixture.strict_surf
  = Ok (true, Fixture.anchored_final).
Proof.
  unfold null_space_smoothing_pass. cbv zeta.
  change (negb (m_aggressive_mode Fixture.strict_surf)) with false.
  cbv iota. rewrite anchored_caches_built.
  assert (E : aggressive_sweep Fixture.anchored_queries Fixture.quiet_pipeline
                Fixture.backend Fixture.fold_threshold
                (mkPassState Fixture.strict_surf Fixture.flat_caches
                   (replicate (get_num_vertices Fixture.strict_surf) Vec.zero)
                   (/ 10 ^ 30))
              = Ok (Fixture.anchored_final, [true; false; false; false])).
  { unfold aggressive_sweep. cbn [ps_surf].
    change (seq 0 (num_triangles (m_mesh Fixture.strict_surf)))
      with [0; 1; 2; 3]%nat.
    change (get_num_vertices Fixture.strict_surf) with 4%nat.
    rewrite foldM_cons. cbv beta zeta. cbn [fst snd ps_surf].
    rewrite anchored_triangle_is_bad.
    change (m_tris (m_mesh Fixture.strict_surf) !!! 0%nat)
      with (0, 2, 1)%nat.
    cbn [tri0 tri1 tri2 fst snd]. rewrite foldM_cons. cbv beta.
    cbn [fst snd ps_surf].
    change (negb (vertex_is_all_solid Fixture.anchored_queries
                    Fixture.strict_surf 0)
            && negb (replicate 4 false !!! 0%nat)) with true.
    cbv iota. rewrite anchored_record. cbn [mbind result_bind].
    rewrite aggressive_vertices_settled.
    2: { intros [| v]; [right; reflexivity | left; reflexivity]. }
    cbn [mbind result_bind].
    apply aggressive_triangles_settled.
    intros [| v]; [right; reflexivity | left; reflexivity]. }
  rewrite E. reflexivity.
Qed.

Lemma pass_keeps_mesh_and_settings_witness :
  same_mesh_and_settings Fixture.strict_surf
                         (ps_surf Fixture.anchored_final) /\
  (pm_newpositions Fixture.strict_surf = pm_positions Fixture.strict_surf ->
   pm_newpositions (ps_surf Fixture.anchored_final)
   = pm_positions (ps_surf Fixture.anchored_final)).
Proof.
  exact (pass_keeps_mesh_and_settings _ _ _ _ _ _ _ _ anchored_pass_run).
Defined.

(** Vertex 1 of the pinned fixture is all solid. *)
Lemma pass_never_moves_a_pinned_vertex_witness :
  get_position (ps_surf Fixture.anchored_final) 1
  = get_position Fixture.strict_surf 1 /\
  get_newposition (ps_surf Fixture.anchored_final) 1
  = get_newposition Fixture.strict_surf 1.
Proof.
  apply (pass_never_moves_a_pinned_vertex Fixture.anchored_queries
           Fixture.quiet_pipeline Fixture.backend Fixture.fold_threshold
           1 Fixture.strict_surf true).
  - right. right. right. intros surf' _. reflexivity.
  - exact anchored_pass_run.
Defined.

Lemma anchored_metrics_local :
  triangle_metrics_local Fixture.anchored_queries.
Proof. exact (fixture_metrics_local (fun _ => false) (false, false, false) 0). Qed.

Lemma pass_caches_equal_rebuilt_witness :
  ps_caches Fixture.anchored_final
  = build_caches Fixture.anchored_queries (ps_surf Fixture.anchored_final).
Proof.
  apply (pass_caches_equal_rebuilt Fixture.anchored_queries
           Fixture.quiet_pipeline Fixture.backend Fixture.fold_threshold
           1 Fixture.strict_surf true).
  - exact anchored_metrics_local.
  - exact tetra_incident_complete.
  - exact anchored_pass_run.
Defined.

(** *** The synthesizers on the flat fixture *)

Lemma flat_area_sum (ag sf : bool) (me : R) :
  (weighted_centroid_offsets (Fixture.flat_surf ag sf me) 0 [0; 1; 3]%nat
     Fixture.flat_caches).2 <> 0.
Proof.
  unfold weighted_centroid_offsets. rewrite weighted_centroid_offsets_sum.
  cbn [fold_left]. fx_cbn. lra.
Qed.

(** The quadric of vertex 0 has eigenvalues 0, 0 and 9/2 along x, y and z:
    the displacement has no z component. *)
Lemma null_space_displacement_avoids_range_space_witness :
  Vec.dot (get_smoothing_displacement Fixture.backend
             (Fixture.flat_surf false true 4) 0 [0; 1; 3]%nat
             Fixture.flat_caches)
          (eigenvectors_col
             (quadric_eigen Fixture.backend [0; 1; 3]%nat Fixture.flat_caches)
             2) = 0.
Proof.
  apply null_space_displacement_avoids_range_space.
  - rewrite flat_quadric_eigen. cbn [eigenvectors_col].
    intros [| [| [| j]]] [| [| [| k]]] Hj Hk Hjk;
      try lia; try congruence; unfold Vec.dot; simpl; lra.
  - lia.
  - rewrite flat_quadric_eigen. cbn [eigenvalues]. rewrite flat_eig_max.
    fx_cbn. lra.
  - apply flat_area_sum.
Defined.

(** Vertex 0 of the flat fixture with edge 0 its one feature edge. *)
Lemma ridge_vertex_slides_along_ridge_witness :
  exists e,
    ridge_basis Fixture.ridge_queries (Fixture.flat_surf false true 4) 0
      Fixture.flat_caches
      (quadric_eigen Fixture.backend [0; 1; 3]%nat Fixture.flat_caches)
      (vertex_feature_edge_count Fixture.ridge_queries
         (Fixture.flat_surf false true 4) 0
         (triangle_normals Fixture.flat_caches)) = Ok [e] /\
    get_smoothing_displacement_dihedral Fixture.ridge_queries Fixture.backend
      (Fixture.flat_surf false true 4) 0 [0; 1; 3]%nat Fixture.flat_caches
    = Ok (Vec.dot e
            ((weighted_centroid_offsets (Fixture.flat_surf false true 4) 0
                [0; 1; 3]%nat Fixture.flat_caches).1
             / (weighted_centroid_offsets (Fixture.flat_surf false true 4) 0
                  [0; 1; 3]%nat Fixture.flat_caches).2)
          * e)%vec.
Proof.
  apply ridge_vertex_slides_along_ridge.
  - left. reflexivity.
  - reflexivity.
  - apply flat_area_sum.
Defined.

Lemma naive_displacement_reaches_weighted_centroid_witness :
  (get_position (Fixture.flat_surf true true 4) 0
   + get_smoothing_displacement_naive (Fixture.flat_surf true true 4) 0
       [0; 1; 3]%nat Fixture.flat_caches)%vec
  = area_weighted_centroid Fixture.flat_caches [0; 1; 3]%nat.
Proof.
  apply naive_displacement_reaches_weighted_centroid. apply flat_area_sum.
Defined.

(** *** The quadratic solve on the crossing triangle *)

Lemma tiny_lt_one : / 10 ^ 14 < 1.
Proof.
  assert (H1 : 1 < 10 ^ 14) by (apply Rlt_pow_R1; [lra | lia]).
  pose proof tiny_pos as H2.
  assert (H3 : / 10 ^ 14 * 10 ^ 14 = 1) by (apply Rinv_l; lra).
  nra.
Qed.

(** The linear case of the solve: [a] is zero and the root [-c / b] is not
    negative. *)
Lemma solve_beta_linear (a b c n : R) :
  a = 0 -> / 10 ^ 14 < Rabs b -> 0 <= - c / b ->
  solve_beta a b c n = Ok (- c / b).
Proof.
  intros -> Hb Hr. unfold solve_beta, Rgtb, Rgeb. rewrite Rabs_R0.
  replace (Reqb 0 0) with true by (symmetry; apply Reqb_true_iff; reflexivity).
  apply Rltb_true_iff in Hb. apply Rleb_true_iff in Hr.
  rewrite Hb, Hr. reflexivity.
Qed.

(** Vertex 2 reaches the opposite edge at half the displacement: the solve
    allows 99 percent of that. *)
Lemma crossing_step :
  timestep_step Fixture.unit_normal Fixture.crossing_positions
    Fixture.crossing_displacements 1 (0, 1, 2)%nat
  = Ok (99 / 200).
Proof.
  unfold timestep_step, Fixture.crossing_positions,
    Fixture.crossing_displacements.
  cbn [tri0 tri1 tri2 fst snd Nat.eqb lookup_total list_lookup_total].
  unfold triangle_beta, inversion_coefficients.
  match goal with
  | |- context [solve_beta ?a ?b ?c ?n] =>
      replace a with 0 by (unfold Vec.dot, Vec.cross; fx_cbn; lra);
      replace b with (-2) by (unfold Vec.dot, Vec.cross; fx_cbn; lra);
      replace c with 1 by (unfold Vec.dot, Vec.cross; fx_cbn; lra)
  end.
  rewrite solve_beta_linear.
  - cbn [mbind result_bind].
    replace (Rltb (- (1) / -2) 1) with true
      by (symmetry; apply Rltb_true_iff; lra).
    f_equal. lra.
  - reflexivity.
  - rewrite Rabs_left by lra. pose proof tiny_lt_one. lra.
  - lra.
Qed.

Lemma crossing_run :
  compute_max_timestep_quadratic_solve Fixture.unit_normal
    Fixture.crossing_tris Fixture.crossing_positions
    Fixture.crossing_displacements false
  = Ok (99 / 200).
Proof.
  unfold compute_max_timestep_quadratic_solve, Fixture.crossing_tris.
  rewrite foldM_cons, crossing_step. cbn [mbind result_bind].
  rewrite foldM_cons, timestep_step_placeholder by reflexivity.
  reflexivity.
Qed.

Lemma max_timestep_in_unit_interval_witness :
  compute_max_timestep_quadratic_solve Fixture.unit_normal
    Fixture.crossing_tris Fixture.crossing_positions
    Fixture.crossing_displacements false
  = Ok (99 / 200) /\
  0 <= 99 / 200 <= 1.
Proof.
  split; [exact crossing_run |].
  exact (max_timestep_in_unit_interval _ _ _ _ _ _ crossing_run).
Defined.

(** A quarter of the displacement leaves the normal of the crossing
    triangle as it was. *)
Lemma max_timestep_inverts_no_normal_witness :
  0 <= triangle_alignment Fixture.crossing_positions
         Fixture.crossing_displacements (0, 1, 2)%nat (1 / 4) /\
  (1 / 4 < 99 / 200 ->
   0 < triangle_alignment Fixture.crossing_positions
         Fixture.crossing_displacements (0, 1, 2)%nat (1 / 4)).
Proof.
  apply (max_timestep_inverts_no_normal Fixture.unit_normal
           Fixture.crossing_tris Fixture.crossing_positions
           Fixture.crossing_displacements false (99 / 200)).
  - exact crossing_run.
  - left.
  - unfold tri0, tri1. simpl. lia.
  - unfold triangle_c, Fixture.crossing_positions, Vec.mag2, Vec.dot,
      Vec.cross.
    fx_cbn. pose proof tiny_lt_one. lra.
  - lra.
Defined.

Lemma unit_normal_follows_winding :
  normal_follows_winding Fixture.unit_normal.
Proof.
  intros x1 x2 x3 H.
  exists (/ Vec.mag (Vec.cross (x2 - x1) (x3 - x1))). split.
  - apply Rinv_0_lt_compat, mag_pos. assumption.
  - unfold Fixture.unit_normal, Vec.normalized.
    apply vec_eq; simpl; unfold Rdiv; ring.
Qed.

Lemma max_timestep_assertion_holds_witness :
  exists r,
    compute_max_timestep_quadratic_solve Fixture.unit_normal
      Fixture.crossing_tris Fixture.crossing_positions
      Fixture.crossing_displacements false = Ok r.
Proof.
  apply max_timestep_assertion_holds. exact unit_normal_follows_winding.
Defined.

Lemma motionless_mesh_gets_full_step_witness :
  compute_max_timestep_quadratic_solve Fixture.unit_normal
    Fixture.crossing_tris Fixture.crossing_positions
    (replicate 4 Vec.zero) false = Ok 1.
Proof.
  apply motionless_mesh_gets_full_step.
  intros i. apply lookup_total_replicate_zero.
Defined.

(** *** Failures *)

(** On the flat fixture in standard mode, with an eigen-solver that reports
    failure, the call on vertex 0 fails the assertion of the dihedral-aware
    policy. *)
Lemma failing_solver_run :
  null_space_smooth_vertex Fixture.plain_queries Fixture.quiet_pipeline
    Fixture.failing_backend Fixture.fold_threshold 0 Fixture.flat_caches
    Vec.zero (Fixture.flat_surf false true 4)
  = Fault AssertionFailed.
Proof.
  rewrite smooth_vertex_eligible by apply sliver_eligible.
  unfold select_displacement.
  change (m_aggressive_mode (Fixture.flat_surf false true 4)) with false.
  cbv iota zeta.
  rewrite (flat_not_folded (fun _ => false) (false, false, false)).
  reflexivity.
Qed.

Lemma smooth_vertex_fails_only_in_two_places_witness :
  eligible Fixture.plain_queries (Fixture.flat_surf false true 4) 0 = true /\
  m_aggressive_mode (Fixture.flat_surf false true 4) = false /\
  ((AssertionFailed = OutOfBounds /\
    find_sharpest_region Fixture.plain_queries
      (Fixture.flat_surf false true 4) 0 = Fault AssertionFailed) \/
   (AssertionFailed = AssertionFailed /\
    es_success
      (quadric_eigen Fixture.failing_backend
         (m_vertex_to_triangle_map
            (m_mesh (Fixture.flat_surf false true 4)) !!! 0%nat)
         Fixture.flat_caches) = false)).
Proof.
  exact (smooth_vertex_fails_only_in_two_places _ _ _ _ _ _ _ _ _
           failing_solver_run).
Defined.

Lemma aggressive_pass_returns_witness :
  exists s,
    null_space_smoothing_pass Fixture.anchored_queries Fixture.quiet_pipeline
      Fixture.backend Fixture.fold_threshold 1 Fixture.strict_surf
    = Ok (true, s).
Proof. apply aggressive_pass_returns. reflexivity. Defined.
